(** * E-commerce backend: coupons, banners, stock, categories, signup

    A shallow embedding of the business logic of the backend
    (models/Coupon.js, models/Banner.js, controllers/couponController.js,
    controllers/orderController.js, controllers/categoryController.js and
    the signup handler of the auth controller) together with the
    properties the specification states about it.

    A collection of the document store is a finite map ([gmap]) from
    document ids to records where the handlers go by id, and the list of
    its documents where they search by another field.  A request handler
    is a function from the store (and the clock) to a response and the
    new store.  An exception thrown inside a handler's [try] block is the
    handler's [catch] response. *)

From Stdlib Require Import ZArith Lia Bool List Ascii String.
From Stdlib Require Import DecimalString DecimalPos.
From stdpp Require Import gmap strings list fin_maps.

Local Open Scope Z_scope.

(** ** JavaScript strings (ASCII fragment) *)

Module JSString.

Definition is_upper (c : ascii) : bool :=
  let n := nat_of_ascii c in (Nat.leb 65 n && Nat.leb n 90)%bool.

Definition is_lower (c : ascii) : bool :=
  let n := nat_of_ascii c in (Nat.leb 97 n && Nat.leb n 122)%bool.

(** [\s] restricted to ASCII: space, tab, LF, VT, FF, CR. *)
Definition is_space (c : ascii) : bool :=
  let n := nat_of_ascii c in
  (Nat.eqb n 32 || (Nat.leb 9 n && Nat.leb n 13))%bool.

Definition is_digit (c : ascii) : bool :=
  let n := nat_of_ascii c in (Nat.leb 48 n && Nat.leb n 57)%bool.

Definition upper_char (c : ascii) : ascii :=
  if is_lower c then ascii_of_nat (nat_of_ascii c - 32) else c.

Definition lower_char (c : ascii) : ascii :=
  if is_upper c then ascii_of_nat (nat_of_ascii c + 32) else c.

Fixpoint map_chars (f : ascii -> ascii) (s : string) : string :=
  match s with
  | EmptyString => EmptyString
  | String c r => String (f c) (map_chars f r)
  end.

(** [String.prototype.toUpperCase] / [toLowerCase]. *)
Definition toUpperCase : string -> string := map_chars upper_char.
Definition toLowerCase : string -> string := map_chars lower_char.

Fixpoint trimStart (s : string) : string :=
  match s with
  | String c r => if is_space c then trimStart r else s
  | EmptyString => EmptyString
  end.

Fixpoint rev_chars (s acc : string) : string :=
  match s with
  | EmptyString => acc
  | String c r => rev_chars r (String c acc)
  end.

(** [String.prototype.trim]. *)
Definition trim (s : string) : string :=
  rev_chars (trimStart (rev_chars (trimStart s) EmptyString)) EmptyString.

(** Truthiness of a possibly absent string: [undefined], [null] and the
    empty string are falsy. *)
Definition truthy (o : option string) : bool :=
  match o with
  | Some (String _ _) => true
  | _ => false
  end.

Fixpoint filter_chars (p : ascii -> bool) (s : string) : string :=
  match s with
  | EmptyString => EmptyString
  | String c r => if p c then String c (filter_chars p r) else filter_chars p r
  end.

(** The string is empty or begins with a character that is not white
    space. *)
Definition starts_clean (s : string) : bool :=
  match s with
  | EmptyString => true
  | String c _ => negb (is_space c)
  end.

End JSString.

(** ** JavaScript values

    The values a parsed request body holds and the conversions the
    handlers apply to them: [ToBoolean], [ToString], [ToNumber], the
    relational comparison of numbers and [parseInt]. *)

Module JS.
Import JSString.

(** A number: [NaN], an infinity, or the finite number [m * 10^e], taken
    exactly: the rounding of the binary64 format is not modelled. *)
Inductive Number :=
| NaN
| Infinity (negative : bool)
| Fin (m e : Z).

#[local] Set Warnings "-register-all".
(** A value of a body parsed from JSON: [VUndefined] is an absent
    field; an object lists its own properties, each key once. *)
Inductive Value :=
| VUndefined
| VNull
| VBool (b : bool)
| VNum (n : Number)
| VStr (s : string)
| VArr (items : list Value)
| VObj (fields : list (string * Value)).

(** [ToBoolean]. *)
Definition truthy (v : Value) : bool :=
  match v with
  | VUndefined | VNull => false
  | VBool b => b
  | VNum NaN => false
  | VNum (Infinity _) => true
  | VNum (Fin m _) => negb (m =? 0)
  | VStr s => negb (String.eqb s "")
  | VArr _ | VObj _ => true
  end.

(** An own property of an object. *)
Fixpoint get (k : string) (fields : list (string * Value)) : option Value :=
  match fields with
  | [] => None
  | (k', v) :: rest => if String.eqb k' k then Some v else get k rest
  end.

(** [a < b] on numbers: false when either is [NaN]. *)
Definition lt (a b : Number) : bool :=
  match a, b with
  | NaN, _ | _, NaN => false
  | _, Infinity true => false
  | Infinity true, _ => true
  | Infinity false, _ => false
  | _, Infinity false => true
  | Fin m1 e1, Fin m2 e2 =>
      if e1 <=? e2 then m1 <? m2 * 10 ^ (e2 - e1)
      else m1 * 10 ^ (e1 - e2) <? m2
  end.

(** *** Strings of digits *)

Fixpoint take (n : nat) (s : string) : string :=
  match n, s with
  | S k, String c r => String c (take k r)
  | _, _ => EmptyString
  end.

Fixpoint drop (n : nat) (s : string) : string :=
  match n, s with
  | S k, String _ r => drop k r
  | _, _ => s
  end.

Fixpoint zeros (n : nat) : string :=
  match n with
  | O => EmptyString
  | S k => String "0" (zeros k)
  end.

(** The longest prefix whose characters satisfy [p], and the rest. *)
Fixpoint span (p : ascii -> bool) (s : string) : string * string :=
  match s with
  | String c r =>
      if p c then let '(a, b) := span p r in (String c a, b)
      else (EmptyString, s)
  | EmptyString => (EmptyString, EmptyString)
  end.

(** The value of a digit or letter as a digit. *)
Definition digit_of (c : ascii) : Z :=
  let n := Z.of_nat (nat_of_ascii c) in
  if is_digit c then n - 48
  else if is_lower c then n - 87
  else n - 55.

Definition in_radix (r : Z) (c : ascii) : bool :=
  ((is_digit c || is_lower c || is_upper c) && (digit_of c <? r))%bool.

Fixpoint digits_value (r : Z) (s : string) (acc : Z) : Z :=
  match s with
  | EmptyString => acc
  | String c rest => digits_value r rest (acc * r + digit_of c)
  end.

(** The decimal digits of a positive integer. *)
Definition digits (p : positive) : string :=
  NilEmpty.string_of_uint (Pos.to_uint p).

Definition strip_trailing_zeros (s : string) : string :=
  rev_chars
    ((fix strip (r : string) : string :=
        match r with
        | String "0" r' => strip r'
        | _ => r
        end) (rev_chars s EmptyString))
    EmptyString.

(** *** [Number::toString] *)

(** Trailing zeros of the mantissa move into a negative exponent. *)
Fixpoint normalize (fuel : nat) (m e : Z) : Z * Z :=
  match fuel with
  | O => (m, e)
  | S k =>
      if ((e <? 0) && (m mod 10 =? 0))%bool then normalize k (m / 10) (e + 1)
      else (m, e)
  end.

(** [d.ddde+x]: the exponent form of the digits [ds], the decimal point
    of the number standing after its first [n] digits. *)
Definition exponent_form (ds : string) (n : Z) : string :=
  let mantissa :=
    match strip_trailing_zeros (drop 1 ds) with
    | EmptyString => take 1 ds
    | rest => take 1 ds +:+ "." +:+ rest
    end in
  let x := n - 1 in
  mantissa +:+ "e" +:+ (if x <? 0 then "-" else "+")
           +:+ match Z.abs x with
               | Z.pos p => digits p
               | _ => "0"
               end.

Definition positive_to_string (m : positive) (e : Z) : string :=
  let '(m, e) := normalize (Z.to_nat (- e)) (Z.pos m) e in
  match m with
  | Z.pos m =>
      if 0 <=? e then
        match Z.pos m * 10 ^ e with
        | Z.pos v =>
            if Z.pos v <? 10 ^ 21 then digits v
            else exponent_form (digits v) (Z.of_nat (String.length (digits v)))
        | _ => "0"
        end
      else
        let ds := digits m in
        let n := Z.of_nat (String.length ds) + e in
        if ((0 <? n) && (n <=? 21))%bool
        then take (Z.to_nat n) ds +:+ "." +:+ drop (Z.to_nat n) ds
        else if ((-6 <? n) && (n <=? 0))%bool
        then "0." +:+ zeros (Z.to_nat (- n)) +:+ ds
        else exponent_form ds n
  | _ => "0"
  end.

Definition NumberToString (n : Number) : string :=
  match n with
  | NaN => "NaN"
  | Infinity false => "Infinity"
  | Infinity true => "-Infinity"
  | Fin 0 _ => "0"
  | Fin (Z.pos m) e => positive_to_string m e
  | Fin (Z.neg m) e => "-" +:+ positive_to_string m e
  end.

(** *** [ToString]

    [None] is a thrown [TypeError]: an object whose own [toString]
    property, a JSON value, is not callable. *)
Fixpoint ToString (v : Value) : option string :=
  match v with
  | VUndefined => Some "undefined"
  | VNull => Some "null"
  | VBool true => Some "true"
  | VBool false => Some "false"
  | VNum n => Some (NumberToString n)
  | VStr s => Some s
  | VArr items =>
      (fix join (l : list Value) : option string :=
         let element (x : Value) : option string :=
           match x with
           | VUndefined | VNull => Some EmptyString
           | _ => ToString x
           end in
         match l with
         | [] => Some EmptyString
         | [x] => element x
         | x :: rest =>
             match element x, join rest with
             | Some a, Some b => Some (a +:+ "," +:+ b)
             | _, _ => None
             end
         end) items
  | VObj fields =>
      match get "toString" fields with
      | Some _ => None
      | None => Some "[object Object]"
      end
  end.

(** *** [StringToNumber] *)

Definition sign_of (s : string) : bool * string :=
  match s with
  | String "-" r => (true, r)
  | String "+" r => (false, r)
  | _ => (false, s)
  end.

(** [0x], [0o] and [0b] literals. *)
Definition nondecimal (s : string) : option Z :=
  match s with
  | String "0" (String c (String d r)) =>
      let radix :=
        if (Ascii.eqb c "x" || Ascii.eqb c "X")%bool then 16
        else if (Ascii.eqb c "o" || Ascii.eqb c "O")%bool then 8
        else if (Ascii.eqb c "b" || Ascii.eqb c "B")%bool then 2
        else 0 in
      match span (in_radix radix) (String d r) with
      | (_, EmptyString) => Some (digits_value radix (String d r) 0)
      | _ => None
      end
  | _ => None
  end.

(** The exponent part of a decimal literal, which ends the literal. *)
Definition exponent_part (s : string) : option Z :=
  match s with
  | EmptyString => Some 0
  | String c r =>
      if (Ascii.eqb c "e" || Ascii.eqb c "E")%bool then
        let '(neg, r) := sign_of r in
        match span is_digit r with
        | (String a ds, EmptyString) =>
            let x := digits_value 10 (String a ds) 0 in
            Some (if neg then - x else x)
        | _ => None
        end
      else None
  end.

Definition decimal (s : string) : Number :=
  let '(neg, body) := sign_of s in
  if String.eqb body "Infinity" then Infinity neg
  else
    let '(ip, r1) := span is_digit body in
    let '(fp, r2) := match r1 with
                     | String "." r => span is_digit r
                     | _ => (EmptyString, r1)
                     end in
    match ip +:+ fp, exponent_part r2 with
    | String a ds, Some x =>
        let m := digits_value 10 (String a ds) 0 in
        Fin (if neg then - m else m) (x - Z.of_nat (String.length fp))
    | _, _ => NaN
    end.

Definition StringToNumber (s : string) : Number :=
  match trim s with
  | EmptyString => Fin 0 0
  | t =>
      match nondecimal t with
      | Some n => Fin n 0
      | None => decimal t
      end
  end.

(** [ToNumber]; [None] is a thrown [TypeError]. *)
Definition ToNumber (v : Value) : option Number :=
  match v with
  | VUndefined => Some NaN
  | VNull => Some (Fin 0 0)
  | VBool b => Some (Fin (if b then 1 else 0) 0)
  | VNum n => Some n
  | VStr s => Some (StringToNumber s)
  | VArr _ | VObj _ => option_map StringToNumber (ToString v)
  end.

(** *** [parseInt] without a radix

    [None] is [NaN]. *)
Definition parseInt_string (s : string) : option Z :=
  let '(neg, s) := sign_of (trimStart s) in
  let '(radix, s) :=
    match s with
    | String "0" (String c r) =>
        if (Ascii.eqb c "x" || Ascii.eqb c "X")%bool then (16, r) else (10, s)
    | _ => (10, s)
    end in
  match fst (span (in_radix radix) s) with
  | EmptyString => None
  | ds => let n := digits_value radix ds 0 in Some (if neg then - n else n)
  end.

(** [parseInt(v)]: the outer [None] is a thrown [TypeError], the inner
    one [NaN]. *)
Definition parseInt (v : Value) : option (option Z) :=
  option_map parseInt_string (ToString v).

(** [parseInt(n)] for a number [n] that is an integer: its decimal
    string is parsed, which from [10^21] on is in exponent form. *)
Definition parseInt_int (n : Z) : option Z :=
  parseInt_string (NumberToString (Fin n 0)).

(** [v === s] for a string [s]. *)
Definition is_string (s : string) (v : Value) : bool :=
  match v with
  | VStr x => String.eqb x s
  | _ => false
  end.

End JS.

(** ** The ECMAScript date arithmetic used by [getDate] and [setDate]

    A valid [Date] is its time value, the number of milliseconds since the
    epoch.  The host's local time zone gives the offset of local time in
    milliseconds, at an instant and for a local reading; [fixed tza] is a
    zone without daylight-saving transitions. *)

Module JSDate.

Definition msPerDay : Z := 86400000.

Definition Day (t : Z) : Z := t / msPerDay.
Definition TimeWithinDay (t : Z) : Z := t mod msPerDay.

Definition isLeapYear (y : Z) : bool :=
  ((y mod 4 =? 0) && (negb (y mod 100 =? 0) || (y mod 400 =? 0)))%bool.

Definition DayFromYear (y : Z) : Z :=
  365 * (y - 1970) + (y - 1969) / 4 - (y - 1901) / 100 + (y - 1601) / 400.

(** The largest [y] with [DayFromYear y <= Day t]: an estimate from the
    mean year length, corrected by one year either way. *)
Definition YearFromDay (d : Z) : Z :=
  let y0 := 1970 + (d * 10000) / 3652425 in
  if d <? DayFromYear y0 then y0 - 1
  else if DayFromYear (y0 + 1) <=? d then y0 + 1
  else y0.

Definition YearFromTime (t : Z) : Z := YearFromDay (Day t).

Definition InLeapYear (t : Z) : bool := isLeapYear (YearFromTime t).

Definition DayWithinYear (t : Z) : Z := Day t - DayFromYear (YearFromTime t).

(** Day number within the year of the first day of month [m] (0-based). *)
Definition monthStart (m : Z) (leap : bool) : Z :=
  let l := if leap then 1 else 0 in
  match m with
  | 0 => 0
  | 1 => 31
  | 2 => 59 + l
  | 3 => 90 + l
  | 4 => 120 + l
  | 5 => 151 + l
  | 6 => 181 + l
  | 7 => 212 + l
  | 8 => 243 + l
  | 9 => 273 + l
  | 10 => 304 + l
  | _ => 334 + l
  end.

Definition MonthFromTime (t : Z) : Z :=
  let d := DayWithinYear t in
  let l := if InLeapYear t then 1 else 0 in
  if d <? 31 then 0
  else if d <? 59 + l then 1
  else if d <? 90 + l then 2
  else if d <? 120 + l then 3
  else if d <? 151 + l then 4
  else if d <? 181 + l then 5
  else if d <? 212 + l then 6
  else if d <? 243 + l then 7
  else if d <? 273 + l then 8
  else if d <? 304 + l then 9
  else if d <? 334 + l then 10
  else 11.

Definition DateFromTime (t : Z) : Z :=
  DayWithinYear t - monthStart (MonthFromTime t) (InLeapYear t) + 1.

(** [MakeDay(year, month, date)]: the day number of the first of the
    (normalised) month, plus [date - 1]. *)
Definition MakeDay (year month date : Z) : Z :=
  let ym := year + month / 12 in
  let mn := month mod 12 in
  DayFromYear ym + monthStart mn (isLeapYear ym) + date - 1.

Definition MakeDate (day time : Z) : Z := day * msPerDay + time.

Definition maxTime : Z := 8640000000000000.

(** [TimeClip]: [None] is the invalid date (NaN time value). *)
Definition TimeClip (t : Z) : option Z :=
  if Z.abs t <=? maxTime then Some t else None.

(** The host's time zone: [LocalTZA(t, true)], the offset in effect at
    the instant [t], and [LocalTZA(t, false)], the offset the host takes
    for the local reading [t]. *)
Record Zone := mkZone {
  offsetAt : Z -> Z;
  offsetOfLocal : Z -> Z
}.

Definition fixed (tza : Z) : Zone := mkZone (fun _ => tza) (fun _ => tza).

Definition LocalTime (tz : Zone) (t : Z) : Z := t + offsetAt tz t.
Definition UTC (tz : Zone) (t : Z) : Z := t - offsetOfLocal tz t.

(** [Date.prototype.getDate] / [getMonth]. *)
Definition getDate (tz : Zone) (t : Z) : Z := DateFromTime (LocalTime tz t).
Definition getMonth (tz : Zone) (t : Z) : Z := MonthFromTime (LocalTime tz t).

(** [Date.prototype.setDate(date)]: the new time value. *)
Definition setDate (tz : Zone) (t date : Z) : option Z :=
  let lt := LocalTime tz t in
  let newDate :=
    MakeDate (MakeDay (YearFromTime lt) (MonthFromTime lt) date)
             (TimeWithinDay lt) in
  TimeClip (UTC tz newDate).

(** [const end = new Date(start); end.setDate(end.getDate() + days)]. *)
Definition addDays (tz : Zone) (start days : Z) : option Z :=
  setDate tz start (getDate tz start + days).

(** The instant whose local reading is that of [start] moved on by
    [days] calendar days. *)
Definition plusDays (tz : Zone) (start days : Z) : Z :=
  UTC tz (LocalTime tz start + days * msPerDay).

End JSDate.

(** ** HTTP responses

    Every handler answers with a status code and either the data of a
    success or the reason of a failure; each module names its own failure
    reasons and gives their status codes. *)

Inductive Response (F A : Type) : Type :=
| Success (status : Z) (data : A)
| Failure (reason : F).

Arguments Success {F A} status data.
Arguments Failure {F A} reason.

Definition succeeded {F A} (r : Response F A) : bool :=
  match r with
  | Success _ _ => true
  | Failure _ => false
  end.

(** ** Coupons: models/Coupon.js and controllers/couponController.js *)

Module Coupon.
Import JSString JSDate.

Inductive Status := active | inactive | expired.

Definition status_eqb (a b : Status) : bool :=
  match a, b with
  | active, active | inactive, inactive | expired, expired => true
  | _, _ => false
  end.

(** The [enum] of the [status] path. *)
Definition parse_status (s : string) : option Status :=
  if String.eqb s "active" then Some active
  else if String.eqb s "inactive" then Some inactive
  else if String.eqb s "expired" then Some expired
  else None.

(** A coupon document.  Numbers are integers; dates are valid time
    values; [usageLimit = None] is an absent ([null]) limit. *)
Record t := mk {
  _id : nat;
  code : string;
  discount : Z;
  startDate : Z;
  validityDays : Z;
  endDate : Z;
  status : Status;
  usageLimit : option Z;
  usedCount : Z
}.

Definition set_endDate (e : Z) (c : t) : t :=
  mk (_id c) (code c) (discount c) (startDate c) (validityDays c) e
     (status c) (usageLimit c) (usedCount c).

Definition set_status (s : Status) (c : t) : t :=
  mk (_id c) (code c) (discount c) (startDate c) (validityDays c) (endDate c)
     s (usageLimit c) (usedCount c).

Definition set_usageLimit (l : option Z) (c : t) : t :=
  mk (_id c) (code c) (discount c) (startDate c) (validityDays c) (endDate c)
     (status c) l (usedCount c).

Definition set_usedCount (n : Z) (c : t) : t :=
  mk (_id c) (code c) (discount c) (startDate c) (validityDays c) (endDate c)
     (status c) (usageLimit c) n.

(** Truthiness of a number that may be absent: [null], [undefined] and
    [0] are falsy. *)
Definition truthy_num (o : option Z) : bool :=
  match o with
  | Some n => negb (n =? 0)
  | None => false
  end.

(** [couponSchema.pre('save')]: [this.startDate] is a Date object and so
    truthy; the end date is recomputed when [validityDays] is truthy.
    An end date outside the range of [Date] is an invalid date, which the
    [endDate] path does not take: the assignment is dropped, the hook
    goes on and the document keeps the end date it had. *)
Definition preSave (tz : Zone) (c : t) : t :=
  if negb (validityDays c =? 0) then
    match addDays tz (startDate c) (validityDays c) with
    | Some e => set_endDate e c
    | None => c
    end
  else c.

(** [couponSchema.methods.isValid], with [now = new Date()]. *)
Definition isValid (now : Z) (c : t) : bool :=
  if ((now <? startDate c) || (endDate c <? now))%bool then false
  else if negb (status_eqb (status c) active) then false
  else if (truthy_num (usageLimit c)
           && (default 0 (usageLimit c) <=? usedCount c))%bool then false
  else true.

(** [couponSchema.methods.checkExpiration]: the flag returned and the
    coupon after the call. *)
Definition checkExpiration (now : Z) (c : t) : bool * t :=
  if ((endDate c <? now) && negb (status_eqb (status c) expired))%bool
  then (true, set_status expired c)
  else (false, c).

(** The virtual [remainingUses]; [None] is [null] (unlimited). *)
Definition remainingUses (c : t) : option Z :=
  if negb (truthy_num (usageLimit c)) then None
  else Some (Z.max 0 (default 0 (usageLimit c) - usedCount c)).

(** The schema validators run before the save hooks. *)
Definition validate (c : t) : bool :=
  (negb (String.eqb (code c) "")
   && Nat.leb (String.length (code c)) 50
   && (0 <=? discount c) && (discount c <=? 100)
   && (1 <=? validityDays c)
   && match usageLimit c with Some l => 0 <=? l | None => true end
   && (0 <=? usedCount c))%bool.

(** [Coupon.findOne({ code: k })]: the filter is cast to the [code] path,
    that is, through its setters [trim] and [uppercase]. *)
Definition findOne (k : string) (db : list t) : option t :=
  List.find (fun c => String.eqb (code c) (toUpperCase (trim k))) db.

(** The unique index on [code]. *)
Definition code_taken (k : string) (db : list t) : bool :=
  List.existsb (fun c => String.eqb (code c) k) db.

Definition findByIdAndUpdate (i : nat) (f : t -> t) (db : list t) : list t :=
  List.map (fun c => if Nat.eqb (_id c) i then f c else c) db.

Definition fresh_id (db : list t) : nat :=
  S (List.fold_right (fun c m => Nat.max (_id c) m) 0%nat db).

(** [Coupon.create(doc)]: the setters of the [code] path, validation,
    the save hook, and the insertion under the unique index on [code].
    [None] is a thrown error. *)
Definition create (tz : Zone) (db : list t) (doc : t) : option (t * list t) :=
  let doc := mk (fresh_id db) (toUpperCase (trim (code doc))) (discount doc)
                (startDate doc) (validityDays doc) (endDate doc)
                (status doc) (usageLimit doc) (usedCount doc) in
  if validate doc then
    let saved := preSave tz doc in
    if code_taken (code saved) db then None
    else Some (saved, db ++ [saved])
  else None.

(** The body of a creation request: the code and the status are strings,
    the numbers are integers, the start date is a time value given as a
    number; each may be absent. *)
Record CreateBody := {
  b_code : option string;
  b_discount : option Z;
  b_startDate : option Z;
  b_validityDays : option Z;
  b_status : option string;
  b_usageLimit : option Z
}.

Inductive Reason :=
| MissingFields
| DiscountOutOfRange
| ValidityTooShort
| CodeExists
| CreateFailed
| NotFound
| NotYetActive
| HasExpired
| NotActive
| UsageLimitReached.

Definition http_status (r : Reason) : Z :=
  match r with
  | NotFound => 404
  | _ => 400
  end.

(** [createCoupon].  [parseFloat] of an integer is the integer;
    [parseInt] of one may not be (see [JS.parseInt_int]), and [NaN] is
    less than nothing.  An invalid date or a [NaN] among the fields of the
    document makes [Coupon.create] throw. *)
Definition createCoupon (tz : Zone) (now : Z) (db : list t) (b : CreateBody)
  : Response Reason t * list t :=
  match b_code b, b_discount b, b_validityDays b with
  | Some c, Some discountNum, Some validityDays =>
      if String.eqb c "" then (Failure MissingFields, db)
      else if ((discountNum <? 0) || (100 <? discountNum))%bool
      then (Failure DiscountOutOfRange, db)
      else
        let daysNum := JS.parseInt_int validityDays in
        if match daysNum with Some d => d <? 1 | None => false end
        then (Failure ValidityTooShort, db)
        else
          match findOne (toUpperCase c) db with
          | Some _ => (Failure CodeExists, db)
          | None =>
              let start := if truthy_num (b_startDate b)
                           then TimeClip (default 0 (b_startDate b))
                           else Some now in
              let st := if truthy (b_status b)
                        then parse_status (default "" (b_status b))
                        else Some active in
              let usageLimit := if truthy_num (b_usageLimit b)
                                then option_map Some
                                       (JS.parseInt_int (default 0 (b_usageLimit b)))
                                else Some None in
              match start, daysNum, st, usageLimit with
              | Some start, Some daysNum, Some s, Some limit =>
                  match addDays tz start daysNum with
                  | Some e =>
                      let doc := mk 0%nat (toUpperCase c) discountNum start
                                    daysNum e s limit 0 in
                      match create tz db doc with
                      | Some (saved, db') => (Success 201 saved, db')
                      | None => (Failure CreateFailed, db)
                      end
                  | None => (Failure CreateFailed, db)
                  end
              | _, _, _, _ => (Failure CreateFailed, db)
              end
          end
  | _, _, _ => (Failure MissingFields, db)
  end.

(** [getCouponByCode]: the coupon's dates are Date objects and so
    truthy. *)
Definition getCouponByCode (now : Z) (db : list t) (param : string)
  : Response Reason (list t) * list t :=
  match findOne (toUpperCase param) db with
  | None => (Failure NotFound, db)
  | Some c =>
      if now <? startDate c then (Failure NotYetActive, db)
      else if endDate c <? now
      then (Failure HasExpired, findByIdAndUpdate (_id c) (set_status expired) db)
      else if negb (status_eqb (status c) active) then (Failure NotActive, db)
      else if (truthy_num (usageLimit c)
               && (default 0 (usageLimit c) <=? usedCount c))%bool
      then (Failure UsageLimitReached, db)
      else (Success 200 [c], db)
  end.

(** [Coupon.findById(id)]. *)
Definition findById (i : nat) (db : list t) : option t :=
  List.find (fun c => Nat.eqb (_id c) i) db.

(** The paths an update request sets, each absent or given: strings,
    integers, dates as time values given as numbers; [u_usageLimit =
    Some None] is an explicit [null]. *)
Record UpdateBody := {
  u_code : option string;
  u_discount : option Z;
  u_startDate : option Z;
  u_validityDays : option Z;
  u_endDate : option Z;
  u_status : option string;
  u_usageLimit : option (option Z);
  u_usedCount : option Z
}.

Inductive UpdateReason :=
| UNotFound
| UDiscountOutOfRange
| UValidityTooShort
| UpdateFailed.

Definition update_http_status (r : UpdateReason) : Z :=
  match r with
  | UNotFound => 404
  | _ => 400
  end.

Definition code_taken_by_other (i : nat) (k : string) (db : list t) : bool :=
  List.existsb (fun c => (negb (Nat.eqb (_id c) i) && String.eqb (code c) k)%bool) db.

(** [Coupon.findByIdAndUpdate(id, body, { new: true, runValidators: true })]
    on the existing document: the handler has upper-cased a truthy code
    and may have replaced the end date ([endPatch]; [Some None] is an
    invalid date); the body's values are cast to their paths (a number to
    a date, which must be valid), the setters and validators of the paths
    the body sets run, then the unique index on [code].  [None] is a
    thrown error. *)
Definition apply_update (db : list t) (u : UpdateBody)
           (endPatch : option (option Z)) (old : t) : option t :=
  let code' := match u_code u with
               | Some k => toUpperCase (trim (toUpperCase k))
               | None => code old
               end in
  let status' := match u_status u with
                 | Some s => parse_status s
                 | None => Some (status old)
                 end in
  let start' := match u_startDate u with
                | Some t => TimeClip t
                | None => Some (startDate old)
                end in
  let end' := match endPatch with
              | Some e => e
              | None => Some (endDate old)
              end in
  match status', start', end' with
  | Some s, Some start, Some e =>
      if (match u_code u with
          | Some _ => negb (String.eqb code' "")
                      && Nat.leb (String.length code') 50
                      && negb (code_taken_by_other (_id old) code' db)
          | None => true
          end
          && match u_discount u with
             | Some d => (0 <=? d) && (d <=? 100)
             | None => true
             end
          && match u_validityDays u with Some n => 1 <=? n | None => true end
          && match u_usageLimit u with Some (Some l) => 0 <=? l | _ => true end
          && match u_usedCount u with Some n => 0 <=? n | None => true end)%bool
      then Some (mk (_id old) code'
                    (default (discount old) (u_discount u))
                    start
                    (default (validityDays old) (u_validityDays u))
                    e s
                    (default (usageLimit old) (u_usageLimit u))
                    (default (usedCount old) (u_usedCount u)))
      else None
  | _, _, _ => None
  end.

(** [updateCoupon], the recomputation of the end date.  The start date
    of the request counts when it is truthy, its validity when it is
    given; the end date is computed from [parseInt(validityDays)].
    [endPatch] is the end date of the body after the recomputation:
    [None] when the body has none, [Some None] for an invalid date. *)
Definition newStartDate (u : UpdateBody) (existingCoupon : t) : option Z :=
  if truthy_num (u_startDate u)
  then TimeClip (default 0 (u_startDate u))
  else Some (startDate existingCoupon).

Definition newValidityDays (u : UpdateBody) (existingCoupon : t) : option Z :=
  match u_validityDays u with
  | Some n => JS.parseInt_int n
  | None => Some (validityDays existingCoupon)
  end.

Definition endPatch (tz : Zone) (u : UpdateBody) (existingCoupon : t)
  : option (option Z) :=
  if (truthy_num (u_startDate u)
      || match u_validityDays u with Some _ => true | None => false end)%bool
  then Some (match newStartDate u existingCoupon,
                   newValidityDays u existingCoupon with
             | Some s, Some n => addDays tz s n
             | _, _ => None
             end)
  else option_map TimeClip (u_endDate u).


(** [Coupon.findByIdAndDelete(id)]: the first document with the id goes. *)
Fixpoint findByIdAndDelete (i : nat) (db : list t) : list t :=
  match db with
  | [] => []
  | c :: rest => if Nat.eqb (_id c) i then rest else c :: findByIdAndDelete i rest
  end.

(** [deleteCoupon]. *)
Definition deleteCoupon (db : list t) (id : nat)
  : Response UpdateReason unit * list t :=
  match findById id db with
  | None => (Failure UNotFound, db)
  | Some _ => (Success 200 tt, findByIdAndDelete id db)
  end.

(** A collection as the unique indexes and the schema bounds keep it:
    distinct ids, distinct codes, every document within the bounds. *)
Definition well_formed (db : list t) : Prop :=
  NoDup (List.map _id db) /\ NoDup (List.map code db)
  /\ Forall (fun c => validate c = true) db.

End Coupon.

(** ** Banners: the Banner model *)

Module Banner.

Inductive Status := active | inactive | pending | expired.

Definition status_eqb (a b : Status) : bool :=
  match a, b with
  | active, active | inactive, inactive
  | pending, pending | expired, expired => true
  | _, _ => false
  end.

Record t := mk {
  image : string;
  days : Z;
  startDate : Z;
  endDate : Z;
  link : option string;
  status : Status
}.

Definition set_status (s : Status) (b : t) : t :=
  mk (image b) (days b) (startDate b) (endDate b) (link b) s.

(** [bannerSchema.pre('save')], with [now = new Date()]: two successive
    [if] statements, the second reading the status the first may have
    written. *)
Definition preSave (now : Z) (b : t) : t :=
  let b1 :=
    if ((startDate b <=? now) && (now <=? endDate b)
        && status_eqb (status b) pending)%bool
    then set_status active b else b in
  if ((endDate b1 <? now) && status_eqb (status b1) active)%bool
  then set_status expired b1 else b1.

(** The virtual [currentStatus]. *)
Definition currentStatus (now : Z) (b : t) : Status :=
  if endDate b <? now then expired
  else if startDate b <=? now then active
  else pending.

(** *** The banner handlers

    The store of the handlers: the banner documents and the names of the
    files in the upload directory of the banners. *)
Record Store := mkStore {
  banners : gmap nat t;
  files : gset string
}.

(** The [enum] of the [status] path. *)
Definition parse_status (s : string) : option Status :=
  if String.eqb s "active" then Some active
  else if String.eqb s "inactive" then Some inactive
  else if String.eqb s "pending" then Some pending
  else if String.eqb s "expired" then Some expired
  else None.

(** The schema validators: a non-empty image, at least one day. *)
Definition validate (b : t) : bool :=
  (negb (String.eqb (image b) "") && (1 <=? days b))%bool.

(** A missing or zero number is falsy. *)
Definition truthy_num (o : option Z) : bool :=
  match o with
  | Some n => negb (n =? 0)
  | None => false
  end.

(** [if (fs.existsSync(p)) fs.unlinkSync(p)]. *)
Definition unlinkIfExists (p : string) (fs : gset string) : gset string :=
  if bool_decide (p ∈ fs) then fs ∖ {[p]} else fs.

(** [Banner.create(doc)]: the [trim] setter of [link], validation, the
    save hook and the insertion.  [None] is a thrown error. *)
Definition create (now : Z) (bs : gmap nat t) (doc : t)
  : option (t * gmap nat t) :=
  let doc := mk (image doc) (days doc) (startDate doc) (endDate doc)
                (option_map JSString.trim (link doc)) (status doc) in
  if validate doc
  then let saved := preSave now doc in
       Some (saved, <[fresh (dom bs) := saved]> bs)
  else None.

(** The body of a creation request: the day count is an integer, the
    start date a time value given as a number. *)
Record CreateBody := {
  b_days : option Z;
  b_startDate : option Z;
  b_link : option string;
  b_status : option string
}.

Inductive Reason :=
| MissingFields
| ImageRequired
| CreateFailed
| NotFound
| UpdateFailed.

Definition http_status (r : Reason) : Z :=
  match r with
  | NotFound => 404
  | _ => 400
  end.

(** [createBanner]; [file] is the name of the uploaded file, if any.  The
    [catch] branch removes the uploaded file.  An invalid date or a [NaN]
    among the fields of the document makes [Banner.create] throw. *)
Definition createBanner (tz : JSDate.Zone) (now : Z) (st : Store)
           (b : CreateBody) (file : option string) : Response Reason t * Store :=
  if negb (truthy_num (b_startDate b) && truthy_num (b_days b))%bool
  then (Failure MissingFields, st)
  else if negb (JSString.truthy file) then (Failure ImageRequired, st)
  else
    let imageFilename := default "" file in
    let start := JSDate.TimeClip (default 0 (b_startDate b)) in
    let daysNum := JS.parseInt_int (default 0 (b_days b)) in
    let status := if JSString.truthy (b_status b)
                  then parse_status (default "" (b_status b))
                  else Some pending in
    let failed := (Failure CreateFailed,
                   mkStore (banners st) (unlinkIfExists imageFilename (files st))) in
    match start, daysNum, status with
    | Some start, Some daysNum, Some s =>
        match JSDate.addDays tz start daysNum with
        | Some e =>
            match create now (banners st)
                         (mk imageFilename daysNum start e (b_link b) s) with
            | Some (banner, bs) => (Success 201 banner, mkStore bs (files st))
            | None => failed
            end
        | None => failed
        end
    | _, _, _ => failed
    end.

(** The paths an update request sets, each absent or well formed. *)
Record UpdateBody := {
  u_days : option Z;
  u_startDate : option Z;
  u_endDate : option Z;
  u_link : option string;
  u_status : option string;
  u_image : option string
}.

(** [Banner.findByIdAndUpdate(id, body, { new: true, runValidators: true })]
    on the existing document: the body's values are cast to their paths (a
    number to a date, which must be valid), the validators of the paths
    the body sets run, the save hook does not.  [endPatch] is the end date
    of the body after the handler ([Some None] is an invalid date),
    [image'] its image.  [None] is a thrown error. *)
Definition apply_update (u : UpdateBody) (endPatch : option (option Z))
           (image' : option string) (old : t) : option t :=
  let status' := match u_status u with
                 | Some s => parse_status s
                 | None => Some (status old)
                 end in
  let start' := match u_startDate u with
                | Some t => JSDate.TimeClip t
                | None => Some (startDate old)
                end in
  let end' := match endPatch with
              | Some e => e
              | None => Some (endDate old)
              end in
  match status', start', end' with
  | Some s, Some start, Some e =>
      if (match u_days u with Some d => 1 <=? d | None => true end
          && match image' with
             | Some i => negb (String.eqb i "")
             | None => true
             end)%bool
      then Some (mk (default (image old) image')
                    (default (days old) (u_days u))
                    start
                    e
                    (match u_link u with
                     | Some l => Some (JSString.trim l)
                     | None => link old
                     end)
                    s)
      else None
  | _, _, _ => None
  end.

(** [updateBanner]: the end date is recomputed when the start date and
    the day count of the body are both truthy, from [parseInt(days)]; an
    uploaded file replaces the image, the old image file being removed
    before the write. *)
Definition updateBanner (tz : JSDate.Zone) (st : Store) (id : nat)
           (u : UpdateBody) (file : option string) : Response Reason t * Store :=
  match banners st !! id with
  | None => (Failure NotFound, st)
  | Some banner =>
      let endPatch :=
        if (truthy_num (u_startDate u) && truthy_num (u_days u))%bool
        then Some (match JSDate.TimeClip (default 0 (u_startDate u)),
                         JS.parseInt_int (default 0 (u_days u)) with
                   | Some s, Some n => JSDate.addDays tz s n
                   | _, _ => None
                   end)
        else option_map JSDate.TimeClip (u_endDate u) in
      let files1 :=
        match file with
        | Some _ =>
            if JSString.truthy (Some (image banner))
            then unlinkIfExists (image banner) (files st)
            else files st
        | None => files st
        end in
      let image' := match file with
                    | Some f => Some f
                    | None => u_image u
                    end in
      match apply_update u endPatch image' banner with
      | Some updated =>
          (Success 200 updated, mkStore (<[id := updated]> (banners st)) files1)
      | None => (Failure UpdateFailed, mkStore (banners st) files1)
      end
  end.

(** [deleteBanner]. *)
Definition deleteBanner (st : Store) (id : nat) : Response Reason unit * Store :=
  match banners st !! id with
  | None => (Failure NotFound, st)
  | Some banner =>
      let files1 := if JSString.truthy (Some (image banner))
                    then unlinkIfExists (image banner) (files st)
                    else files st in
      (Success 200 tt, mkStore (delete id (banners st)) files1)
  end.

End Banner.

(** ** Products *)

Module Product.

(** Modelled from the spec: the Product model (models/Product.js) is not
    part of the sources at hand.  Of a product document the handlers
    below read and write the integer [stock], the flag [inStock] and the
    reference [category] to the product's category.  Saving a document
    whose stock is a number is taken to succeed; a stock that is [NaN]
    is not a number its path can hold. *)
Record t := mk {
  stock : Z;
  inStock : bool;
  category : nat
}.

End Product.

(** ** Orders and stock reconciliation: controllers/orderController.js *)

Module Order.
Import JSString.

Inductive Status := pending | in_progress | completed | cancelled.

Definition status_eqb (a b : Status) : bool :=
  match a, b with
  | pending, pending | in_progress, in_progress
  | completed, completed | cancelled, cancelled => true
  | _, _ => false
  end.

(** The [enum] of the [status] path of the Order model. *)
Definition parse_status (s : string) : option Status :=
  if String.eqb s "pending" then Some pending
  else if String.eqb s "in-progress" then Some in_progress
  else if String.eqb s "completed" then Some completed
  else if String.eqb s "cancelled" then Some cancelled
  else None.

(** An order document: the fields that take part in stock
    reconciliation and in the validation of a request.  The user
    reference, the optional strings and the monetary fields (floating
    point) are left out. *)
Record t := mk {
  orderNumber : string;
  product : option nat;
  productName : string;
  quantity : Z;
  customerName : string;
  customerLocation : string;
  deliveryDate : Z;
  status : Status
}.

(** The two collections the order handlers touch. *)
Record Store := mkStore {
  products : gmap nat Product.t;
  orders : gmap nat t
}.

Definition set_products (ps : gmap nat Product.t) (st : Store) : Store :=
  mkStore ps (orders st).

Definition set_orders (os : gmap nat t) (st : Store) : Store :=
  mkStore (products st) os.

Inductive Reason :=
| MissingFields
| BadDeliveryDate
| ProductNotFound
| InsufficientStock (available : Z)
| CreateFailed
| OrderNotFound
| UpdateFailed.

Definition http_status (r : Reason) : Z :=
  match r with
  | ProductNotFound | OrderNotFound => 404
  | _ => 400
  end.

(** Lines 56-80 of [createOrder], for a truthy product reference: the
    lookup, the stock check against the quantity as the body gives it,
    the decrement by [parseInt(quantity)] and [productDoc.save()].  A
    [TypeError] thrown by a conversion, and a stock that has become [NaN]
    and is refused by its path at the save, end in the handler's
    [catch]. *)
Definition reserve (ps : gmap nat Product.t) (pid : nat) (quantity : JS.Value)
  : Reason + gmap nat Product.t :=
  match ps !! pid with
  | None => inl ProductNotFound
  | Some productDoc =>
      match JS.ToNumber quantity with
      | Some q =>
          if JS.lt (JS.Fin (Product.stock productDoc) 0) q
          then inl (InsufficientStock (Product.stock productDoc))
          else
            match JS.parseInt quantity with
            | Some (Some n) =>
                let stock' := Product.stock productDoc - n in
                let inStock' := if stock' =? 0 then false
                                else Product.inStock productDoc in
                inr (<[pid := Product.mk stock' inStock'
                                         (Product.category productDoc)]> ps)
            | _ => inl CreateFailed
            end
      | None => inl CreateFailed
      end
  end.

(** The stock restoration shared by [updateOrder] and [deleteOrder]:
    nothing happens when the product no longer exists. *)
Definition release (ps : gmap nat Product.t) (pid : nat) (quantity : Z)
  : gmap nat Product.t :=
  match ps !! pid with
  | Some productDoc =>
      <[pid := Product.mk (Product.stock productDoc + quantity) true
                          (Product.category productDoc)]> ps
  | None => ps
  end.

(** The body of a creation request.  The quantity is any value of the
    body ([JS.VUndefined] when absent); the strings are strings, the
    product reference is an id, the delivery date a time value. *)
Record CreateBody := {
  b_orderNumber : option string;
  b_product : option nat;
  b_productName : option string;
  b_quantity : JS.Value;
  b_customerName : option string;
  b_customerLocation : option string;
  b_deliveryDate : option Z;
  b_status : option string
}.

(** The checks of [createOrder] that precede the stock update; [today]
    is the start of the current local day. *)
Definition rejected (now today : Z) (b : CreateBody) : option Reason :=
  if negb (truthy (b_orderNumber b) && truthy (b_productName b)
           && JS.truthy (b_quantity b) && truthy (b_customerName b)
           && truthy (b_customerLocation b))%bool
  then Some MissingFields
  else if default (now + 7 * 24 * 60 * 60 * 1000) (b_deliveryDate b) <? today
  then Some BadDeliveryDate
  else None.

Definition number_taken (n : string) (os : gmap nat t) : bool :=
  List.existsb (fun o => String.eqb (orderNumber o) n)
               (snd <$> map_to_list os).

(** [Order.create(doc)]: the setters of the string paths, the validators
    (required strings, [quantity >= 1], the delivery-date validator), and
    the insertion under the unique index on [orderNumber].  [None] is a
    thrown error. *)
Definition create (today : Z) (os : gmap nat t) (doc : t)
  : option (t * gmap nat t) :=
  let doc := mk (toUpperCase (trim (orderNumber doc))) (product doc)
                (trim (productName doc)) (quantity doc)
                (trim (customerName doc)) (trim (customerLocation doc))
                (deliveryDate doc) (status doc) in
  if ((1 <=? quantity doc) && (today <=? deliveryDate doc)
      && negb (String.eqb (orderNumber doc) "")
      && negb (String.eqb (productName doc) "")
      && negb (String.eqb (customerName doc) "")
      && negb (String.eqb (customerLocation doc) "")
      && negb (number_taken (orderNumber doc) os))%bool
  then Some (doc, <[fresh (dom os) := doc]> os)
  else None.

(** [createOrder].  The order is created with [parseInt(quantity)]; a
    [NaN] there is refused by the [quantity] path. *)
Definition createOrder (now today : Z) (st : Store) (b : CreateBody)
  : Response Reason t * Store :=
  match rejected now today b with
  | Some r => (Failure r, st)
  | None =>
      let reserved :=
        match b_product b with
        | Some pid => reserve (products st) pid (b_quantity b)
        | None => inr (products st)
        end in
      match reserved with
      | inl r => (Failure r, st)
      | inr ps =>
          let st1 := set_products ps st in
          let status := if truthy (b_status b)
                        then parse_status (default "" (b_status b))
                        else Some pending in
          match status, JS.parseInt (b_quantity b) with
          | Some s, Some (Some quantity) =>
              let doc := mk (toUpperCase (default "" (b_orderNumber b)))
                            (b_product b)
                            (default "" (b_productName b)) quantity
                            (default "" (b_customerName b))
                            (default "" (b_customerLocation b))
                            (default (now + 7 * 24 * 60 * 60 * 1000)
                                     (b_deliveryDate b)) s in
              match create today (orders st1) doc with
              | Some (order, os) => (Success 201 order, set_orders os st1)
              | None => (Failure CreateFailed, st1)
              end
          | _, _ => (Failure CreateFailed, st1)
          end
      end
  end.

(** The body of an update request: the paths it sets. *)
Record UpdateBody := {
  u_deliveryDate : option Z;
  u_status : option string;
  u_quantity : option Z;
  u_product : option nat
}.

(** [Order.findByIdAndUpdate(id, body, { runValidators: true })] on an
    existing order: the validators run on the paths the body sets.
    [None] is a thrown validation error. *)
Definition apply_update (today : Z) (u : UpdateBody) (o : t) : option t :=
  let status := match u_status u with
                | Some s => parse_status s
                | None => Some (status o)
                end in
  match status with
  | Some s =>
      if (match u_quantity u with Some q => 1 <=? q | None => true end
          && match u_deliveryDate u with Some d => today <=? d | None => true end)%bool
      then Some (mk (orderNumber o)
                    (match u_product u with Some p => Some p | None => product o end)
                    (productName o)
                    (default (quantity o) (u_quantity u))
                    (customerName o) (customerLocation o)
                    (default (deliveryDate o) (u_deliveryDate u))
                    s)
      else None
  | None => None
  end.

(** [updateOrder]. *)
Definition updateOrder (today : Z) (st : Store) (id : nat) (u : UpdateBody)
  : Response Reason t * Store :=
  if match u_deliveryDate u with Some d => d <? today | None => false end
  then (Failure BadDeliveryDate, st)
  else
    match orders st !! id with
    | None => (Failure OrderNotFound, st)
    | Some oldOrder =>
        let st1 :=
          match u_status u, product oldOrder with
          | Some s, Some pid =>
              if (String.eqb s "cancelled"
                  && negb (status_eqb (status oldOrder) cancelled))%bool
              then set_products (release (products st) pid (quantity oldOrder)) st
              else st
          | _, _ => st
          end in
        match apply_update today u oldOrder with
        | Some order => (Success 200 order, set_orders (<[id := order]> (orders st1)) st1)
        | None => (Failure UpdateFailed, st1)
        end
    end.

(** [deleteOrder]. *)
Definition deleteOrder (st : Store) (id : nat) : Response Reason unit * Store :=
  match orders st !! id with
  | None => (Failure OrderNotFound, st)
  | Some order =>
      let st1 :=
        match product order with
        | Some pid =>
            if (negb (status_eqb (status order) cancelled)
                && negb (status_eqb (status order) completed))%bool
            then set_products (release (products st) pid (quantity order)) st
            else st
        | None => st
        end in
      (Success 200 tt, set_orders (delete id (orders st1)) st1)
  end.


End Order.

(** ** Categories: controllers/categoryController.js *)

Module Category.

(** Modelled from the spec: the Category model (models/Category.js) is not
    part of the sources at hand.  Of a category document the handlers
    below read the id, the optional [parent] reference and the optional
    [image] path. *)
Record t := mk {
  _id : nat;
  name : string;
  parent : option nat;
  image : option string
}.

(** *** Documents in memory

    What [cat.parent] holds in a document a query has returned: nothing
    ([null], also where [populate] found no document for the reference),
    the reference, or, after [populate('parent', 'name slug')], the parent
    document with the fields selected. *)
Inductive ParentField :=
| Absent
| Reference (p : nat)
| Document (p : nat) (parentName : string).

Record Doc := mkDoc {
  doc_id : nat;
  doc_name : string;
  doc_parent : ParentField;
  doc_image : option string
}.

(** A stored document as a query without [populate] returns it. *)
Definition unpopulated (c : t) : Doc :=
  mkDoc (_id c) (name c)
        (match parent c with
         | Some p => Reference p
         | None => Absent
         end)
        (image c).

(** [.populate('parent', 'name slug')] on a document of the result. *)
Definition populate (categories : gmap nat t) (c : t) : Doc :=
  mkDoc (_id c) (name c)
        (match parent c with
         | Some p =>
             match categories !! p with
             | Some parentDoc => Document p (name parentDoc)
             | None => Absent
             end
         | None => Absent
         end)
        (image c).

(** *** The tree builder

    [categoryMap] holds one mutable object per id, under the key
    [cat._id.toString()]; the [children] arrays and [rootCategories] hold
    references to these objects.  A reference is the id of the object. *)
Record Node := mkNode {
  node_cat : Doc;
  children : list nat
}.

Definition push_child (k : nat) (n : Node) : Node :=
  mkNode (node_cat n) (children n ++ [k]).

(** First pass: [categoryMap.set(id, { ...cat, children: [] })]. *)
Definition firstPass (categories : list Doc) : gmap nat Node :=
  List.fold_left (fun m cat => <[doc_id cat := mkNode cat []]> m) categories ∅.

(** One iteration of the second pass.  For a truthy [cat.parent] the
    map is asked for the key [cat.parent.toString()]: the string of a
    reference is the key of that id; the string of a populated document
    is the printed document, the key of no id, so that nothing is
    found. *)
Definition attach (acc : gmap nat Node * list nat) (cat : Doc)
  : gmap nat Node * list nat :=
  let '(categoryMap, rootCategories) := acc in
  match doc_parent cat with
  | Absent => (categoryMap, rootCategories ++ [doc_id cat])
  | Reference p =>
      match categoryMap !! p with
      | Some parentObj =>
          (<[p := push_child (doc_id cat) parentObj]> categoryMap, rootCategories)
      | None => (categoryMap, rootCategories ++ [doc_id cat])
      end
  | Document _ _ => (categoryMap, rootCategories ++ [doc_id cat])
  end.

(** The id whose object [attach] looks for, if any. *)
Definition parentKey (cat : Doc) : option nat :=
  match doc_parent cat with
  | Reference i => Some i
  | _ => None
  end.

(** [buildCategoryTree]: the objects after both passes and the returned
    root references. *)
Definition buildCategoryTree (categories : list Doc)
  : gmap nat Node * list nat :=
  List.fold_left attach categories (firstPass categories, []).

(** [getAllCategories] with [nested = 'true'], from the documents [found]
    that [Category.find(query)] returns in the order of its [sort]:
    [populate], then the tree builder. *)
Definition getAllCategories_nested (categories : gmap nat t) (found : list t)
  : gmap nat Node * list nat :=
  buildCategoryTree (List.map (populate categories) found).

Definition option_nat_eqb (a : option nat) (b : nat) : bool :=
  match a with
  | Some x => Nat.eqb x b
  | None => false
  end.

(** The specification's reading of the result: the children of [k] are
    the categories whose parent is [k]; the roots are the categories
    with no parent or with a parent that is not in the list. *)
Definition is_child_of (k : nat) (cat : Doc) : bool :=
  option_nat_eqb (parentKey cat) k.

Definition is_root_in (categories : list Doc) (cat : Doc) : bool :=
  match parentKey cat with
  | Some p => negb (List.existsb (Nat.eqb p) (List.map doc_id categories))
  | None => true
  end.

(** The nested value a reference stands for, unfolded to a given depth. *)
#[local] Set Warnings "-register-all".
Inductive Tree := TNode (cat : Doc) (kids : list Tree).

Fixpoint unfold (depth : nat) (m : gmap nat Node) (k : nat) : list Tree :=
  match depth with
  | O => []
  | S d =>
      match m !! k with
      | Some n => [TNode (node_cat n) (List.flat_map (unfold d m) (children n))]
      | None => []
      end
  end.

Definition forest (depth : nat) (r : gmap nat Node * list nat) : list Tree :=
  List.flat_map (unfold depth (fst r)) (snd r).

(** *** Deletion *)

Record Store := mkStore {
  categories : gmap nat t;
  products : gmap nat Product.t;
  files : gset string
}.

Inductive Reason :=
| NotFound
| HasSubcategories
| HasProducts (productCount : nat).

Definition http_status (r : Reason) : Z :=
  match r with
  | NotFound => 404
  | _ => 400
  end.

(** [Model.countDocuments(filter)]. *)
Definition countDocuments {A} (p : A -> bool) (m : gmap nat A) : nat :=
  List.length (List.filter p (snd <$> map_to_list m)).

(** [if (fs.existsSync(p)) fs.unlinkSync(p)]. *)
Definition unlinkIfExists (p : string) (fs : gset string) : gset string :=
  if bool_decide (p ∈ fs) then fs ∖ {[p]} else fs.

(** [deleteCategory]. *)
Definition deleteCategory (st : Store) (id : nat)
  : Response Reason unit * Store :=
  match categories st !! id with
  | None => (Failure NotFound, st)
  | Some category =>
      let childrenCount :=
        countDocuments (fun c => option_nat_eqb (parent c) id) (categories st) in
      if Nat.ltb 0 childrenCount then (Failure HasSubcategories, st)
      else
        let productCount :=
          countDocuments (fun p => Nat.eqb (Product.category p) id) (products st) in
        if Nat.ltb 0 productCount then (Failure (HasProducts productCount), st)
        else
          let files' :=
            if JSString.truthy (image category)
            then unlinkIfExists (default "" (image category)) (files st)
            else files st in
          (Success 200 tt,
           mkStore (delete id (categories st)) (products st) files')
  end.

(** Referential integrity of a store: the parent of every category and
    the category of every product are categories of the store. *)
Definition references_resolve (st : Store) : Prop :=
  (forall k c p, categories st !! k = Some c -> parent c = Some p ->
                 is_Some (categories st !! p))
  /\ (forall k p, products st !! k = Some p ->
                  is_Some (categories st !! Product.category p)).

(** Whether the parent of a category is among the given ids. *)
Definition has_parent_in (ks : list nat) (c : Doc) : bool :=
  List.existsb (fun k => is_child_of k c) ks.

(** The ids a result of the tree builder places: the roots, then the
    children of every id of the list. *)
Definition placed (categories : list Doc) (r : gmap nat Node * list nat)
  : list nat :=
  snd r ++ List.flat_map
             (fun k => match fst r !! k with
                       | Some n => children n
                       | None => []
                       end)
             (List.map doc_id categories).

End Category.

(** ** Regular expressions, matched against a whole string *)

Module JSRegExp.

Inductive re :=
| Empty
| Eps
| Chr (p : ascii -> bool)
| Cat (a b : re)
| Alt (a b : re)
| Star (a : re).

Fixpoint nullable (r : re) : bool :=
  match r with
  | Empty => false
  | Eps => true
  | Chr _ => false
  | Cat a b => (nullable a && nullable b)%bool
  | Alt a b => (nullable a || nullable b)%bool
  | Star _ => true
  end.

Definition cat (a b : re) : re :=
  match a with
  | Empty => Empty
  | Eps => b
  | _ => Cat a b
  end.

Definition alt (a b : re) : re :=
  match a, b with
  | Empty, _ => b
  | _, Empty => a
  | _, _ => Alt a b
  end.

Fixpoint deriv (c : ascii) (r : re) : re :=
  match r with
  | Empty => Empty
  | Eps => Empty
  | Chr p => if p c then Eps else Empty
  | Cat a b =>
      if nullable a then alt (cat (deriv c a) b) (deriv c b)
      else cat (deriv c a) b
  | Alt a b => alt (deriv c a) (deriv c b)
  | Star a => cat (deriv c a) (Star a)
  end.

(** [/^r$/.test(s)]. *)
Fixpoint test (r : re) (s : string) : bool :=
  match s with
  | EmptyString => nullable r
  | String c s' => test (deriv c r) s'
  end.

Definition Plus (a : re) : re := Cat a (Star a).
Definition Lit (c : ascii) : re := Chr (Ascii.eqb c).

(** [a{n}] and [a{0,n}]. *)
Fixpoint times (n : nat) (a : re) : re :=
  match n with
  | O => Eps
  | S k => Cat a (times k a)
  end.

Fixpoint upto (n : nat) (a : re) : re :=
  match n with
  | O => Eps
  | S k => Alt Eps (Cat a (upto k a))
  end.

(** The strings a regular expression denotes. *)
Inductive matches : re -> string -> Prop :=
| MEps : matches Eps EmptyString
| MChr (p : ascii -> bool) (c : ascii) :
    p c = true -> matches (Chr p) (String c EmptyString)
| MCat (a b : re) (s1 s2 : string) :
    matches a s1 -> matches b s2 -> matches (Cat a b) (s1 +:+ s2)
| MAltL (a b : re) (s : string) : matches a s -> matches (Alt a b) s
| MAltR (a b : re) (s : string) : matches b s -> matches (Alt a b) s
| MStar0 (a : re) : matches (Star a) EmptyString
| MStarS (a : re) (s1 s2 : string) :
    matches a s1 -> matches (Star a) s2 -> matches (Star a) (s1 +:+ s2).

(** Every character of the string satisfies the test. *)
Fixpoint all_chars (p : ascii -> bool) (s : string) : bool :=
  match s with
  | EmptyString => true
  | String c r => (p c && all_chars p r)%bool
  end.

End JSRegExp.

(** ** Mongoose: the cast of a value to a schema path *)

Module Mongoose.

(** The cast to the String type (the library's [castString]): [null] and
    [undefined] stay as they are ([Some None]); an object with a
    non-empty string [_id] becomes that string; a string, a number and a
    boolean become their [toString()]; an array, and an object without
    such an [_id], are refused ([None], a thrown [CastError]). *)
Definition castString (v : JS.Value) : option (option string) :=
  match v with
  | JS.VUndefined | JS.VNull => Some None
  | JS.VBool true => Some (Some "true"%string)
  | JS.VBool false => Some (Some "false"%string)
  | JS.VNum n => Some (Some (JS.NumberToString n))
  | JS.VStr s => Some (Some s)
  | JS.VArr _ => None
  | JS.VObj fields =>
      match JS.get "_id" fields with
      | Some (JS.VStr s) =>
          if String.eqb s "" then None else Some (Some s)
      | _ => None
      end
  end.

End Mongoose.

(** ** Signup: the User model and the [signup] handler *)

Module Auth.
Import JSString JSRegExp.

Inductive Role := customer | admin.

(** The [enum] of the [role] path of the User model. *)
Definition parse_role (s : string) : option Role :=
  if String.eqb s "customer" then Some customer
  else if String.eqb s "admin" then Some admin
  else None.

(** A user document, without the password hash the save hook computes. *)
Record User := mkUser {
  _id : nat;
  name : string;
  email : string;
  phone : option string;
  role : Role
}.

(** The fields the handler writes to [req.session]. *)
Record Session := mkSession {
  session_userId : nat;
  session_userRole : Role;
  session_userEmail : string;
  session_userName : string
}.

Definition not_space_at (c : ascii) : bool :=
  negb (is_space c || Ascii.eqb c "@")%bool.

Definition not_space (c : ascii) : bool := negb (is_space c).

(** [/^[^\s@]+@[^\s@]+\.[^\s@]+$/.test(email)]. *)
Definition isValidEmail (email : string) : bool :=
  test (Cat (Plus (Chr not_space_at))
         (Cat (Lit "@")
           (Cat (Plus (Chr not_space_at))
             (Cat (Lit ".") (Plus (Chr not_space_at))))))
       email.

(** The [match] of the [email] path: [/^\S+@\S+\.\S+$/]. *)
Definition emailMatch (email : string) : bool :=
  test (Cat (Plus (Chr not_space))
         (Cat (Lit "@")
           (Cat (Plus (Chr not_space))
             (Cat (Lit ".") (Plus (Chr not_space))))))
       email.

(** [password && password.length >= 6], for a present password. *)
Definition isValidPassword (password : string) : bool :=
  Nat.leb 6 (String.length password).

Definition phone_separator (c : ascii) : bool :=
  (is_space c || Ascii.eqb c "-" || Ascii.eqb c "(" || Ascii.eqb c ")")%bool.

(** [/^[0-9]{10,15}$/.test(phone.replace(/[\s\-\(\)]/g, ''))]. *)
Definition isValidPhone (phone : string) : bool :=
  test (Cat (times 10 (Chr is_digit)) (upto 5 (Chr is_digit)))
       (filter_chars (fun c => negb (phone_separator c)) phone).

(** The body of a signup request: the name, the email, the password and
    the phone number are strings when present; the role is any value of
    the body ([JS.VUndefined] when absent). *)
Record Body := {
  b_name : option string;
  b_email : option string;
  b_password : option string;
  b_phone : option string;
  b_role : JS.Value
}.

Inductive Reason :=
| NamePasswordRequired
| EmailOrPhoneRequired
| InvalidEmail
| InvalidPhone
| NameTooShort
| NameTooLong
| WeakPassword
| AlreadyExists
| RegisterFailed.

Definition http_status (r : Reason) : Z := 400.

Definition option_string_eqb (a b : option string) : bool :=
  match a, b with
  | Some x, Some y => String.eqb x y
  | None, None => true
  | _, _ => false
  end.

(** [User.findOne({ $or: [{ email: e }, { phone: p }] })]: a [null]
    operand matches the documents in which the field is absent. *)
Definition findOne (e p : option string) (users : list User) : option User :=
  List.find (fun u => (option_string_eqb e (Some (email u))
                       || option_string_eqb p (phone u))%bool) users.

Definition fresh_id (users : list User) : nat :=
  S (List.fold_right (fun u m => Nat.max (_id u) m) 0%nat users).

(** The [role] path of a new document: the cast to a string, the
    default for an absent value, the [enum] validator.  [None] is a
    thrown error; a [null], which [signup] never passes, is taken as
    one. *)
Definition role_path (role : JS.Value) : option Role :=
  match Mongoose.castString role with
  | Some (Some s) => parse_role s
  | Some None =>
      match role with
      | JS.VUndefined => Some customer
      | _ => None
      end
  | None => None
  end.

(** [User.create(doc)]: the casts, the setters ([trim], [lowercase]), the
    validators and the insertion under the unique index on [email].
    [None] is a thrown error. *)
Definition create (users : list User)
           (name email password : string) (phone : option string)
           (role : JS.Value) : option (User * list User) :=
  let name := trim name in
  let email := trim (toLowerCase email) in
  let phone := option_map trim phone in
  match role_path role with
  | Some r =>
      if (negb (String.eqb name "") && Nat.leb (String.length name) 100
          && negb (String.eqb email "") && emailMatch email
          && Nat.leb 6 (String.length password)
          && negb (List.existsb (fun u => String.eqb (Auth.email u) email) users))%bool
      then
        let user := mkUser (fresh_id users) name email phone r in
        Some (user, users ++ [user])
      else None
  | None => None
  end.

(** The role given to the new user:
    [role === 'admin' ? 'customer' : (role || 'customer')]. *)
Definition userRole (role : JS.Value) : JS.Value :=
  if JS.is_string "admin" role then JS.VStr "customer"
  else if JS.truthy role then role else JS.VStr "customer".

(** The query operands of the duplicate check. *)
Definition query_email (b : Body) : option string :=
  if truthy (b_email b)
  then Some (trim (toLowerCase (default "" (b_email b))))
  else None.

Definition query_phone (b : Body) : option string :=
  if truthy (b_phone b) then Some (trim (default "" (b_phone b))) else None.

(** The early returns of [signup], in order: field validation and the
    duplicate check. *)
Definition precheck (users : list User) (b : Body) : option Reason :=
  if negb (truthy (b_name b) && truthy (b_password b))%bool
  then Some NamePasswordRequired
  else if (negb (truthy (b_email b)) && negb (truthy (b_phone b)))%bool
  then Some EmailOrPhoneRequired
  else if (truthy (b_email b) && negb (isValidEmail (default "" (b_email b))))%bool
  then Some InvalidEmail
  else if (truthy (b_phone b) && negb (isValidPhone (default "" (b_phone b))))%bool
  then Some InvalidPhone
  else if Nat.ltb (String.length (trim (default "" (b_name b)))) 2
  then Some NameTooShort
  else if Nat.ltb 100 (String.length (trim (default "" (b_name b))))
  then Some NameTooLong
  else if negb (isValidPassword (default "" (b_password b)))
  then Some WeakPassword
  else
    match findOne (query_email b) (query_phone b) users with
    | Some _ => Some AlreadyExists
    | None => None
    end.

(** [signup].  Calling [toLowerCase] on an absent email throws, which
    the handler's [catch] turns into the failure response. *)
Definition signup (users : list User) (b : Body)
  : Response Reason (User * Session) * list User :=
  match precheck users b with
  | Some r => (Failure r, users)
  | None =>
      match b_email b with
      | None => (Failure RegisterFailed, users)
      | Some email =>
          match create users (trim (default "" (b_name b)))
                       (trim (toLowerCase email))
                       (default "" (b_password b)) (query_phone b)
                       (userRole (b_role b)) with
          | Some (user, users') =>
              (Success 201
                 (user, mkSession (_id user) (role user) (Auth.email user)
                                  (Auth.name user)),
               users')
          | None => (Failure RegisterFailed, users)
          end
      end
  end.

End Auth.

(** ** Stored accounts: the customer handlers and the profile handlers *)

Module Account.
Import JSString Auth.

(** A stored user document: the fields of [Auth.User] and the remaining
    paths of the schema that the handlers below write.  Numbers are
    integers. *)
Record t := mk {
  user : User;
  avatar : option string;
  purchasedItems : Z;
  rewardPoints : Z;
  isActive : bool
}.

Definition id (a : t) : nat := _id (user a).

Definition is_customer (a : t) : bool :=
  match role (user a) with
  | customer => true
  | admin => false
  end.

(** [User.findById(id)]. *)
Definition findById (i : nat) (db : list t) : option t :=
  List.find (fun a => Nat.eqb (id a) i) db.

(** The paths an update document sets.  For [phone] and [avatar],
    [Some None] is an explicit [null]. *)
Record Update := {
  set_name : option string;
  set_email : option string;
  set_phone : option (option string);
  set_avatar : option (option string);
  set_purchasedItems : option Z;
  set_rewardPoints : option Z;
  set_isActive : option bool
}.

(** The validators of the paths that are set, run on the values the
    setters ([trim], [lowercase]) produce. *)
Definition validators_pass (u : Update) : bool :=
  (match set_name u with
   | Some n => negb (String.eqb (trim n) "")
               && Nat.leb (String.length (trim n)) 100
   | None => true
   end
   && match set_email u with
      | Some e => negb (String.eqb (trim (toLowerCase e)) "")
                  && emailMatch (trim (toLowerCase e))
      | None => true
      end
   && match set_purchasedItems u with
      | Some z => 0 <=? z
      | None => true
      end
   && match set_rewardPoints u with
      | Some z => 0 <=? z
      | None => true
      end)%bool.

(** The unique index on [email]: another document holds the address. *)
Definition email_taken (i : nat) (u : Update) (db : list t) : bool :=
  match set_email u with
  | Some e =>
      List.existsb
        (fun a => (negb (Nat.eqb (id a) i)
                   && String.eqb (email (user a)) (trim (toLowerCase e)))%bool)
        db
  | None => false
  end.

Definition apply_update (u : Update) (a : t) : t :=
  mk (mkUser (_id (user a))
        (match set_name u with Some n => trim n | None => name (user a) end)
        (match set_email u with
         | Some e => trim (toLowerCase e)
         | None => email (user a)
         end)
        (match set_phone u with
         | Some p => option_map trim p
         | None => phone (user a)
         end)
        (role (user a)))
     (match set_avatar u with Some v => v | None => avatar a end)
     (match set_purchasedItems u with Some z => z | None => purchasedItems a end)
     (match set_rewardPoints u with Some z => z | None => rewardPoints a end)
     (match set_isActive u with Some v => v | None => isActive a end).

Fixpoint replace (i : nat) (new : t) (db : list t) : list t :=
  match db with
  | [] => []
  | a :: rest =>
      if Nat.eqb (id a) i then new :: rest else a :: replace i new rest
  end.

(** [User.findByIdAndUpdate(id, update, { new: true, runValidators: true })].
    [None] is a thrown error; [Some (None, _)] is the [null] returned when
    no document has the id. *)
Definition findByIdAndUpdate (i : nat) (u : Update) (db : list t)
  : option (option t * list t) :=
  if validators_pass u then
    match findById i db with
    | None => Some (None, db)
    | Some old =>
        if email_taken i u db then None
        else Some (Some (apply_update u old), replace i (apply_update u old) db)
    end
  else None.

(** [User.findByIdAndDelete(id)]. *)
Fixpoint findByIdAndDelete (i : nat) (db : list t) : list t :=
  match db with
  | [] => []
  | a :: rest =>
      if Nat.eqb (id a) i then rest else a :: findByIdAndDelete i rest
  end.

Inductive Reason :=
| CustomerNotFound
| UpdateFailed
| NotAuthenticated
| SessionUserMissing
| UserNotFound.

Definition http_status (r : Reason) : Z :=
  match r with
  | CustomerNotFound => 404
  | UpdateFailed => 400
  | NotAuthenticated => 401
  | SessionUserMissing => 401
  | UserNotFound => 404
  end.

(** [getCustomerById]. *)
Definition getCustomerById (db : list t) (i : nat) : Response Reason t :=
  match findById i db with
  | Some a => if is_customer a then Success 200 a else Failure CustomerNotFound
  | None => Failure CustomerNotFound
  end.

(** The body of an [updateCustomer] request. *)
Record CustomerBody := {
  c_name : option string;
  c_email : option string;
  c_phone : option (option string);
  c_avatar : option (option string);
  c_purchasedItems : option Z;
  c_rewardPoints : option Z;
  c_isActive : option bool
}.

(** [if (x) update.x = x]. *)
Definition if_truthy (o : option string) : option string :=
  if truthy o then o else None.

(** [updateCustomer]. *)
Definition updateCustomer (db : list t) (i : nat) (b : CustomerBody)
  : Response Reason (option t) * list t :=
  match findById i db with
  | None => (Failure CustomerNotFound, db)
  | Some a =>
      if is_customer a then
        match findByIdAndUpdate i
                {| set_name := if_truthy (c_name b);
                   set_email := if_truthy (c_email b);
                   set_phone := c_phone b;
                   set_avatar := c_avatar b;
                   set_purchasedItems := c_purchasedItems b;
                   set_rewardPoints := c_rewardPoints b;
                   set_isActive := c_isActive b |} db with
        | Some (updated, db') => (Success 200 updated, db')
        | None => (Failure UpdateFailed, db)
        end
      else (Failure CustomerNotFound, db)
  end.

(** [deleteCustomer]. *)
Definition deleteCustomer (db : list t) (i : nat)
  : Response Reason unit * list t :=
  match findById i db with
  | None => (Failure CustomerNotFound, db)
  | Some _ => (Success 200 tt, findByIdAndDelete i db)
  end.

(** [getMe]: the session is [None] when it holds no [userId]; it is
    destroyed when its user is gone. *)
Definition getMe (s : option Session) (db : list t)
  : Response Reason (t * Session) * option Session :=
  match s with
  | None => (Failure NotAuthenticated, None)
  | Some ses =>
      match findById (session_userId ses) db with
      | None => (Failure SessionUserMissing, None)
      | Some a => (Success 200 (a, ses), Some ses)
      end
  end.

(** The body of an [updateProfile] request. *)
Record ProfileBody := {
  p_name : option string;
  p_phone : option (option string);
  p_avatar : option (option string)
}.

(** [updateProfile]. *)
Definition updateProfile (s : option Session) (db : list t) (b : ProfileBody)
  : Response Reason t * list t * option Session :=
  match s with
  | None => (Failure NotAuthenticated, db, None)
  | Some ses =>
      match findByIdAndUpdate (session_userId ses)
              {| set_name := if_truthy (p_name b);
                 set_email := None;
                 set_phone := p_phone b;
                 set_avatar := p_avatar b;
                 set_purchasedItems := None;
                 set_rewardPoints := None;
                 set_isActive := None |} db with
      | None => (Failure UpdateFailed, db, Some ses)
      | Some (None, _) => (Failure UserNotFound, db, Some ses)
      | Some (Some a, db') =>
          (Success 200 a, db',
           Some (if truthy (p_name b)
                 then mkSession (session_userId ses) (session_userRole ses)
                                (session_userEmail ses) (name (user a))
                 else ses))
      end
  end.

(** [deleteSelfAccount], for a session that holds a [userId]. *)
Definition deleteSelfAccount (ses : Session) (db : list t)
  : Response Reason unit * list t * option Session :=
  match findById (session_userId ses) db with
  | None => (Failure UserNotFound, db, Some ses)
  | Some _ => (Success 200 tt, findByIdAndDelete (session_userId ses) db, None)
  end.

(** A collection as the unique indexes and the schema bounds keep it. *)
Definition well_formed (db : list t) : Prop :=
  NoDup (List.map id db)
  /\ NoDup (List.map (fun a => email (user a)) db)
  /\ Forall (fun a => 0 <= purchasedItems a /\ 0 <= rewardPoints a
                      /\ (String.length (name (user a)) <= 100)%nat) db.

(** The session repeats the stored fields of its user. *)
Definition in_sync (ses : Session) (db : list t) : Prop :=
  exists a, findById (session_userId ses) db = Some a
            /\ session_userRole ses = role (user a)
            /\ session_userEmail ses = email (user a)
            /\ session_userName ses = name (user a).

End Account.

(** * Properties *)

(** ** Date arithmetic *)

Section JSFacts.
Import JSString JS JSRegExp.

Lemma string_of_uint_digits (d : Decimal.uint) :
  all_chars is_digit (NilEmpty.string_of_uint d) = true.
Proof. induction d; simpl; auto. Qed.

Lemma digits_value_acc (d : Decimal.uint) (acc : positive) :
  digits_value 10 (NilEmpty.string_of_uint d) (Z.pos acc)
  = Z.pos (Pos.of_uint_acc d acc).
Proof.
  revert acc. induction d; intros acc; simpl; [reflexivity | ..];
    match goal with
    | |- context [digit_of ?c] =>
        let v := eval vm_compute in (digit_of c) in
        change (digit_of c) with v
    end;
    rewrite <- IHd; f_equal; lia.
Qed.

Lemma digits_value_of_uint (d : Decimal.uint) :
  digits_value 10 (NilEmpty.string_of_uint d) 0 = Z.of_N (Pos.of_uint d).
Proof.
  induction d; simpl; [reflexivity | exact IHd | ..];
    match goal with
    | |- context [digit_of ?c] =>
        let v := eval vm_compute in (digit_of c) in
        change (digit_of c) with v
    end;
    simpl; apply digits_value_acc.
Qed.

Lemma digits_value_digits (p : positive) :
  digits_value 10 (digits p) 0 = Z.pos p.
Proof.
  unfold digits. now rewrite digits_value_of_uint, Unsigned.of_to.
Qed.

Lemma digits_all_digits (p : positive) : all_chars is_digit (digits p) = true.
Proof. apply string_of_uint_digits. Qed.

Lemma digits_nonempty (p : positive) : digits p <> EmptyString.
Proof.
  unfold digits. pose proof (Unsigned.to_uint_nonnil p) as H.
  destruct (Pos.to_uint p); [contradiction | ..]; discriminate.
Qed.

Lemma is_digit_in_radix (c : ascii) : is_digit c = true -> in_radix 10 c = true.
Proof.
  intros H. unfold in_radix, digit_of. rewrite H. simpl.
  unfold is_digit in H. apply andb_true_iff in H as [H1 H2].
  apply Nat.leb_le in H1, H2. apply Z.ltb_lt. lia.
Qed.

Lemma span_all (p : ascii -> bool) (s : string) :
  all_chars p s = true -> span p s = (s, EmptyString).
Proof.
  induction s as [| c r IH]; simpl; [reflexivity |].
  intros H. apply andb_true_iff in H as [-> H]. now rewrite (IH H).
Qed.

Lemma all_chars_weaken (p q : ascii -> bool) (s : string) :
  (forall c, p c = true -> q c = true) ->
  all_chars p s = true -> all_chars q s = true.
Proof.
  intros Hpq. induction s as [| c r IH]; simpl; [reflexivity |].
  intros H. apply andb_true_iff in H as [H1 H2].
  now rewrite (Hpq c H1), (IH H2).
Qed.

(** [parseInt] reads a non-empty string of decimal digits, with or
    without a minus sign before it, as the number it writes. *)
Lemma parseInt_string_digits (neg : bool) (s : string) :
  s <> EmptyString -> all_chars is_digit s = true ->
  parseInt_string (if neg then String "-" s else s)
  = Some (if neg then - digits_value 10 s 0 else digits_value 10 s 0).
Proof.
  intros Hne Hd. destruct s as [| c r]; [contradiction |].
  pose proof (span_all (in_radix 10) (String c r)
                (all_chars_weaken _ _ _ is_digit_in_radix Hd)) as Hspan.
  simpl in Hd. apply andb_true_iff in Hd as [Hc Hr].
  assert (parseInt_string (if neg then String "-" (String c r) else String c r)
          = match fst (span (in_radix 10) (String c r)) with
            | EmptyString => None
            | ds => let n := digits_value 10 ds 0 in
                    Some (if neg then - n else n)
            end) as ->.
  { destruct r as [| c2 r2].
    - destruct neg, c as [[] [] [] [] [] [] [] []]; try discriminate Hc;
        reflexivity.
    - simpl in Hr. apply andb_true_iff in Hr as [Hc2 _].
      destruct neg, c as [[] [] [] [] [] [] [] []]; try discriminate Hc;
        try reflexivity;
        destruct c2 as [[] [] [] [] [] [] [] []]; try discriminate Hc2;
        reflexivity. }
  rewrite Hspan. reflexivity.
Qed.

Lemma NumberToString_pos (p : positive) :
  Z.pos p < 10 ^ 21 -> NumberToString (Fin (Z.pos p) 0) = digits p.
Proof.
  intros H. unfold NumberToString, positive_to_string.
  change (normalize (Z.to_nat (- 0)) (Z.pos p) 0) with (Z.pos p, 0).
  cbv beta iota. change (0 <=? 0) with true. cbv iota.
  replace (Z.pos p * 10 ^ 0) with (Z.pos p) by (rewrite Z.pow_0_r; lia).
  destruct (Z.ltb_spec (Z.pos p) (10 ^ 21)); [reflexivity | lia].
Qed.

(** [parseInt] of an integer below [10^21] in magnitude is the
    integer. *)
Lemma parseInt_int_id (n : Z) :
  Z.abs n < 10 ^ 21 -> parseInt_int n = Some n.
Proof.
  intros H. unfold parseInt_int. destruct n as [| p | p].
  - reflexivity.
  - rewrite NumberToString_pos by exact H.
    rewrite (parseInt_string_digits false);
      [| apply digits_nonempty | apply digits_all_digits].
    now rewrite digits_value_digits.
  - assert (Z.pos p < 10 ^ 21) as Hp by exact H.
    change (NumberToString (Fin (Z.neg p) 0))
      with (String "-" (NumberToString (Fin (Z.pos p) 0))).
    rewrite NumberToString_pos by exact Hp.
    rewrite (parseInt_string_digits true);
      [| apply digits_nonempty | apply digits_all_digits].
    now rewrite digits_value_digits.
Qed.

Lemma parseInt_VNum_int (n : Z) :
  Z.abs n < 10 ^ 21 -> parseInt (VNum (Fin n 0)) = Some (Some n).
Proof.
  intros H. unfold parseInt. simpl ToString. simpl option_map.
  f_equal. now apply parseInt_int_id.
Qed.

Lemma lt_int (a b : Z) : lt (Fin a 0) (Fin b 0) = (a <? b).
Proof.
  unfold lt. change (0 <=? 0) with true. cbv iota.
  now rewrite Z.sub_diag, Z.pow_0_r, Z.mul_1_r.
Qed.

End JSFacts.

Section StringFacts.

Lemma append_nil_l (s : string) : EmptyString +:+ s = s.
Proof. reflexivity. Qed.

Lemma append_cons (c : ascii) (a b : string) :
  String c a +:+ b = String c (a +:+ b).
Proof. reflexivity. Qed.

Lemma append_nil_r (s : string) : s +:+ EmptyString = s.
Proof.
  induction s as [|c s IH]; [reflexivity | now rewrite append_cons, IH].
Qed.

Lemma append_assoc (a b c : string) : (a +:+ b) +:+ c = a +:+ (b +:+ c).
Proof.
  induction a as [|x a IH]; [reflexivity | now rewrite !append_cons, IH].
Qed.

Lemma append_eq_nil (a b : string) :
  a +:+ b = EmptyString -> a = EmptyString /\ b = EmptyString.
Proof.
  destruct a; [rewrite append_nil_l; auto | rewrite append_cons; discriminate].
Qed.

End StringFacts.

Section TrimFacts.
Import JSString JSRegExp.

Lemma rev_chars_app (s acc : string) :
  rev_chars s acc = rev_chars s EmptyString +:+ acc.
Proof.
  revert acc. induction s as [|c s IH]; intros acc; simpl; [reflexivity |].
  rewrite (IH (String c acc)), (IH (String c EmptyString)).
  now rewrite append_assoc.
Qed.

Lemma rev_chars_rev_chars (s acc acc' : string) :
  rev_chars (rev_chars s acc) acc' = rev_chars acc (s +:+ acc').
Proof.
  revert acc. induction s as [|c s IH]; intros acc; simpl; [reflexivity |].
  now rewrite IH.
Qed.

Lemma rev_chars_involutive (s : string) :
  rev_chars (rev_chars s EmptyString) EmptyString = s.
Proof. rewrite rev_chars_rev_chars. simpl. apply append_nil_r. Qed.

Lemma all_chars_rev (p : ascii -> bool) (s acc : string) :
  all_chars p (rev_chars s acc) = (all_chars p s && all_chars p acc)%bool.
Proof.
  revert acc. induction s as [|c s IH]; intros acc; simpl; [reflexivity |].
  rewrite IH. simpl. destruct (p c), (all_chars p s); reflexivity.
Qed.

Lemma trimStart_clean (s : string) : starts_clean (trimStart s) = true.
Proof.
  induction s as [|c s IH]; simpl; [reflexivity |].
  destruct (is_space c) eqn:Hc; [exact IH |]. simpl. now rewrite Hc.
Qed.

Lemma trimStart_id (s : string) : starts_clean s = true -> trimStart s = s.
Proof.
  destruct s as [|c s]; simpl; [reflexivity |].
  intros H. apply negb_true_iff in H. now rewrite H.
Qed.

Lemma starts_clean_prefix (a b : string) :
  starts_clean (a +:+ b) = true -> starts_clean a = true.
Proof. destruct a; [reflexivity | rewrite append_cons; auto]. Qed.

Lemma trimStart_keeps_end (x : string) :
  starts_clean (rev_chars x EmptyString) = true ->
  starts_clean (rev_chars (trimStart x) EmptyString) = true.
Proof.
  induction x as [|c x IH]; [reflexivity |]. intros H.
  change (trimStart (String c x))
    with (if is_space c then trimStart x else String c x).
  destruct (is_space c); [| exact H].
  apply IH. simpl in H. rewrite rev_chars_app in H.
  now apply starts_clean_prefix in H.
Qed.

Lemma trim_id (x : string) :
  starts_clean x = true -> starts_clean (rev_chars x EmptyString) = true ->
  trim x = x.
Proof.
  intros H1 H2. unfold trim.
  rewrite (trimStart_id x H1), (trimStart_id _ H2).
  apply rev_chars_involutive.
Qed.

Lemma trim_ends (s : string) :
  starts_clean (trim s) = true
  /\ starts_clean (rev_chars (trim s) EmptyString) = true.
Proof.
  unfold trim. rewrite rev_chars_involutive. split.
  - apply trimStart_keeps_end. rewrite rev_chars_involutive.
    apply trimStart_clean.
  - apply trimStart_clean.
Qed.

Lemma trim_idem (s : string) : trim (trim s) = trim s.
Proof. destruct (trim_ends s). now apply trim_id. Qed.

Lemma all_clean (s : string) :
  all_chars (fun c => negb (is_space c)) s = true -> starts_clean s = true.
Proof.
  destruct s as [|c s]; simpl; [reflexivity |].
  intros H. now apply andb_true_iff in H as [H _].
Qed.

Lemma trim_no_space (s : string) :
  all_chars (fun c => negb (is_space c)) s = true -> trim s = s.
Proof.
  intros H. apply trim_id; [now apply all_clean |].
  apply all_clean. rewrite all_chars_rev, H. reflexivity.
Qed.





Lemma upper_char_idem (c : ascii) :
  upper_char (upper_char c) = upper_char c.
Proof.
  destruct c as [b0 b1 b2 b3 b4 b5 b6 b7].
  destruct b0, b1, b2, b3, b4, b5, b6, b7; reflexivity.
Qed.

Lemma toUpperCase_idem (s : string) :
  toUpperCase (toUpperCase s) = toUpperCase s.
Proof.
  unfold toUpperCase.
  induction s as [|c s IH]; simpl; [reflexivity |].
  now rewrite upper_char_idem, IH.
Qed.

Lemma upper_char_space (c : ascii) : is_space (upper_char c) = is_space c.
Proof. destruct c as [[] [] [] [] [] [] [] []]; reflexivity. Qed.

Lemma rev_chars_map (f : ascii -> ascii) (s acc : string) :
  rev_chars (map_chars f s) (map_chars f acc) = map_chars f (rev_chars s acc).
Proof.
  revert acc. induction s as [|c s IH]; intros acc; simpl; [reflexivity |].
  exact (IH (String c acc)).
Qed.

Lemma trimStart_map (f : ascii -> ascii) (s : string) :
  (forall c, is_space (f c) = is_space c) ->
  trimStart (map_chars f s) = map_chars f (trimStart s).
Proof.
  intros Hf. induction s as [|c s IH]; simpl; [reflexivity |].
  rewrite Hf. destruct (is_space c); [exact IH | reflexivity].
Qed.

(** A mapping of characters that keeps white space apart commutes with
    [trim]. *)
Lemma trim_map (f : ascii -> ascii) (s : string) :
  (forall c, is_space (f c) = is_space c) ->
  trim (map_chars f s) = map_chars f (trim s).
Proof.
  intros Hf. unfold trim.
  rewrite (trimStart_map f s Hf).
  rewrite (rev_chars_map f _ EmptyString).
  rewrite (trimStart_map f _ Hf).
  exact (rev_chars_map f _ EmptyString).
Qed.

Lemma trim_toUpperCase (s : string) :
  trim (toUpperCase s) = toUpperCase (trim s).
Proof. apply trim_map, upper_char_space. Qed.

(** The setters of an upper-cased, trimmed path change nothing in a
    value they have produced. *)
Lemma upper_trim_idem (s : string) :
  toUpperCase (trim (toUpperCase (trim s))) = toUpperCase (trim s).
Proof.
  now rewrite (trim_toUpperCase (trim s)), trim_idem, toUpperCase_idem.
Qed.

End TrimFacts.

Section QuantityFacts.
Import JSString JS JSRegExp.

Lemma digit_not_space (c : ascii) : is_digit c = true -> is_space c = false.
Proof.
  destruct c as [[] [] [] [] [] [] [] []]; try discriminate; reflexivity.
Qed.

(** A string of decimal digits converts to the number it writes. *)
Lemma StringToNumber_digits (s : string) :
  s <> EmptyString -> all_chars is_digit s = true ->
  StringToNumber s = Fin (digits_value 10 s 0) 0.
Proof.
  intros Hne Hd. unfold StringToNumber.
  rewrite trim_no_space.
  2:{ revert Hd. apply all_chars_weaken. intros c Hc.
      now rewrite (digit_not_space c Hc). }
  destruct s as [| c r] eqn:Hs; [contradiction |]. rewrite <- Hs in *.
  assert (nondecimal s = None) as ->.
  { subst s. simpl in Hd. apply andb_true_iff in Hd as [Hc Hr].
    destruct c as [[] [] [] [] [] [] [] []]; try discriminate Hc;
      try reflexivity.
    destruct r as [| c2 [| c3 r3]]; try reflexivity.
    simpl in Hr. apply andb_true_iff in Hr as [Hc2 Hr].
    apply andb_true_iff in Hr as [Hc3 _].
    assert (in_radix 0 c3 = false) as Hout.
    { unfold in_radix, digit_of. rewrite Hc3. simpl.
      unfold is_digit in Hc3. apply andb_true_iff in Hc3 as [H1 _].
      apply Nat.leb_le in H1. apply Z.ltb_ge. lia. }
    destruct c2 as [[] [] [] [] [] [] [] []]; try discriminate Hc2;
      unfold nondecimal; cbn [Ascii.eqb Bool.eqb orb andb];
      cbn [span]; rewrite Hout; reflexivity. }
  unfold decimal.
  assert (sign_of s = (false, s)) as ->.
  { subst s. simpl in Hd. apply andb_true_iff in Hd as [Hc _].
    destruct c as [[] [] [] [] [] [] [] []]; try discriminate Hc; reflexivity. }
  assert (String.eqb s "Infinity" = false) as ->.
  { subst s. simpl in Hd. apply andb_true_iff in Hd as [Hc _].
    destruct c as [[] [] [] [] [] [] [] []]; try discriminate Hc; reflexivity. }
  rewrite (span_all is_digit s Hd).
  change (span is_digit EmptyString) with (EmptyString, EmptyString).
  cbv iota beta. rewrite append_nil_r.
  subst s. cbn [exponent_part String.length Z.of_nat]. reflexivity.
Qed.

(** The quantities that read as one integer both ways: an integer
    below [10^21] given as a number, and a string of decimal digits. *)
Lemma plain_number (n : Z) :
  Z.abs n < 10 ^ 21 ->
  ToNumber (VNum (Fin n 0)) = Some (Fin n 0)
  /\ parseInt (VNum (Fin n 0)) = Some (Some n).
Proof. intros Hn. split; [reflexivity | now apply parseInt_VNum_int]. Qed.

Lemma plain_digits (s : string) :
  s <> EmptyString -> all_chars is_digit s = true ->
  ToNumber (VStr s) = Some (Fin (digits_value 10 s 0) 0)
  /\ parseInt (VStr s) = Some (Some (digits_value 10 s 0)).
Proof.
  intros Hne Hd. split.
  - simpl. now rewrite StringToNumber_digits.
  - unfold parseInt. simpl. f_equal.
    exact (parseInt_string_digits false s Hne Hd).
Qed.

End QuantityFacts.

Section DateFacts.
Import JSDate.

Lemma MonthFromTime_range (t : Z) : 0 <= MonthFromTime t <= 11.
Proof.
  unfold MonthFromTime.
  repeat match goal with
         | |- context [if ?b then _ else _] => destruct b
         end; lia.
Qed.

Lemma MakeDay_shift (t n : Z) :
  MakeDay (YearFromTime t) (MonthFromTime t) (DateFromTime t + n) = Day t + n.
Proof.
  pose proof (MonthFromTime_range t) as Hm.
  unfold MakeDay, DateFromTime, DayWithinYear, InLeapYear.
  rewrite (Z.div_small (MonthFromTime t) 12) by lia.
  rewrite (Z.mod_small (MonthFromTime t) 12) by lia.
  rewrite Z.add_0_r. lia.
Qed.

Lemma MakeDate_Day (t n : Z) :
  MakeDate (Day t + n) (TimeWithinDay t) = t + n * msPerDay.
Proof.
  unfold MakeDate, Day, TimeWithinDay.
  pose proof (Z.div_mod t msPerDay) as H.
  assert (msPerDay <> 0) as Hne by (unfold msPerDay; lia).
  specialize (H Hne). lia.
Qed.

(** [setDate] moves the local reading of the date by whole days and
    turns the new reading back into an instant. *)
Lemma addDays_plusDays (tz : Zone) (start days : Z) :
  addDays tz start days = TimeClip (plusDays tz start days).
Proof.
  unfold addDays, setDate, getDate, plusDays.
  now rewrite MakeDay_shift, MakeDate_Day.
Qed.

Lemma plusDays_fixed (tza start days : Z) :
  plusDays (fixed tza) start days = start + days * msPerDay.
Proof. unfold plusDays, UTC, LocalTime, fixed. simpl. lia. Qed.

Lemma TimeClip_Some (t u : Z) : TimeClip t = Some u -> u = t.
Proof.
  unfold TimeClip. destruct (Z.abs t <=? maxTime); congruence.
Qed.

Lemma TimeClip_range (t u : Z) : TimeClip t = Some u -> Z.abs u <= maxTime.
Proof.
  unfold TimeClip. destruct (Z.leb_spec (Z.abs t) maxTime); [| discriminate].
  now intros [= <-].
Qed.

Lemma TimeClip_in_range (t : Z) : Z.abs t <= maxTime -> TimeClip t = Some t.
Proof.
  intros H. unfold TimeClip.
  destruct (Z.leb_spec (Z.abs t) maxTime); [reflexivity | lia].
Qed.

Lemma TimeClip_out_of_range (t : Z) : maxTime < Z.abs t -> TimeClip t = None.
Proof.
  intros H. unfold TimeClip.
  destruct (Z.leb_spec (Z.abs t) maxTime); [lia | reflexivity].
Qed.

Lemma addDays_Some_plusDays (tz : Zone) (start days e : Z) :
  addDays tz start days = Some e ->
  e = plusDays tz start days /\ Z.abs e <= maxTime.
Proof.
  rewrite addDays_plusDays. intros H. split.
  - now apply TimeClip_Some.
  - now apply TimeClip_range in H.
Qed.

(** In calendar terms: the day number of a reading moved by [days] days
    is [days] further and its time of day is kept. *)
Lemma shift_calendar (reading days : Z) :
  Day (reading + days * msPerDay) = Day reading + days
  /\ TimeWithinDay (reading + days * msPerDay) = TimeWithinDay reading.
Proof.
  unfold Day, TimeWithinDay.
  assert (msPerDay <> 0) as Hne by (unfold msPerDay; lia).
  split.
  - apply Z.div_add; assumption.
  - apply Z.mod_add; assumption.
Qed.

End DateFacts.

Section CalendarFacts.
Import JSDate.

(** The day numbers of two successive years differ by the length of the
    year. *)
Lemma DaysInYear (y : Z) :
  DayFromYear (y + 1) - DayFromYear y = if isLeapYear y then 366 else 365.
Proof.
  unfold DayFromYear, isLeapYear.
  destruct (Z.eqb_spec (y mod 4) 0), (Z.eqb_spec (y mod 100) 0),
    (Z.eqb_spec (y mod 400) 0); simpl; Z.div_mod_to_equations; lia.
Qed.

Lemma DayFromYear_step (y : Z) :
  365 <= DayFromYear (y + 1) - DayFromYear y <= 366.
Proof. rewrite DaysInYear. destruct (isLeapYear y); lia. Qed.

Lemma DayFromYear_mono (y y' : Z) :
  y <= y' -> DayFromYear y + 365 * (y' - y) <= DayFromYear y'.
Proof. intros H. unfold DayFromYear. Z.div_mod_to_equations. lia. Qed.

(** [YearFromDay] meets its specification: the year that contains the
    day. *)
Lemma YearFromDay_spec (d : Z) :
  DayFromYear (YearFromDay d) <= d < DayFromYear (YearFromDay d + 1).
Proof.
  unfold YearFromDay.
  set (y0 := 1970 + d * 10000 / 3652425).
  assert (DayFromYear (y0 - 1) <= d < DayFromYear (y0 + 2)) as H.
  { subst y0. unfold DayFromYear. Z.div_mod_to_equations. lia. }
  destruct (Z.ltb_spec d (DayFromYear y0)).
  - replace (y0 - 1 + 1) with y0 by lia. lia.
  - destruct (Z.leb_spec (DayFromYear (y0 + 1)) d).
    + replace (y0 + 1 + 1) with (y0 + 2) by lia. lia.
    + lia.
Qed.

Lemma YearFromDay_unique (d y : Z) :
  DayFromYear y <= d < DayFromYear (y + 1) -> YearFromDay d = y.
Proof.
  intros Hy. pose proof (YearFromDay_spec d) as Hs.
  destruct (Z.lt_trichotomy (YearFromDay d) y) as [Hlt | [Heq | Hgt]].
  - pose proof (DayFromYear_mono (YearFromDay d + 1) y). lia.
  - assumption.
  - pose proof (DayFromYear_mono (y + 1) (YearFromDay d)). lia.
Qed.

Lemma MonthFromTime_0 (t : Z) : MonthFromTime t = 0 -> DayWithinYear t < 31.
Proof.
  unfold MonthFromTime.
  destruct (Z.ltb_spec (DayWithinYear t) 31); [lia |].
  repeat match goal with
         | |- context [if ?b then _ else _] => destruct b
         end; lia.
Qed.

(** The day after a 31 January is a 1 February, whatever the year. *)
Lemma day_after_Jan_31 (t : Z) :
  MonthFromTime t = 0 -> DateFromTime t = 31 ->
  MonthFromTime (t + msPerDay) = 1 /\ DateFromTime (t + msPerDay) = 1.
Proof.
  intros Hm Hd.
  assert (DayWithinYear t = 30) as H30.
  { unfold DateFromTime in Hd. rewrite Hm in Hd. simpl in Hd.
    destruct (InLeapYear t); simpl in Hd; lia. }
  assert (Day (t + msPerDay) = Day t + 1) as HD.
  { unfold Day. replace (t + msPerDay) with (t + 1 * msPerDay) by lia.
    apply Z.div_add. unfold msPerDay. lia. }
  assert (YearFromTime (t + msPerDay) = YearFromTime t) as HY.
  { unfold YearFromTime. rewrite HD. apply YearFromDay_unique.
    unfold DayWithinYear, YearFromTime in H30.
    pose proof (DayFromYear_step (YearFromDay (Day t))). lia. }
  assert (DayWithinYear (t + msPerDay) = 31) as H31.
  { unfold DayWithinYear in *. rewrite HY, HD. lia. }
  assert (MonthFromTime (t + msPerDay) = 1) as Hm1.
  { unfold MonthFromTime. rewrite H31. simpl.
    destruct (InLeapYear (t + msPerDay)); reflexivity. }
  split; [assumption |].
  unfold DateFromTime. rewrite Hm1, H31. simpl. reflexivity.
Qed.

End CalendarFacts.

(** ** Coupons *)

Section CouponFacts.
Import JSDate Coupon.

Lemma coupon_preSave_fields (tz : Zone) (c : t) :
  _id (preSave tz c) = _id c /\ code (preSave tz c) = code c
  /\ discount (preSave tz c) = discount c
  /\ startDate (preSave tz c) = startDate c
  /\ validityDays (preSave tz c) = validityDays c
  /\ status (preSave tz c) = status c
  /\ usageLimit (preSave tz c) = usageLimit c
  /\ usedCount (preSave tz c) = usedCount c.
Proof.
  unfold preSave. destruct (negb (validityDays c =? 0)); [| tauto].
  destruct (addDays tz (startDate c) (validityDays c)); simpl; tauto.
Qed.

(** The save hook: the end date is the start date moved on by the
    validity when that is a date, and is left alone when it is not. *)
Lemma preSave_endDate (tz : Zone) (c : t) :
  validityDays c <> 0 ->
  (Z.abs (plusDays tz (startDate c) (validityDays c)) <= maxTime ->
   preSave tz c = set_endDate (plusDays tz (startDate c) (validityDays c)) c)
  /\ (maxTime < Z.abs (plusDays tz (startDate c) (validityDays c)) ->
      preSave tz c = c).
Proof.
  intros Hd. unfold preSave.
  destruct (Z.eqb_spec (validityDays c) 0) as [|_]; [contradiction |].
  simpl. rewrite addDays_plusDays. split; intros H.
  - now rewrite TimeClip_in_range.
  - now rewrite TimeClip_out_of_range.
Qed.

Lemma validate_days (c : t) : validate c = true -> 1 <= validityDays c.
Proof.
  unfold validate. rewrite !andb_true_iff.
  intros [[[_ H] _] _]. now apply Z.leb_le in H.
Qed.

(** What [createCoupon] hands to [Coupon.create] when it succeeds. *)
Lemma createCoupon_created (tz : Zone) (now : Z) (db db' : list t)
      (b : CreateBody) (st : Z) (c : t) :
  createCoupon tz now db b = (Success st c, db') ->
  exists doc,
    create tz db doc = Some (c, db')
    /\ addDays tz (startDate doc) (validityDays doc) = Some (endDate doc)
    /\ usedCount doc = 0
    /\ st = 201
    /\ (exists k, b_code b = Some k /\ code doc = JSString.toUpperCase k)
    /\ findOne (code doc) db = None.
Proof.
  unfold createCoupon.
  destruct (b_code b) as [k|]; [| discriminate].
  destruct (b_discount b) as [dn|]; [| discriminate].
  destruct (b_validityDays b) as [n|]; [| discriminate].
  destruct (String.eqb k ""); [discriminate |].
  destruct ((dn <? 0) || (100 <? dn))%bool; [discriminate |].
  destruct (JS.parseInt_int n) as [d|];
    [destruct (d <? 1); [discriminate |] |];
    (destruct (findOne (JSString.toUpperCase k) db) eqn:Hfree; [discriminate |]);
    (destruct (if truthy_num (b_startDate b) then _ else _) as [start|];
       [| discriminate]); [| discriminate].
  destruct (if JSString.truthy (b_status b) then _ else _) as [s|];
    [| discriminate].
  destruct (if truthy_num (b_usageLimit b) then _ else _) as [limit|];
    [| discriminate].
  destruct (addDays tz start d) as [e|] eqn:He; [| discriminate].
  match goal with
  | |- context [create tz db ?doc] =>
      destruct (create tz db doc) as [[saved db1]|] eqn:Hc; [| discriminate]
  end.
  intros [= <- <- <-]. eexists. split; [exact Hc |]. simpl.
  repeat split; auto. exists k. auto.
Qed.

(** A failed [createCoupon] leaves the collection as it was. *)
Lemma createCoupon_failure (tz : Zone) (now : Z) (db db' : list t)
      (b : CreateBody) (r : Reason) :
  createCoupon tz now db b = (Failure r, db') -> db' = db.
Proof.
  unfold createCoupon.
  repeat match goal with
         | |- (_, _) = (_, _) -> _ => now intros [= _ <-]
         | |- (let (_, _) := ?x in _) = _ -> _ => destruct x
         | |- (if ?x then _ else _) = _ -> _ => destruct x
         | |- match ?x with _ => _ end = _ -> _ => destruct x
         end.
Qed.

(** A document [Coupon.create] stores is the validated document after
    the save hook. *)
Lemma create_saved (tz : Zone) (db db' : list t) (doc c : t) :
  create tz db doc = Some (c, db') ->
  exists d, c = preSave tz d /\ validate d = true
            /\ startDate d = startDate doc
            /\ validityDays d = validityDays doc
            /\ endDate d = endDate doc
            /\ db' = db ++ [c].
Proof.
  unfold create.
  set (d := mk _ _ _ _ _ _ _ _ _).
  destruct (validate d) eqn:Hv; [| discriminate].
  destruct (code_taken _ db); [discriminate |].
  intros [= <- <-]. exists d. repeat split; assumption.
Qed.

Lemma preSave_validate (tz : Zone) (c : t) :
  validate (preSave tz c) = validate c.
Proof.
  destruct (coupon_preSave_fields tz c) as (_ & Hc & Hd & _ & Hn & _ & Hl & Hu).
  unfold validate. now rewrite Hc, Hd, Hn, Hl, Hu.
Qed.

Lemma create_endDate (tz : Zone) (db db' : list t) (doc c : t) :
  create tz db doc = Some (c, db') ->
  addDays tz (startDate doc) (validityDays doc) = Some (endDate doc) ->
  startDate c = startDate doc /\ validityDays c = validityDays doc
  /\ endDate c = plusDays tz (startDate c) (validityDays c)
  /\ Z.abs (endDate c) <= maxTime.
Proof.
  intros Hc Ha.
  apply create_saved in Hc as (d & -> & Hv & Hs & Hn & He & _).
  apply validate_days in Hv.
  apply addDays_Some_plusDays in Ha as [Ha Hr].
  destruct (coupon_preSave_fields tz d) as (_ & _ & _ & Hs' & Hn' & _).
  rewrite Hs', Hn', Hs, Hn.
  destruct (preSave_endDate tz d) as [Hin _]; [lia |].
  rewrite Hs, Hn, <- Ha in Hin. rewrite (Hin Hr). simpl.
  repeat split; auto.
Qed.

End CouponFacts.

(** C4.  The end date of a coupon is its start date moved on by
    [validityDays] calendar days of the host's local calendar
    ([JSDate.plusDays]): after a creation through [createCoupon], and
    after every save whose document has a start date and a (truthy)
    validity, provided that date is within the range of [Date]; a save
    for which it is not keeps the end date the document had.  Moving on
    by calendar days adds [validityDays] to the local day number and
    keeps the time of day, also across the end of a month (a start on
    31 January with one day of validity ends on 1 February); with a
    fixed offset it adds [validityDays] times 86400000 ms. *)
Theorem coupon_endDate_is_start_plus_validityDays (tz : JSDate.Zone) :
  (forall now db b st c db',
      Coupon.createCoupon tz now db b = (Success st c, db') ->
      Coupon.endDate c
      = JSDate.plusDays tz (Coupon.startDate c) (Coupon.validityDays c))
  /\ (forall c,
         Coupon.validityDays c <> 0 ->
         let target :=
           JSDate.plusDays tz (Coupon.startDate c) (Coupon.validityDays c) in
         Coupon.startDate (Coupon.preSave tz c) = Coupon.startDate c
         /\ Coupon.validityDays (Coupon.preSave tz c) = Coupon.validityDays c
         /\ (Z.abs target <= JSDate.maxTime ->
             Coupon.endDate (Coupon.preSave tz c) = target)
         /\ (JSDate.maxTime < Z.abs target -> Coupon.preSave tz c = c))
  /\ (forall start days,
         let reading := JSDate.LocalTime tz start in
         let target := reading + days * JSDate.msPerDay in
         JSDate.plusDays tz start days = JSDate.UTC tz target
         /\ JSDate.Day target = JSDate.Day reading + days
         /\ JSDate.TimeWithinDay target = JSDate.TimeWithinDay reading
         /\ (JSDate.MonthFromTime reading = 0 ->
             JSDate.DateFromTime reading = 31 -> days = 1 ->
             JSDate.MonthFromTime target = 1
             /\ JSDate.DateFromTime target = 1)
         /\ (JSDate.offsetAt tz (JSDate.UTC tz target)
             = JSDate.offsetOfLocal tz target ->
             JSDate.LocalTime tz (JSDate.plusDays tz start days) = target))
  /\ (forall tza start days,
         JSDate.plusDays (JSDate.fixed tza) start days
         = start + days * JSDate.msPerDay
         /\ JSDate.LocalTime (JSDate.fixed tza)
              (JSDate.plusDays (JSDate.fixed tza) start days)
            = JSDate.LocalTime (JSDate.fixed tza) start
              + days * JSDate.msPerDay).
Proof.
  split; [| split; [| split]].
  - intros now db b st c db' H.
    apply createCoupon_created in H as (doc & Hc & Ha & _).
    now apply (create_endDate tz db db' doc c Hc) in Ha as (_ & _ & He & _).
  - intros c Hd target.
    destruct (coupon_preSave_fields tz c) as (_ & _ & _ & Hs & Hn & _).
    destruct (preSave_endDate tz c Hd) as [Hin Hout].
    split; [exact Hs |]. split; [exact Hn |]. split.
    + intros Hr. now rewrite (Hin Hr).
    + exact Hout.
  - intros start days reading target.
    destruct (shift_calendar reading days) as [Hday Htime].
    split; [reflexivity |]. split; [exact Hday |]. split; [exact Htime |].
    split.
    + intros Hm Hdt ->. subst target. rewrite Z.mul_1_l.
      now apply day_after_Jan_31.
    + intros Hco. unfold JSDate.plusDays. fold reading. fold target.
      unfold JSDate.LocalTime at 1. unfold JSDate.UTC at 1.
      rewrite Hco. unfold JSDate.UTC. lia.
  - intros tza start days. rewrite plusDays_fixed.
    split; [reflexivity |]. unfold JSDate.LocalTime, JSDate.fixed. simpl. lia.
Qed.

Lemma coupon_endDate_witness :
  let body := {| Coupon.b_code := Some "save10";
                 Coupon.b_discount := Some 10;
                 Coupon.b_startDate := Some 1706695200000;
                 Coupon.b_validityDays := Some 1;
                 Coupon.b_status := None;
                 Coupon.b_usageLimit := None |} in
  let tz := JSDate.fixed 25200000 in
  exists c db',
    Coupon.createCoupon tz 1700000000000 [] body = (Success 201 c, db')
    /\ Coupon.endDate c
       = Coupon.startDate c + Coupon.validityDays c * JSDate.msPerDay
    /\ JSDate.getMonth tz (Coupon.startDate c) = 0
    /\ JSDate.getDate tz (Coupon.startDate c) = 31
    /\ JSDate.getMonth tz (Coupon.endDate c) = 1
    /\ JSDate.getDate tz (Coupon.endDate c) = 1.
Proof.
  intros body tz. eexists. eexists.
  match goal with
  | |- ?eq /\ _ => assert eq as H by (vm_compute; reflexivity)
  end.
  split; [exact H |].
  destruct (coupon_endDate_is_start_plus_validityDays tz) as (Hc & _ & _ & Hf).
  rewrite (Hc _ _ _ _ _ _ H).
  split; [exact (proj1 (Hf 25200000 _ _)) |].
  vm_compute. repeat split; reflexivity.
Defined.

(** C4, the claim as stated fails: a document the validators accept,
    whose start date moved on by its validity is beyond the range of
    [Date], is saved with the end date it came with. *)
Lemma coupon_endDate_out_of_range_counterexample :
  let c := Coupon.mk 0 "SAVE10" 10 0 200000000 5 Coupon.active None 0 in
  exists saved db',
    Coupon.create (JSDate.fixed 0) [] c = Some (saved, db')
    /\ Coupon.startDate saved = 0
    /\ Coupon.validityDays saved = 200000000
    /\ Coupon.endDate saved = 5
    /\ Coupon.endDate saved
       <> Coupon.startDate saved + Coupon.validityDays saved * JSDate.msPerDay.
Proof.
  intros c. eexists. eexists.
  split; [vm_compute; reflexivity |].
  vm_compute. repeat split; discriminate.
Qed.

Section EligibilityFacts.
Import Coupon.

Lemma status_eqb_eq (a b : Status) : status_eqb a b = true <-> a = b.
Proof. destruct a, b; simpl; split; congruence. Qed.

(** The usage-limit test of [isValid] and [getCouponByCode]. *)
Lemma limit_reached_iff (c : t) :
  (truthy_num (usageLimit c) && (default 0 (usageLimit c) <=? usedCount c))%bool
  = true
  <-> exists l, usageLimit c = Some l /\ l <> 0 /\ l <= usedCount c.
Proof.
  destruct (usageLimit c) as [l|]; simpl.
  - rewrite andb_true_iff, negb_true_iff, Z.eqb_neq, Z.leb_le.
    split.
    + intros [H1 H2]. exists l. auto.
    + intros (l' & [= <-] & H1 & H2). auto.
  - split; [discriminate | intros (l & H & _); discriminate].
Qed.

Lemma isValid_true_iff (now : Z) (c : t) :
  isValid now c = true
  <-> startDate c <= now <= endDate c
      /\ status c = active
      /\ ~ (exists l, usageLimit c = Some l /\ l <> 0 /\ l <= usedCount c).
Proof.
  unfold isValid. rewrite <- limit_reached_iff.
  destruct (Z.ltb_spec now (startDate c)); simpl.
  { split; [discriminate | lia]. }
  destruct (Z.ltb_spec (endDate c) now); simpl.
  { split; [discriminate | lia]. }
  destruct (status_eqb (status c) active) eqn:Hs; simpl.
  - apply status_eqb_eq in Hs.
    destruct (truthy_num (usageLimit c) && _)%bool; simpl.
    + split; [discriminate | intros (_ & _ & Hn); now contradiction Hn].
    + split; [intros _; repeat split; auto; discriminate | reflexivity].
  - split; [discriminate |].
    intros (_ & Ha & _). apply status_eqb_eq in Ha. congruence.
Qed.

End EligibilityFacts.

(** C3, as amended.  The eligibility check returns true exactly when
    [startDate <= now <= endDate] (both ends included), the status is
    active, and the usage limit is absent, or zero, or above the used
    count.  In particular, for a limit other than zero, a coupon whose
    used count equals the limit is not eligible, and one whose used count
    is the limit minus one is eligible, the other conditions holding. *)
Theorem isValid_iff_window_active_and_limit (now : Z) (c : Coupon.t) :
  (Coupon.isValid now c = true
   <-> Coupon.startDate c <= now <= Coupon.endDate c
       /\ Coupon.status c = Coupon.active
       /\ (Coupon.usageLimit c = None
           \/ Coupon.usageLimit c = Some 0
           \/ exists l, Coupon.usageLimit c = Some l /\ Coupon.usedCount c < l))
  /\ (forall l,
         l <> 0 -> Coupon.usageLimit c = Some l -> Coupon.usedCount c = l ->
         Coupon.isValid now c = false)
  /\ (forall l,
         l <> 0 -> Coupon.usageLimit c = Some l -> Coupon.usedCount c = l - 1 ->
         Coupon.startDate c <= now <= Coupon.endDate c ->
         Coupon.status c = Coupon.active ->
         Coupon.isValid now c = true).
Proof.
  split; [| split].
  - rewrite isValid_true_iff.
    split; intros (Hw & Hs & Hl); (split; [exact Hw |]); (split; [exact Hs |]).
    + destruct (Coupon.usageLimit c) as [l|]; [| now left].
      right. destruct (Z.eq_dec l 0) as [-> | Hne]; [now left |].
      right. exists l. split; [reflexivity |].
      destruct (Z.lt_ge_cases (Coupon.usedCount c) l) as [Hlt | Hge]; [assumption |].
      contradiction Hl. exists l. auto.
    + intros (l & Hl1 & Hl2 & Hl3).
      destruct Hl as [Hn | [Hz | (l' & Hl' & Hlt)]]; try congruence.
      assert (l' = l) by congruence. lia.
  - intros l Hne Hl Hu.
    destruct (Coupon.isValid now c) eqn:Hv; [| reflexivity].
    apply isValid_true_iff in Hv as (_ & _ & Hn).
    contradiction Hn. exists l. repeat split; auto. lia.
  - intros l Hne Hl Hu Hw Hs. apply isValid_true_iff.
    split; [exact Hw |]. split; [exact Hs |].
    intros (l' & Hl' & _ & Hge). assert (l' = l) by congruence. lia.
Qed.

Lemma isValid_iff_witness :
  let c := Coupon.mk 1 "SAVE10" 10 0 1 86400000 Coupon.active (Some 3) 2 in
  (3 <> 0 /\ Coupon.usageLimit c = Some 3 /\ Coupon.usedCount c = 3 - 1
   /\ Coupon.startDate c <= 5 <= Coupon.endDate c
   /\ Coupon.status c = Coupon.active)
  /\ Coupon.isValid 5 c = true.
Proof.
  intros c.
  assert (3 <> 0) as H0 by lia.
  assert (Coupon.startDate c <= 5 <= Coupon.endDate c) as Hw by (simpl; lia).
  split.
  - repeat split; try reflexivity; try lia; apply Hw.
  - apply (proj2 (proj2 (isValid_iff_window_active_and_limit 5 c)) 3 H0
             eq_refl eq_refl Hw eq_refl).
Defined.

(** C3 as stated fails for a usage limit of zero: the coupon below has
    [usedCount = usageLimit = 0], a limit that is present and not above
    the used count, and is eligible all the same. *)
Lemma isValid_zero_limit_counterexample :
  let c := Coupon.mk 1 "SAVE10" 10 0 1 86400000 Coupon.active (Some 0) 0 in
  ~ (Coupon.isValid 5 c = true
     <-> Coupon.startDate c <= 5 <= Coupon.endDate c
         /\ Coupon.status c = Coupon.active
         /\ (Coupon.usageLimit c = None
             \/ exists l, Coupon.usageLimit c = Some l /\ Coupon.usedCount c < l)).
Proof.
  intros c [H _].
  destruct (H eq_refl) as (_ & _ & [Hn | (l & Hl & Hlt)]).
  - discriminate Hn.
  - simpl in Hl, Hlt. injection Hl as <-. lia.
Qed.

(** C8.  A usage limit of exactly zero never disqualifies a coupon: the
    eligibility check answers as it does for an absent limit, so the
    coupon is eligible for any used count when the dates and the status
    allow it; the lookup by code never answers that the usage limit is
    reached and returns the coupon under the same conditions; and the
    remaining uses are reported as unlimited. *)
Theorem zero_usageLimit_is_unlimited (now : Z) (c : Coupon.t)
        (Hzero : Coupon.usageLimit c = Some 0) :
  Coupon.isValid now c = Coupon.isValid now (Coupon.set_usageLimit None c)
  /\ (forall n,
         Coupon.startDate c <= now <= Coupon.endDate c ->
         Coupon.status c = Coupon.active ->
         Coupon.isValid now (Coupon.set_usedCount n c) = true)
  /\ (forall db param,
         Coupon.findOne (JSString.toUpperCase param) db = Some c ->
         fst (Coupon.getCouponByCode now db param)
           <> Failure Coupon.UsageLimitReached
         /\ (Coupon.startDate c <= now <= Coupon.endDate c ->
             Coupon.status c = Coupon.active ->
             Coupon.getCouponByCode now db param = (Success 200 [c], db)))
  /\ Coupon.remainingUses c = None.
Proof.
  split; [| split; [| split]].
  - unfold Coupon.isValid. simpl. rewrite Hzero. reflexivity.
  - intros n Hw Hs. apply isValid_true_iff. simpl.
    split; [exact Hw |]. split; [exact Hs |].
    intros (l & Hl & Hne & _). congruence.
  - intros db param Hf. unfold Coupon.getCouponByCode. rewrite Hf, Hzero. simpl.
    split.
    + destruct (now <? Coupon.startDate c); [discriminate |].
      destruct (Coupon.endDate c <? now); [discriminate |].
      destruct (negb _); discriminate.
    + intros Hw Hs.
      destruct (Z.ltb_spec now (Coupon.startDate c)); [lia |].
      destruct (Z.ltb_spec (Coupon.endDate c) now); [lia |].
      rewrite Hs. reflexivity.
  - unfold Coupon.remainingUses. rewrite Hzero. reflexivity.
Qed.

Lemma zero_usageLimit_witness :
  let c := Coupon.mk 1 "FREE" 10 0 1 86400000 Coupon.active (Some 0) 7 in
  Coupon.usageLimit c = Some 0
  /\ Coupon.isValid 5 c = true
  /\ Coupon.getCouponByCode 5 [c] "free" = (Success 200 [c], [c]).
Proof.
  intros c.
  assert (Coupon.startDate c <= 5 <= Coupon.endDate c) as Hw by (simpl; lia).
  destruct (zero_usageLimit_is_unlimited 5 c eq_refl) as (_ & Hv & Hg & _).
  split; [reflexivity |]. split.
  - exact (Hv 7 Hw eq_refl).
  - exact (proj2 (Hg [c] "free"%string eq_refl) Hw eq_refl).
Defined.

(** ** Banners *)

(** C6.  When a banner is saved, the hook re-evaluates its status at
    the instant [now] of the save: a pending banner becomes active when
    [startDate <= now <= endDate]; an active banner becomes expired when
    [now > endDate]; an inactive banner is left as it is.  The hook
    writes no other field, and a banner is created through it. *)
Theorem banner_preSave_transitions (now : Z) (b : Banner.t) :
  (Banner.status b = Banner.pending ->
   Banner.startDate b <= now <= Banner.endDate b ->
   Banner.status (Banner.preSave now b) = Banner.active)
  /\ (Banner.status b = Banner.active ->
      Banner.endDate b < now ->
      Banner.status (Banner.preSave now b) = Banner.expired)
  /\ (Banner.status b = Banner.inactive -> Banner.preSave now b = b)
  /\ Banner.preSave now b
     = Banner.set_status (Banner.status (Banner.preSave now b)) b
  /\ (forall bs saved bs',
         Banner.create now bs b = Some (saved, bs') ->
         Banner.status saved = Banner.status (Banner.preSave now b)).
Proof.
  split; [| split; [| split; [| split]]].
  5: { intros bs saved bs'. unfold Banner.create.
       destruct (Banner.validate _); [| discriminate].
       intros [= <- _]. unfold Banner.preSave. simpl.
       destruct (_ && _ && _)%bool; simpl; destruct (_ && _)%bool;
         reflexivity. }
  all: unfold Banner.preSave;
    destruct b as [img d s e l st]; simpl;
    destruct (s <=? now) eqn:H1, (now <=? e) eqn:H2; destruct st; simpl;
    destruct (e <? now) eqn:H3; simpl; intros;
    try reflexivity; try discriminate;
    rewrite ?Z.leb_le, ?Z.leb_gt, ?Z.ltb_lt, ?Z.ltb_ge in *; lia.
Qed.

Lemma banner_preSave_witness :
  let b := Banner.mk "spring.png" 10 100 200 None Banner.pending in
  (Banner.status b = Banner.pending /\ Banner.startDate b <= 150 <= Banner.endDate b)
  /\ Banner.status (Banner.preSave 150 b) = Banner.active.
Proof.
  intros b.
  assert (Banner.startDate b <= 150 <= Banner.endDate b) as Hw by (simpl; lia).
  split; [split; [reflexivity | exact Hw] |].
  exact (proj1 (banner_preSave_transitions 150 b) eq_refl Hw).
Defined.

(** C6 as stated fails twice.  A pending banner saved after its window
    has closed has [now >= startDate] and stays pending.  And a write
    made by [updateBanner] re-evaluates nothing: an active banner whose
    end date has passed is written back active. *)
Lemma banner_reevaluation_counterexample :
  (let b := Banner.mk "spring.png" 10 100 200 None Banner.pending in
   Banner.status b = Banner.pending
   /\ Banner.startDate b <= 300
   /\ Banner.status (Banner.preSave 300 b) <> Banner.active)
  /\ (let b := Banner.mk "spring.png" 10 100 200 None Banner.active in
      let st := Banner.mkStore {[ 1%nat := b ]} ∅ in
      let u := {| Banner.u_days := None; Banner.u_startDate := None;
                  Banner.u_endDate := None;
                  Banner.u_link := Some "/sale"%string;
                  Banner.u_status := None; Banner.u_image := None |} in
      let written := Banner.mk "spring.png" 10 100 200 (Some "/sale"%string)
                               Banner.active in
      Banner.updateBanner (JSDate.fixed 0) st 1%nat u None
      = (Success 200 written, Banner.mkStore {[ 1%nat := written ]} ∅)
      /\ Banner.endDate written < 300
      /\ Banner.status written <> Banner.expired).
Proof.
  split.
  - intros b. repeat split; simpl; [lia | discriminate].
  - intros b st u written. split; [| split].
    + vm_compute. reflexivity.
    + simpl. lia.
    + discriminate.
Qed.

(** ** Stock reconciliation *)

Section StockFacts.
Import Order.

Lemma createOrder_products (now today : Z) (st : Store) (b : CreateBody)
      (ps : gmap nat Product.t) :
  rejected now today b = None ->
  match b_product b with
  | Some pid => reserve (products st) pid (b_quantity b)
  | None => inr (products st)
  end = inr ps ->
  products (snd (createOrder now today st b)) = ps.
Proof.
  intros Hok Hr. unfold createOrder. rewrite Hok, Hr.
  destruct (if JSString.truthy (b_status b) then _ else _) as [s|];
    [| reflexivity].
  destruct (JS.parseInt (b_quantity b)) as [[quantity|]|]; try reflexivity.
  match goal with
  | |- context [create today ?os ?d] => destruct (create today os d) as [[o os']|]
  end; reflexivity.
Qed.

(** The reservation step on a quantity that reads as the integer [q]
    both as a number and through [parseInt]. *)
Lemma reserve_plain (ps : gmap nat Product.t) (pid : nat) (quantity : JS.Value)
      (q : Z) :
  JS.ToNumber quantity = Some (JS.Fin q 0) ->
  JS.parseInt quantity = Some (Some q) ->
  reserve ps pid quantity
  = match ps !! pid with
    | None => inl ProductNotFound
    | Some p =>
        if Product.stock p <? q then inl (InsufficientStock (Product.stock p))
        else inr (<[pid := Product.mk (Product.stock p - q)
                             (if Product.stock p - q =? 0 then false
                              else Product.inStock p)
                             (Product.category p)]> ps)
    end.
Proof.
  intros Hnum Hparse. unfold reserve.
  destruct (ps !! pid) as [p|]; [| reflexivity].
  now rewrite Hnum, lt_int, Hparse.
Qed.


Lemma deleteOrder_products (st : Store) (id : nat) (o : t) :
  orders st !! id = Some o ->
  products (snd (deleteOrder st id))
  = match product o with
    | Some pid =>
        if (negb (status_eqb (status o) cancelled)
            && negb (status_eqb (status o) completed))%bool
        then release (products st) pid (quantity o)
        else products st
    | None => products st
    end.
Proof.
  intros Ho. unfold deleteOrder. rewrite Ho. simpl.
  destruct (product o) as [pid|]; [| reflexivity].
  destruct (negb _ && negb _)%bool; reflexivity.
Qed.

Lemma order_status_eqb_eq (a b : Status) : status_eqb a b = true <-> a = b.
Proof. destruct a, b; simpl; split; congruence. Qed.


End StockFacts.

(** C1.  The reservation step of order creation, for every product
    reference and every quantity a request body can hold.  A missing
    product is a not-found failure (404).  The stock is tested against
    the quantity as the body gives it, converted to a number: a stock
    below it is an insufficient-stock failure (400) that changes nothing.
    Otherwise the stock goes down by [parseInt] of the quantity, and
    [inStock] is written, to false, exactly when the new stock is 0.  For
    a quantity that reads as the same integer both ways, as an integer
    below [10^21] given as a number or a string of decimal digits does,
    the step is as specified: with stock 5 and two orders of 3 in a row,
    the first succeeds and leaves 2, the second fails for insufficient
    stock and leaves 2.  For other quantities the two readings differ: with the string 1,000
    against a stock of 5 the order is accepted and the stock is 4; with
    2.5 against a stock of 3 the stock is 1, and against a stock of 2 the
    request fails for insufficient stock.  A creation request that passes the
    field and date checks answers with the failure of the step and an
    unchanged store, or else leaves the products as the step left
    them. *)
Theorem createOrder_reserves_stock :
  (forall (ps : gmap nat Product.t) (pid : nat) (quantity : JS.Value),
      (ps !! pid = None ->
       Order.reserve ps pid quantity = inl Order.ProductNotFound)
      /\ (forall p q, ps !! pid = Some p ->
                      JS.ToNumber quantity = Some q ->
                      JS.lt (JS.Fin (Product.stock p) 0) q = true ->
                      Order.reserve ps pid quantity
                      = inl (Order.InsufficientStock (Product.stock p)))
      /\ (forall p q n, ps !! pid = Some p ->
                        JS.ToNumber quantity = Some q ->
                        JS.lt (JS.Fin (Product.stock p) 0) q = false ->
                        JS.parseInt quantity = Some (Some n) ->
                        Order.reserve ps pid quantity
                        = inr (<[pid := Product.mk
                                          (Product.stock p - n)
                                          (if Product.stock p - n =? 0 then false
                                           else Product.inStock p)
                                          (Product.category p)]> ps)))
  /\ (forall (ps : gmap nat Product.t) (pid : nat) (quantity : JS.Value)
             (q : Z),
         JS.ToNumber quantity = Some (JS.Fin q 0) ->
         JS.parseInt quantity = Some (Some q) ->
         (ps !! pid = None ->
          Order.reserve ps pid quantity = inl Order.ProductNotFound)
         /\ (forall p, ps !! pid = Some p -> Product.stock p < q ->
                       Order.reserve ps pid quantity
                       = inl (Order.InsufficientStock (Product.stock p)))
         /\ (forall p, ps !! pid = Some p -> q <= Product.stock p ->
                       Order.reserve ps pid quantity
                       = inr (<[pid := Product.mk
                                         (Product.stock p - q)
                                         (if Product.stock p - q =? 0 then false
                                          else Product.inStock p)
                                         (Product.category p)]> ps)))
  /\ (forall q, Z.abs q < 10 ^ 21 ->
                JS.ToNumber (JS.VNum (JS.Fin q 0)) = Some (JS.Fin q 0)
                /\ JS.parseInt (JS.VNum (JS.Fin q 0)) = Some (Some q))
  /\ (forall s, s <> EmptyString ->
                JSRegExp.all_chars JSString.is_digit s = true ->
                JS.ToNumber (JS.VStr s)
                = Some (JS.Fin (JS.digits_value 10 s 0) 0)
                /\ JS.parseInt (JS.VStr s)
                   = Some (Some (JS.digits_value 10 s 0)))
  /\ (forall now today st b pid,
         Order.b_product b = Some pid ->
         Order.rejected now today b = None ->
         match Order.reserve (Order.products st) pid (Order.b_quantity b) with
         | inl r => Order.createOrder now today st b = (Failure r, st)
         | inr ps => Order.products (snd (Order.createOrder now today st b)) = ps
         end)
  /\ Order.http_status Order.ProductNotFound = 404
  /\ (forall n, Order.http_status (Order.InsufficientStock n) = 400)
  /\ (let stock n := Order.mkStore {[ 7%nat := Product.mk n true 1%nat ]} ∅ in
      let body n q := {| Order.b_orderNumber := Some n;
                         Order.b_product := Some 7%nat;
                         Order.b_productName := Some "Lamp"%string;
                         Order.b_quantity := q;
                         Order.b_customerName := Some "Dara"%string;
                         Order.b_customerLocation := Some "Phnom Penh"%string;
                         Order.b_deliveryDate := None;
                         Order.b_status := None |} in
      let three := JS.VNum (JS.Fin 3 0) in
      let r1 := Order.createOrder 1000 0 (stock 5) (body "ord-1"%string three) in
      let r2 := Order.createOrder 2000 0 (snd r1) (body "ord-2"%string three) in
      let r3 := Order.createOrder 1000 0 (stock 5)
                  (body "ord-3"%string (JS.VStr "1,000")) in
      let r4 := Order.createOrder 1000 0 (stock 3)
                  (body "ord-4"%string (JS.VNum (JS.Fin 25 (-1)))) in
      let r5 := Order.createOrder 1000 0 (stock 2)
                  (body "ord-5"%string (JS.VNum (JS.Fin 25 (-1)))) in
      (succeeded (fst r1) = true
       /\ Order.products (snd r1) !! 7%nat = Some (Product.mk 2 true 1%nat)
       /\ fst r2 = Failure (Order.InsufficientStock 2)
       /\ Order.products (snd r2) !! 7%nat = Some (Product.mk 2 true 1%nat))
      /\ (succeeded (fst r3) = true
          /\ Order.products (snd r3) !! 7%nat = Some (Product.mk 4 true 1%nat))
      /\ (succeeded (fst r4) = true
          /\ Order.products (snd r4) !! 7%nat = Some (Product.mk 1 true 1%nat))
      /\ (fst r5 = Failure (Order.InsufficientStock 2)
          /\ Order.products (snd r5) !! 7%nat = Some (Product.mk 2 true 1%nat))).
Proof.
  split; [| split; [| split; [| split; [| split; [| split; [| split]]]]]].
  - intros ps pid quantity. unfold Order.reserve. repeat split.
    + intros ->. reflexivity.
    + intros p q -> -> ->. reflexivity.
    + intros p q n -> -> -> ->. reflexivity.
  - intros ps pid quantity q Hnum Hparse.
    rewrite (reserve_plain ps pid quantity q Hnum Hparse). repeat split.
    + intros ->. reflexivity.
    + intros p -> Hlt. destruct (Z.ltb_spec (Product.stock p) q); [reflexivity | lia].
    + intros p -> Hle. destruct (Z.ltb_spec (Product.stock p) q); [lia | reflexivity].
  - exact plain_number.
  - exact plain_digits.
  - intros now today st b pid Hp Hok.
    destruct (Order.reserve _ _ _) as [r | ps] eqn:Hr.
    + unfold Order.createOrder. rewrite Hok, Hp, Hr. reflexivity.
    + apply createOrder_products; [assumption |]. rewrite Hp. exact Hr.
  - reflexivity.
  - reflexivity.
  - vm_compute. repeat split; reflexivity.
Qed.

Lemma createOrder_reserves_stock_witness :
  let st0 := Order.mkStore {[ 7%nat := Product.mk 3 true 1%nat ]} ∅ in
  let b := {| Order.b_orderNumber := Some "ord-9"%string;
              Order.b_product := Some 7%nat;
              Order.b_productName := Some "Lamp"%string;
              Order.b_quantity := JS.VNum (JS.Fin 3 0);
              Order.b_customerName := Some "Dara"%string;
              Order.b_customerLocation := Some "Phnom Penh"%string;
              Order.b_deliveryDate := Some 5000;
              Order.b_status := None |} in
  (Order.b_product b = Some 7%nat /\ Order.rejected 1000 0 b = None)
  /\ Order.products (snd (Order.createOrder 1000 0 st0 b))
     = <[7%nat := Product.mk 0 false 1%nat]> (Order.products st0).
Proof.
  intros st0 b.
  split; [split; reflexivity |].
  exact (proj1 (proj2 (proj2 (proj2 (proj2 createOrder_reserves_stock))))
           1000 0 st0 b 7%nat eq_refl eq_refl).
Defined.



(** ** The category tree *)

Section TreeFacts.
Import Category.

Let ins (m : gmap nat Node) (cat : Doc) : gmap nat Node :=
  <[doc_id cat := mkNode cat []]> m.

Lemma fold_ins_None (l : list Doc) (m0 : gmap nat Node) (k : nat) :
  List.fold_left ins l m0 !! k = None
  <-> m0 !! k = None /\ List.existsb (Nat.eqb k) (List.map doc_id l) = false.
Proof.
  revert m0. induction l as [|a l IH]; intros m0; simpl.
  - tauto.
  - rewrite IH. unfold ins. rewrite lookup_insert_None.
    rewrite orb_false_iff, Nat.eqb_neq. split.
    + intros [[H1 H2] H3]. repeat split; auto.
    + intros [H1 [H2 H3]]. repeat split; auto.
Qed.

Lemma fold_ins_children (l : list Doc) (m0 : gmap nat Node) (k : nat) (n : Node) :
  (forall n0, m0 !! k = Some n0 -> children n0 = []) ->
  List.fold_left ins l m0 !! k = Some n -> children n = [].
Proof.
  revert m0. induction l as [|a l IH]; intros m0 H0; simpl.
  - apply H0.
  - apply IH. intros n0. unfold ins.
    destruct (decide (doc_id a = k)) as [-> | Hne].
    + rewrite lookup_insert_eq. intros [= <-]. reflexivity.
    + rewrite lookup_insert_ne by assumption. apply H0.
Qed.

(** Whether the second pass sends [cat] to the roots, given the map. *)
Let rootb (m : gmap nat Node) (cat : Doc) : bool :=
  match parentKey cat with
  | Some p => match m !! p with Some _ => false | None => true end
  | None => true
  end.

Let grow (l : list Doc) (k : nat) (n : Node) : Node :=
  mkNode (node_cat n)
         (children n ++ List.map doc_id (List.filter (is_child_of k) l)).

Lemma rootb_ext (m m' : gmap nat Node) (l : list Doc) :
  (forall k, m' !! k = None <-> m !! k = None) ->
  List.filter (rootb m') l = List.filter (rootb m) l.
Proof.
  intros H. induction l as [|a l IH]; simpl; [reflexivity |].
  rewrite IH. unfold rootb.
  destruct (parentKey a) as [p|]; [| reflexivity].
  specialize (H p).
  destruct (m' !! p), (m !! p); try reflexivity;
    destruct H as [H1 H2]; try (specialize (H1 eq_refl)); try (specialize (H2 eq_refl));
    discriminate.
Qed.

(** One iteration of the second pass, by the key it looks for. *)
Lemma attach_parentKey (m : gmap nat Node) (roots : list nat) (a : Doc) :
  attach (m, roots) a
  = match parentKey a with
    | Some p =>
        match m !! p with
        | Some parentObj => (<[p := push_child (doc_id a) parentObj]> m, roots)
        | None => (m, roots ++ [doc_id a])
        end
    | None => (m, roots ++ [doc_id a])
    end.
Proof. unfold attach, parentKey. destruct (doc_parent a); reflexivity. Qed.

Lemma attach_fold (l : list Doc) (m : gmap nat Node) (roots : list nat) :
  snd (List.fold_left attach l (m, roots))
  = roots ++ List.map doc_id (List.filter (rootb m) l)
  /\ forall k, fst (List.fold_left attach l (m, roots)) !! k
               = grow l k <$> m !! k.
Proof.
  revert m roots. induction l as [|a l IH]; intros m roots.
  - simpl. split; [now rewrite app_nil_r |].
    intros k. destruct (m !! k) as [[c ch]|]; [| reflexivity].
    unfold grow. simpl. now rewrite app_nil_r.
  - assert (forall k n, is_child_of k a = false -> grow (a :: l) k n = grow l k n)
      as Hskip.
    { intros k n Hk. unfold grow. cbn [List.filter]. now rewrite Hk. }
    cbn [List.fold_left]. rewrite attach_parentKey.
    destruct (parentKey a) as [p|] eqn:Hpa.
    + assert (forall k, p <> k -> is_child_of k a = false) as Hother.
      { intros k Hne. unfold is_child_of. rewrite Hpa. simpl.
        now apply Nat.eqb_neq. }
      destruct (m !! p) as [po|] eqn:Hmp.
      * assert (rootb m a = false) as Hr
            by (unfold rootb; now rewrite Hpa, Hmp).
        destruct (IH (<[p := push_child (doc_id a) po]> m) roots) as [IHr IHc].
        split.
        -- rewrite IHr. f_equal. f_equal.
           cbn [List.filter]. rewrite Hr.
           apply rootb_ext. intros k. rewrite lookup_insert_None.
           split; [tauto |]. intros Hk. split; [assumption |]. congruence.
        -- intros k. rewrite IHc.
           destruct (decide (p = k)) as [<- | Hne].
           ++ rewrite lookup_insert_eq, Hmp. simpl. f_equal.
              assert (is_child_of p a = true) as Hc
                  by (unfold is_child_of; rewrite Hpa; simpl; apply Nat.eqb_refl).
              unfold grow, push_child. cbn [List.filter]. rewrite Hc. simpl.
              now rewrite <- app_assoc.
           ++ rewrite lookup_insert_ne by assumption.
              destruct (m !! k) as [n|]; [| reflexivity]. simpl. f_equal.
              symmetry. apply Hskip, Hother, Hne.
      * assert (rootb m a = true) as Hr
            by (unfold rootb; now rewrite Hpa, Hmp).
        destruct (IH m (roots ++ [doc_id a])) as [IHr IHc].
        split.
        -- rewrite IHr. cbn [List.filter]. rewrite Hr. simpl.
           now rewrite <- app_assoc.
        -- intros k. rewrite IHc.
           destruct (m !! k) as [n|] eqn:Hmk; [| reflexivity]. simpl. f_equal.
           symmetry. apply Hskip, Hother. congruence.
    + assert (rootb m a = true) as Hr by (unfold rootb; now rewrite Hpa).
      destruct (IH m (roots ++ [doc_id a])) as [IHr IHc].
      split.
      * rewrite IHr. cbn [List.filter]. rewrite Hr. simpl.
        now rewrite <- app_assoc.
      * intros k. rewrite IHc.
        destruct (m !! k) as [n|]; [| reflexivity]. simpl. f_equal.
        symmetry. apply Hskip. unfold is_child_of. now rewrite Hpa.
Qed.

Lemma firstPass_None (categories : list Doc) (k : nat) :
  firstPass categories !! k = None
  <-> List.existsb (Nat.eqb k) (List.map doc_id categories) = false.
Proof.
  pose proof (fold_ins_None categories ∅ k) as H. unfold ins in H.
  unfold firstPass. rewrite H, lookup_empty. tauto.
Qed.

Lemma firstPass_children (categories : list Doc) (k : nat) (n : Node) :
  firstPass categories !! k = Some n -> children n = [].
Proof.
  pose proof (fold_ins_children categories ∅ k n) as H. unfold ins in H.
  unfold firstPass. apply H. intros n0. rewrite lookup_empty. discriminate.
Qed.

Lemma buildCategoryTree_roots (categories : list Doc) :
  snd (buildCategoryTree categories)
  = List.map doc_id (List.filter (is_root_in categories) categories).
Proof.
  unfold buildCategoryTree.
  rewrite (proj1 (attach_fold categories (firstPass categories) [])). simpl.
  f_equal. apply List.filter_ext. intros c. unfold rootb, is_root_in.
  destruct (parentKey c) as [p|]; [| reflexivity].
  pose proof (firstPass_None categories p) as H.
  destruct (firstPass categories !! p) as [n|].
  - destruct (List.existsb _ _); [reflexivity |].
    destruct H as [_ H]. now specialize (H eq_refl).
  - destruct H as [H _]. rewrite (H eq_refl). reflexivity.
Qed.

Lemma buildCategoryTree_children (categories : list Doc) (k : nat) :
  List.existsb (Nat.eqb k) (List.map doc_id categories) = true ->
  exists n,
    fst (buildCategoryTree categories) !! k = Some n
    /\ children n = List.map doc_id (List.filter (is_child_of k) categories).
Proof.
  intros Hin. unfold buildCategoryTree.
  rewrite (proj2 (attach_fold categories (firstPass categories) []) k).
  pose proof (firstPass_None categories k) as HN.
  pose proof (firstPass_children categories k) as HC.
  destruct (firstPass categories !! k) as [n|].
  - exists (grow categories k n). split; [reflexivity |].
    unfold grow. simpl. now rewrite (HC n eq_refl).
  - destruct HN as [HN _]. rewrite (HN eq_refl) in Hin. discriminate.
Qed.

Lemma buildCategoryTree_absent (categories : list Doc) (k : nat) :
  List.existsb (Nat.eqb k) (List.map doc_id categories) = false ->
  fst (buildCategoryTree categories) !! k = None.
Proof.
  intros Hout. unfold buildCategoryTree.
  rewrite (proj2 (attach_fold categories (firstPass categories) []) k).
  apply firstPass_None in Hout. now rewrite Hout.
Qed.

Lemma existsb_eqb_In (k : nat) (ids : list nat) :
  List.In k ids <-> List.existsb (Nat.eqb k) ids = true.
Proof.
  rewrite List.existsb_exists. split.
  - intros H. exists k. split; [assumption | apply Nat.eqb_refl].
  - intros (x & Hx & He). apply Nat.eqb_eq in He. now subst x.
Qed.

Lemma parentKey_unpopulated (c : t) : parentKey (unpopulated c) = parent c.
Proof. unfold parentKey, unpopulated. simpl. now destruct (parent c). Qed.

Lemma parentKey_populate (categories : gmap nat t) (c : t) :
  parentKey (populate categories c) = None.
Proof.
  unfold parentKey, populate. simpl.
  destruct (parent c) as [p|]; [| reflexivity].
  now destruct (categories !! p).
Qed.

Lemma filter_true {A} (f : A -> bool) (l : list A) :
  (forall x, f x = true) -> List.filter f l = l.
Proof.
  intros H. induction l as [|a l IH]; simpl; [reflexivity |].
  now rewrite H, IH.
Qed.

Lemma filter_false {A} (f : A -> bool) (l : list A) :
  (forall x, f x = false) -> List.filter f l = [].
Proof.
  intros H. induction l as [|a l IH]; simpl; [reflexivity |].
  now rewrite H, IH.
Qed.

End TreeFacts.

(** C5.  [buildCategoryTree] returns as roots, in input order, exactly
    the documents for which it looks up no parent or finds none among the
    ids of the list, and gives every id of the list, as children and in
    input order, exactly the documents whose parent key it is.  On
    documents that hold parent references this is the tree of the
    specification: a category with a parent in the list is among that
    parent's children, one with no parent or a dangling one is a root; on
    [[{id:1,parent:null},{id:2,parent:1},{id:3,parent:99}]] the roots are
    [[1, 3]] and the children of 1 are [[2]].  On the documents
    [getAllCategories] passes, whose parents are populated, every
    category is a root and none has children: a category and its
    subcategory, both found, come back side by side. *)
Theorem buildCategoryTree_roots_and_children :
  (forall (categories : list Category.Doc),
      let ids := List.map Category.doc_id categories in
      let result := Category.buildCategoryTree categories in
      snd result
      = List.map Category.doc_id
                 (List.filter (Category.is_root_in categories) categories)
      /\ (forall k, List.In k ids ->
                    exists n,
                      fst result !! k = Some n
                      /\ Category.children n
                         = List.map Category.doc_id
                             (List.filter (Category.is_child_of k) categories)))
  /\ (forall (stored : list Category.t),
         let ids := List.map Category._id stored in
         let result :=
           Category.buildCategoryTree (List.map Category.unpopulated stored) in
         (forall c p,
             List.In c stored -> Category.parent c = Some p -> List.In p ids ->
             exists n, fst result !! p = Some n
                       /\ List.In (Category._id c) (Category.children n))
         /\ (forall c,
                List.In c stored ->
                Category.parent c = None
                \/ (exists p, Category.parent c = Some p /\ ~ List.In p ids) ->
                List.In (Category._id c) (snd result)))
  /\ (forall (categories : gmap nat Category.t) (found : list Category.t),
         let result := Category.getAllCategories_nested categories found in
         snd result = List.map Category._id found
         /\ (forall k n, fst result !! k = Some n -> Category.children n = []))
  /\ (let c1 := Category.mk 1 "Home" None None in
      let c2 := Category.mk 2 "Lamps" (Some 1%nat) None in
      let c3 := Category.mk 3 "Stray" (Some 99%nat) None in
      let r := Category.buildCategoryTree
                 (List.map Category.unpopulated [c1; c2; c3]) in
      let store : gmap nat Category.t :=
        {[ 1%nat := c1; 2%nat := c2; 3%nat := c3 ]} in
      let r' := Category.getAllCategories_nested store [c1; c2; c3] in
      (snd r = [1%nat; 3%nat]
       /\ Category.children <$> fst r !! 1%nat = Some [2%nat]
       /\ Category.forest 3 r
          = [Category.TNode (Category.unpopulated c1)
               [Category.TNode (Category.unpopulated c2) []];
             Category.TNode (Category.unpopulated c3) []])
      /\ (snd r' = [1%nat; 2%nat; 3%nat]
          /\ Category.children <$> fst r' !! 1%nat = Some []
          /\ Category.forest 3 r'
             = [Category.TNode (Category.populate store c1) [];
                Category.TNode (Category.populate store c2) [];
                Category.TNode (Category.populate store c3) []])).
Proof.
  assert (forall (categories : list Category.Doc) k,
             List.In k (List.map Category.doc_id categories) ->
             exists n,
               fst (Category.buildCategoryTree categories) !! k = Some n
               /\ Category.children n
                  = List.map Category.doc_id
                      (List.filter (Category.is_child_of k) categories))
    as Hchildren.
  { intros categories k Hk. apply buildCategoryTree_children.
    now apply existsb_eqb_In. }
  assert (forall stored : list Category.t,
             List.map Category.doc_id (List.map Category.unpopulated stored)
             = List.map Category._id stored) as Hids.
  { intros stored. rewrite List.map_map. reflexivity. }
  split; [| split; [| split]].
  - intros categories ids result.
    split; [apply buildCategoryTree_roots | apply Hchildren].
  - intros stored ids result. split.
    + intros c p Hc Hp Hpin.
      destruct (Hchildren (List.map Category.unpopulated stored) p)
        as (n & Hn & Hch); [now rewrite Hids |].
      exists n. split; [assumption |]. rewrite Hch.
      change (Category._id c) with (Category.doc_id (Category.unpopulated c)).
      apply List.in_map, List.filter_In. split.
      * now apply List.in_map.
      * unfold Category.is_child_of. rewrite parentKey_unpopulated, Hp.
        simpl. apply Nat.eqb_refl.
    + intros c Hc Hroot. subst result. rewrite buildCategoryTree_roots.
      change (Category._id c) with (Category.doc_id (Category.unpopulated c)).
      apply List.in_map, List.filter_In. split; [now apply List.in_map |].
      unfold Category.is_root_in. rewrite parentKey_unpopulated, Hids.
      destruct Hroot as [-> | (p & -> & Hout)]; [reflexivity |].
      fold ids. destruct (List.existsb (Nat.eqb p) ids) eqn:He; [| reflexivity].
      contradiction Hout. now apply existsb_eqb_In.
  - intros categories found result. subst result.
    unfold Category.getAllCategories_nested.
    set (docs := List.map (Category.populate categories) found).
    assert (forall x, List.In x docs -> Category.parentKey x = None) as Hkey.
    { intros x Hx. apply List.in_map_iff in Hx as (c & <- & _).
      apply parentKey_populate. }
    split.
    + rewrite buildCategoryTree_roots.
      rewrite (List.filter_ext_in _ (fun _ => true) docs).
      * rewrite filter_true by reflexivity.
        unfold docs. rewrite List.map_map. reflexivity.
      * intros x Hx. unfold Category.is_root_in. now rewrite (Hkey x Hx).
    + intros k n Hn.
      destruct (List.existsb (Nat.eqb k) (List.map Category.doc_id docs))
        eqn:Hk.
      * destruct (buildCategoryTree_children docs k Hk) as (n' & Hn' & Hch).
        rewrite Hn in Hn'. injection Hn' as <-. rewrite Hch.
        rewrite (List.filter_ext_in _ (fun _ => false) docs).
        -- now rewrite filter_false.
        -- intros x Hx. unfold Category.is_child_of. now rewrite (Hkey x Hx).
      * rewrite (buildCategoryTree_absent docs k Hk) in Hn. discriminate.
  - vm_compute. repeat split; reflexivity.
Qed.

Lemma buildCategoryTree_witness :
  let c1 := Category.mk 1 "Home" None None in
  let c2 := Category.mk 2 "Lamps" (Some 1%nat) None in
  let c3 := Category.mk 3 "Stray" (Some 99%nat) None in
  let cats := [c1; c2; c3] in
  (List.In c2 cats /\ Category.parent c2 = Some 1%nat
   /\ List.In 1%nat (List.map Category._id cats))
  /\ exists n,
      fst (Category.buildCategoryTree (List.map Category.unpopulated cats))
        !! 1%nat = Some n
      /\ List.In 2%nat (Category.children n).
Proof.
  intros c1 c2 c3 cats.
  assert (List.In c2 cats) as H2 by (right; left; reflexivity).
  assert (List.In 1%nat (List.map Category._id cats)) as H1 by (left; reflexivity).
  split; [repeat split; assumption |].
  exact (proj1 (proj1 (proj2 buildCategoryTree_roots_and_children) cats)
               c2 1%nat H2 eq_refl H1).
Defined.

(** ** Category deletion *)

Section DeleteFacts.
Import Category.

Lemma countDocuments_pos {A} (p : A -> bool) (m : gmap nat A) :
  (0 < countDocuments p m)%nat
  <-> exists k a, m !! k = Some a /\ p a = true.
Proof.
  unfold countDocuments. split.
  - intros Hlen.
    destruct (List.filter p (snd <$> map_to_list m)) as [|a l] eqn:Hf;
      [simpl in Hlen; lia |].
    assert (List.In a (List.filter p (snd <$> map_to_list m))) as Hin
        by (rewrite Hf; now left).
    apply List.filter_In in Hin as [Hin Hp].
    apply list_elem_of_In, list_elem_of_fmap in Hin as ([k a'] & -> & Hka).
    apply elem_of_map_to_list in Hka. eauto.
  - intros (k & a & Hka & Hp).
    assert (List.In a (List.filter p (snd <$> map_to_list m))) as Hin.
    { apply List.filter_In. split; [| assumption].
      apply list_elem_of_In, list_elem_of_fmap. exists (k, a).
      split; [reflexivity |]. now apply elem_of_map_to_list. }
    destruct (List.filter p (snd <$> map_to_list m)); [contradiction | simpl; lia].
Qed.

Lemma has_child_iff (st : Store) (id : nat) :
  (0 < countDocuments (fun c => option_nat_eqb (parent c) id) (categories st))%nat
  <-> exists k child, categories st !! k = Some child /\ parent child = Some id.
Proof.
  rewrite countDocuments_pos. split; intros (k & c & Hk & Hp); exists k, c;
    (split; [assumption |]).
  - unfold option_nat_eqb in Hp. destruct (parent c) as [x|]; [| discriminate].
    apply Nat.eqb_eq in Hp. now subst x.
  - rewrite Hp. simpl. apply Nat.eqb_refl.
Qed.

Lemma has_product_iff (st : Store) (id : nat) :
  (0 < countDocuments (fun p => Nat.eqb (Product.category p) id) (products st))%nat
  <-> exists k p, products st !! k = Some p /\ Product.category p = id.
Proof.
  rewrite countDocuments_pos. split; intros (k & p & Hk & Hp); exists k, p;
    (split; [assumption |]).
  - now apply Nat.eqb_eq.
  - now apply Nat.eqb_eq.
Qed.

End DeleteFacts.

(** C7.  Deleting an existing category that has a child category or an
    associated product fails with a validation failure (400) and leaves
    the whole store, the category and its image file included, as it was;
    a deletion that succeeds is one of a category with no child and no
    product, and every such deletion succeeds and removes the
    category. *)
Theorem deleteCategory_refuses_children_and_products
        (st : Category.Store) (id : nat) (c : Category.t)
        (Hc : Category.categories st !! id = Some c) :
  let has_child :=
    exists k child, Category.categories st !! k = Some child
                    /\ Category.parent child = Some id in
  let has_product :=
    exists k p, Category.products st !! k = Some p
                /\ Product.category p = id in
  (has_child \/ has_product ->
   exists r, Category.deleteCategory st id = (Failure r, st)
             /\ Category.http_status r = 400)
  /\ (succeeded (fst (Category.deleteCategory st id)) = true ->
      ~ has_child /\ ~ has_product)
  /\ (~ has_child -> ~ has_product ->
      fst (Category.deleteCategory st id) = Success 200 tt
      /\ Category.categories (snd (Category.deleteCategory st id))
         = delete id (Category.categories st)).
Proof.
  intros has_child has_product.
  pose proof (has_child_iff st id) as Hch.
  pose proof (has_product_iff st id) as Hpr.
  fold has_child in Hch. fold has_product in Hpr.
  unfold Category.deleteCategory. rewrite Hc.
  destruct (Nat.ltb_spec 0
              (Category.countDocuments
                 (fun c0 => Category.option_nat_eqb (Category.parent c0) id)
                 (Category.categories st))) as [Hkids | Hkids].
  { split; [| split].
    - intros _. exists Category.HasSubcategories. split; reflexivity.
    - discriminate.
    - intros Hn. contradiction Hn. now apply Hch. }
  destruct (Nat.ltb_spec 0
              (Category.countDocuments
                 (fun p => Nat.eqb (Product.category p) id)
                 (Category.products st))) as [Hprods | Hprods].
  { split; [| split].
    - intros _. eexists. split; reflexivity.
    - discriminate.
    - intros _ Hn. contradiction Hn. now apply Hpr. }
  assert (~ has_child) as Hnc by (intros H; apply Hch in H; lia).
  assert (~ has_product) as Hnp by (intros H; apply Hpr in H; lia).
  split; [| split].
  - intros [H | H]; contradiction.
  - intros _. split; assumption.
  - intros _ _. split; reflexivity.
Qed.

Lemma deleteCategory_witness :
  let home := Category.mk 1 "Home" None (Some "/uploads/categories/home.png"%string) in
  let lamps := Category.mk 2 "Lamps" (Some 1%nat) None in
  let st := Category.mkStore {[ 1%nat := home; 2%nat := lamps ]} ∅
                             {[ "/uploads/categories/home.png"%string ]} in
  (Category.categories st !! 1%nat = Some home
   /\ Category.categories st !! 2%nat = Some lamps
   /\ Category.parent lamps = Some 1%nat)
  /\ exists r, Category.deleteCategory st 1%nat = (Failure r, st)
               /\ Category.http_status r = 400.
Proof.
  intros home lamps st.
  split; [repeat split; reflexivity |].
  refine (proj1 (deleteCategory_refuses_children_and_products st 1%nat home eq_refl) _).
  left. exists 2%nat, lamps. split; reflexivity.
Defined.

(** ** Signup *)

Section SignupFacts.
Import Auth.

Lemma parse_role_admin (s : string) : parse_role s = Some admin <-> s = "admin"%string.
Proof.
  unfold parse_role. split.
  - destruct (String.eqb s "customer"); [discriminate |].
    destruct (String.eqb_spec s "admin"); [auto | discriminate].
  - intros ->. reflexivity.
Qed.

(** A string that begins with a digit or a minus sign. *)
Let numeric_head (s : string) : Prop :=
  match s with
  | String c _ => JSString.is_digit c = true \/ c = "-"%char
  | EmptyString => False
  end.

Lemma numeric_head_append (a b : string) :
  numeric_head a -> numeric_head (a +:+ b).
Proof. destruct a as [|c a]; [contradiction | exact (fun H => H)]. Qed.

Lemma numeric_head_take (n : nat) (s : string) :
  numeric_head s -> numeric_head (JS.take (S n) s).
Proof. destruct s as [|c s]; [contradiction | exact (fun H => H)]. Qed.

Lemma numeric_head_digits (p : positive) : numeric_head (JS.digits p).
Proof.
  pose proof (digits_nonempty p) as Hne.
  pose proof (digits_all_digits p) as Hd.
  destruct (JS.digits p) as [|c r]; [contradiction |].
  simpl in Hd. apply andb_true_iff in Hd as [Hc _]. now left.
Qed.

Lemma numeric_head_exponent_form (ds : string) (n : Z) :
  numeric_head ds -> numeric_head (JS.exponent_form ds n).
Proof.
  intros H. unfold JS.exponent_form.
  apply numeric_head_append.
  destruct (JS.strip_trailing_zeros _).
  - now apply numeric_head_take.
  - apply numeric_head_append. now apply numeric_head_take.
Qed.

Lemma numeric_head_positive (m : positive) (e : Z) :
  numeric_head (JS.positive_to_string m e).
Proof.
  unfold JS.positive_to_string.
  destruct (JS.normalize _ _ _) as [[| m' | m'] e']; try (now left).
  destruct (0 <=? e').
  - destruct (Z.pos m' * 10 ^ e') as [| v | v]; try (now left).
    destruct (Z.pos v <? 10 ^ 21).
    + apply numeric_head_digits.
    + apply numeric_head_exponent_form, numeric_head_digits.
  - destruct (Z.ltb_spec 0 (Z.of_nat (String.length (JS.digits m')) + e'))
      as [Hpos | Hneg]; simpl.
    + destruct (_ <=? 21).
      * apply numeric_head_append.
        destruct (Z.to_nat _) as [|k] eqn:Hk; [lia |].
        apply numeric_head_take, numeric_head_digits.
      * destruct (_ && _)%bool; [now left |].
        apply numeric_head_exponent_form, numeric_head_digits.
    + destruct (_ && _)%bool; [now left |].
      apply numeric_head_exponent_form, numeric_head_digits.
Qed.

(** No number prints as a role of the [enum]. *)
Lemma parse_role_number (n : JS.Number) : parse_role (JS.NumberToString n) = None.
Proof.
  assert (forall s, numeric_head s -> parse_role s = None) as Hhead.
  { intros [|c s]; [contradiction |]. intros [Hd | ->]; [| reflexivity].
    destruct c as [[] [] [] [] [] [] [] []]; try discriminate Hd; reflexivity. }
  destruct n as [| [] | [| m | m] e]; try reflexivity.
  apply Hhead, numeric_head_positive.
Qed.

(** The role [signup] stores is an administrator's exactly for a role of
    the body that is an object whose [_id] is the string [admin]. *)
Lemma role_path_userRole_admin (v : JS.Value) :
  role_path (userRole v) = Some admin
  <-> exists fields,
      v = JS.VObj fields /\ JS.get "_id" fields = Some (JS.VStr "admin").
Proof.
  split.
  - destruct v as [| | [] | n | s | items | fields]; try discriminate.
    + unfold userRole. simpl JS.is_string. cbv iota.
      destruct (JS.truthy (JS.VNum n)); [| discriminate].
      unfold role_path. simpl. now rewrite parse_role_number.
    + unfold userRole. simpl JS.is_string.
      destruct (String.eqb_spec s "admin") as [-> | Hne]; [discriminate |].
      destruct (JS.truthy (JS.VStr s)); [| discriminate].
      unfold role_path. simpl. intros H. apply parse_role_admin in H.
      contradiction.
    + unfold userRole, role_path. simpl.
      destruct (JS.get "_id" fields) as [[| | | | s | |]|] eqn:Hid;
        try discriminate.
      destruct (String.eqb s ""); [discriminate |].
      intros H. apply parse_role_admin in H. subst s.
      exists fields. split; [reflexivity | exact Hid].
  - intros (fields & -> & Hid). unfold userRole, role_path. simpl.
    rewrite Hid. reflexivity.
Qed.

Lemma create_result (users users' : list User) (n e pw : string)
      (ph : option string) (r : JS.Value) (u : User) :
  create users n e pw ph r = Some (u, users') ->
  role_path r = Some (role u) /\ users' = users ++ [u]
  /\ email u = JSString.trim (JSString.toLowerCase e)
  /\ email u <> ""%string.
Proof.
  unfold create. destruct (role_path r) as [ro|]; [| discriminate].
  match goal with
  | |- (if ?c then _ else _) = _ -> _ => destruct c eqn:Hc; [| discriminate]
  end.
  intros [= <- <-]. simpl. split; [reflexivity |].
  split; [reflexivity |]. split; [reflexivity |].
  rewrite !andb_true_iff in Hc. destruct Hc as [[[[_ Hc] _] _] _].
  apply negb_true_iff in Hc. intros He. rewrite He in Hc. discriminate.
Qed.

Lemma signup_success (users users' : list User) (b : Body) (st : Z)
      (u : User) (s : Session) :
  signup users b = (Success st (u, s), users') ->
  role_path (userRole (b_role b)) = Some (role u)
  /\ session_userRole s = role u
  /\ users' = users ++ [u].
Proof.
  unfold signup.
  destruct (precheck users b); [discriminate |].
  destruct (b_email b) as [e|]; [| discriminate].
  destruct (create _ _ _ _ _ _) as [[u0 us0]|] eqn:Hc; [| discriminate].
  intros [= _ <- <- <-].
  apply create_result in Hc as (Hr & Hus & _ & _). auto.
Qed.

End SignupFacts.

(** C9.  The role of the user a successful signup creates, which is
    also the role of the session and the one record the operation adds.
    For a requested role that is a string ([admin] included, which
    becomes [customer]), that is absent, or that is any other value than
    an object, the role is never [admin]: it is [customer].  For a
    requested role that is an object, it is the role the model's cast
    reads from the object: the request with the role [{ _id: 'admin' }]
    creates an administrator. *)
Theorem signup_never_creates_admin :
  Auth.userRole (JS.VStr "admin") = JS.VStr "customer"
  /\ (forall users b st u s users',
         Auth.signup users b = (Success st (u, s), users') ->
         (forall fields, Auth.b_role b <> JS.VObj fields) ->
         Auth.role u <> Auth.admin
         /\ Auth.role u = Auth.customer
         /\ Auth.session_userRole s = Auth.customer
         /\ users' = users ++ [u])
  /\ (forall users b st u s users',
         Auth.signup users b = (Success st (u, s), users') ->
         Auth.session_userRole s = Auth.role u
         /\ users' = users ++ [u]
         /\ (Auth.role u = Auth.admin
             <-> exists fields,
                 Auth.b_role b = JS.VObj fields
                 /\ JS.get "_id" fields = Some (JS.VStr "admin")))
  /\ (let b := {| Auth.b_name := Some "Eve"%string;
                  Auth.b_email := Some "eve@shop.io"%string;
                  Auth.b_password := Some "secret1"%string;
                  Auth.b_phone := None;
                  Auth.b_role := JS.VObj [("_id"%string, JS.VStr "admin")] |} in
      let eve := Auth.mkUser 1 "Eve" "eve@shop.io" None Auth.admin in
      Auth.signup [] b
      = (Success 201 (eve, Auth.mkSession 1 Auth.admin "eve@shop.io" "Eve"),
         [eve])).
Proof.
  assert (forall users b st u s users',
             Auth.signup users b = (Success st (u, s), users') ->
             Auth.session_userRole s = Auth.role u
             /\ users' = users ++ [u]
             /\ (Auth.role u = Auth.admin
                 <-> exists fields,
                     Auth.b_role b = JS.VObj fields
                     /\ JS.get "_id" fields = Some (JS.VStr "admin")))
    as Hgen.
  { intros users b st u s users' H.
    apply signup_success in H as (Hr & Hs & Hus).
    split; [exact Hs |]. split; [exact Hus |].
    rewrite <- role_path_userRole_admin, Hr. split; congruence. }
  split; [reflexivity |]. split; [| split; [exact Hgen |]].
  - intros users b st u s users' H Hobj.
    apply Hgen in H as (Hs & Hus & Hadmin).
    assert (Auth.role u <> Auth.admin) as Hne.
    { intros Ha. apply Hadmin in Ha as (fields & Hf & _).
      exact (Hobj fields Hf). }
    rewrite Hs. destruct (Auth.role u); [auto | contradiction].
  - vm_compute. reflexivity.
Qed.

Lemma signup_never_creates_admin_witness :
  let b := {| Auth.b_name := Some "Dara"%string;
              Auth.b_email := Some "Dara@Shop.com"%string;
              Auth.b_password := Some "secret1"%string;
              Auth.b_phone := Some "012 345 6789"%string;
              Auth.b_role := JS.VStr "admin" |} in
  exists u s users',
    Auth.signup [] b = (Success 201 (u, s), users')
    /\ Auth.email u = "dara@shop.com"%string
    /\ Auth.role u = Auth.customer.
Proof.
  intros b. eexists. eexists. eexists.
  match goal with
  | |- ?eq /\ _ => assert eq as H by (vm_compute; reflexivity)
  end.
  split; [exact H |]. split; [reflexivity |].
  assert (forall fields, Auth.b_role b <> JS.VObj fields) as Hobj
      by (intros fields; discriminate).
  exact (proj1 (proj2
           (proj1 (proj2 signup_never_creates_admin) _ _ _ _ _ _ H Hobj))).
Defined.

(** C10.  A signup request without an email never succeeds, whether or not
    it supplies a phone number: it is answered with a failure and the
    users are left as they were.  When it passes the field validation and
    the duplicate check (which a request with a phone number and no email
    can), the creation step fails on the absent email and the answer is
    the handler's error response. *)
Theorem signup_without_email_fails (users : list Auth.User) (b : Auth.Body)
        (Hemail : JSString.truthy (Auth.b_email b) = false) :
  (exists r, Auth.signup users b = (Failure r, users)
             /\ Auth.http_status r = 400)
  /\ (Auth.precheck users b = None ->
      Auth.signup users b = (Failure Auth.RegisterFailed, users)).
Proof.
  assert (Auth.precheck users b = None ->
          Auth.signup users b = (Failure Auth.RegisterFailed, users)) as Hcatch.
  { intros Hp. unfold Auth.signup. rewrite Hp.
    destruct (Auth.b_email b) as [e|]; [| reflexivity].
    destruct e as [|ch e]; [| discriminate Hemail].
    destruct (Auth.create _ _ _ _ _ _) as [[u us]|] eqn:Hc; [| reflexivity].
    apply create_result in Hc as (_ & _ & He & Hne).
    contradiction Hne. }
  split; [| exact Hcatch].
  destruct (Auth.precheck users b) as [r|] eqn:Hp.
  - exists r. split; [| reflexivity]. unfold Auth.signup. now rewrite Hp.
  - exists Auth.RegisterFailed. split; [| reflexivity]. now apply Hcatch.
Qed.

Lemma signup_without_email_witness :
  let b := {| Auth.b_name := Some "Dara"%string;
              Auth.b_email := None;
              Auth.b_password := Some "secret1"%string;
              Auth.b_phone := Some "012 345 6789"%string;
              Auth.b_role := JS.VUndefined |} in
  (JSString.truthy (Auth.b_email b) = false /\ Auth.precheck [] b = None)
  /\ Auth.signup [] b = (Failure Auth.RegisterFailed, []).
Proof.
  intros b.
  assert (Auth.precheck [] b = None) as Hp by (vm_compute; reflexivity).
  split; [split; [reflexivity | exact Hp] |].
  exact (proj2 (signup_without_email_fails [] b eq_refl) Hp).
Defined.

(** * Further properties of the handlers *)

(** ** Coupons: expiry, remaining uses, lookup *)

(** X1.  [checkExpiration] reports true exactly when the end date has
    passed and the status is not yet expired; it then changes the status,
    and nothing else, to expired, and otherwise changes nothing.  A second
    check, at the same instant or after a check that reported true at any
    instant, reports false and changes nothing; an expired coupon is never
    changed, and a coupon just expired is not valid at any instant. *)
Theorem checkExpiration_expires_once (now : Z) (c : Coupon.t) :
  let r := Coupon.checkExpiration now c in
  (fst r = true <-> Coupon.endDate c < now /\ Coupon.status c <> Coupon.expired)
  /\ (fst r = true -> snd r = Coupon.set_status Coupon.expired c)
  /\ (fst r = false -> snd r = c)
  /\ Coupon.checkExpiration now (snd r) = (false, snd r)
  /\ (forall now', fst r = true ->
                   Coupon.checkExpiration now' (snd r) = (false, snd r)
                   /\ Coupon.isValid now' (snd r) = false)
  /\ (forall now', Coupon.status c = Coupon.expired ->
                   Coupon.checkExpiration now' c = (false, c)).
Proof.
  unfold Coupon.checkExpiration.
  destruct (Z.ltb_spec (Coupon.endDate c) now) as [Hlt | Hge];
    destruct (Coupon.status c) eqn:Hs; simpl; rewrite ?Hs; simpl;
    repeat split; intros; try congruence; try lia; try tauto;
    try (destruct H; congruence);
    try (destruct (Coupon.endDate c <? _); reflexivity);
    try (destruct (Z.ltb_spec (Coupon.endDate c) now); [lia | reflexivity]);
    try (destruct (Z.ltb_spec (Coupon.endDate c) now); [reflexivity | lia]);
    try (unfold Coupon.isValid; simpl;
         destruct ((_ <? _) || (_ <? _))%bool; reflexivity).
Qed.

Lemma checkExpiration_witness :
  let c := Coupon.mk 1 "SAVE10" 10 0 1 86400000 Coupon.active None 0 in
  fst (Coupon.checkExpiration 90000000 c) = true
  /\ Coupon.checkExpiration 5 (snd (Coupon.checkExpiration 90000000 c))
     = (false, snd (Coupon.checkExpiration 90000000 c))
  /\ Coupon.isValid 5 (snd (Coupon.checkExpiration 90000000 c)) = false.
Proof.
  intros c.
  assert (fst (Coupon.checkExpiration 90000000 c) = true) as H by reflexivity.
  split; [exact H |].
  exact (proj1 (proj2 (proj2 (proj2 (proj2
           (checkExpiration_expires_once 90000000 c))))) 5 H).
Defined.

(** X2.  Within the date window and for an active coupon, the coupon is
    valid exactly when its remaining uses are unlimited ([null]) or
    positive.  The remaining uses are never negative, and for a limit
    other than zero that the used count has not passed they are the limit
    minus the used count. *)
Theorem remainingUses_agrees_with_isValid (now : Z) (c : Coupon.t) :
  (Coupon.startDate c <= now <= Coupon.endDate c ->
   Coupon.status c = Coupon.active ->
   (Coupon.isValid now c = true
    <-> Coupon.remainingUses c = None
        \/ exists r, Coupon.remainingUses c = Some r /\ 0 < r))
  /\ (forall r, Coupon.remainingUses c = Some r -> 0 <= r)
  /\ (forall l, Coupon.usageLimit c = Some l -> l <> 0 ->
                Coupon.usedCount c <= l ->
                Coupon.remainingUses c = Some (l - Coupon.usedCount c)).
Proof.
  split; [| split].
  - intros Hw Hs. rewrite isValid_true_iff. unfold Coupon.remainingUses.
    destruct (Coupon.usageLimit c) as [l|] eqn:Hl; simpl.
    + destruct (Z.eqb_spec l 0) as [-> | Hne]; simpl.
      * split; [now left |]. intros _. split; [exact Hw |]. split; [exact Hs |].
        intros (l' & [= <-] & Hne & _). now apply Hne.
      * split.
        -- intros (_ & _ & Hn). right. eexists. split; [reflexivity |].
           destruct (Z.lt_ge_cases (Coupon.usedCount c) l) as [Hlt | Hge]; [lia |].
           contradiction Hn. exists l. auto.
        -- intros [Hnone | (r & [= <-] & Hpos)]; [discriminate |].
           split; [exact Hw |]. split; [exact Hs |].
           intros (l' & [= <-] & _ & Hge). lia.
    + split; [now left |]. intros _. split; [exact Hw |]. split; [exact Hs |].
      intros (l' & Habs & _). discriminate.
  - intros r. unfold Coupon.remainingUses.
    destruct (negb _); [discriminate |]. intros [= <-]. lia.
  - intros l Hl Hne Hle. unfold Coupon.remainingUses. rewrite Hl. simpl.
    destruct (Z.eqb_spec l 0); [contradiction |]. simpl. f_equal. lia.
Qed.

Lemma remainingUses_witness :
  let c := Coupon.mk 1 "SAVE10" 10 0 1 86400000 Coupon.active (Some 3) 1 in
  (Coupon.startDate c <= 5 <= Coupon.endDate c
   /\ Coupon.status c = Coupon.active
   /\ Coupon.remainingUses c = Some 2)
  /\ Coupon.isValid 5 c = true.
Proof.
  intros c.
  assert (Coupon.startDate c <= 5 <= Coupon.endDate c) as Hw by (simpl; lia).
  split; [repeat split; try reflexivity; apply Hw |].
  apply (proj1 (remainingUses_agrees_with_isValid 5 c) Hw eq_refl).
  right. exists 2. split; [reflexivity | lia].
Defined.

Section LookupFacts.
Import Coupon.

Lemma getCouponByCode_found (now : Z) (db : list t) (param : string) (c : t) :
  findOne (JSString.toUpperCase param) db = Some c ->
  (isValid now c = true -> getCouponByCode now db param = (Success 200 [c], db))
  /\ (isValid now c = false ->
      exists r, fst (getCouponByCode now db param) = Failure r
                /\ http_status r = 400
                /\ (r = HasExpired <-> endDate c < now /\ startDate c <= now)
                /\ (r <> HasExpired -> snd (getCouponByCode now db param) = db)
                /\ (r = HasExpired ->
                    snd (getCouponByCode now db param)
                    = findByIdAndUpdate (_id c) (set_status expired) db)).
Proof.
  intros Hf. unfold getCouponByCode, isValid. rewrite Hf.
  destruct (Z.ltb_spec now (startDate c)) as [H1 | H1]; simpl.
  { split; [discriminate |]. intros _. exists NotYetActive.
    repeat split; try reflexivity; try discriminate; intros; lia. }
  destruct (Z.ltb_spec (endDate c) now) as [H2 | H2]; simpl.
  { split; [discriminate |]. intros _. exists HasExpired.
    repeat split; try reflexivity; try assumption; intros; congruence. }
  destruct (negb (status_eqb (status c) active)); simpl.
  { split; [discriminate |]. intros _. exists NotActive.
    repeat split; try reflexivity; try discriminate; intros; lia. }
  destruct (truthy_num (usageLimit c) && _)%bool; simpl.
  { split; [discriminate |]. intros _. exists UsageLimitReached.
    repeat split; try reflexivity; try discriminate; intros; lia. }
  split; [reflexivity | discriminate].
Qed.

Lemma getCouponByCode_missing (now : Z) (db : list t) (param : string) :
  findOne (JSString.toUpperCase param) db = None ->
  getCouponByCode now db param = (Failure NotFound, db).
Proof. intros Hf. unfold getCouponByCode. now rewrite Hf. Qed.

Lemma find_map_stable {A} (p : A -> bool) (f : A -> A) (l : list A) :
  (forall x, p (f x) = p x) ->
  List.find p (List.map f l) = option_map f (List.find p l).
Proof.
  intros H. induction l as [|a l IH]; simpl; [reflexivity |].
  rewrite H. destruct (p a); [reflexivity | exact IH].
Qed.

Lemma findOne_after_expire (k : string) (i : nat) (db : list t) :
  findOne k (findByIdAndUpdate i (set_status expired) db)
  = option_map (fun c => if Nat.eqb (_id c) i then set_status expired c else c)
               (findOne k db).
Proof.
  unfold findOne, findByIdAndUpdate. apply find_map_stable.
  intros c. destruct (Nat.eqb (_id c) i); reflexivity.
Qed.

Lemma findOne_None_iff (k : string) (db : list t) :
  findOne k db = None
  <-> ~ List.In (JSString.toUpperCase (JSString.trim k)) (List.map code db).
Proof.
  unfold findOne. induction db as [|a db IH]; simpl; [tauto |].
  destruct (String.eqb_spec (code a) (JSString.toUpperCase (JSString.trim k)))
    as [He | Hne].
  - split; [discriminate | intros H; contradiction H; now left].
  - rewrite IH. tauto.
Qed.

End LookupFacts.



Section ListFacts.

Lemma NoDup_map_injective {A B} (f : A -> B) (l : list A) (a b : A) :
  NoDup (List.map f l) -> List.In a l -> List.In b l -> f a = f b -> a = b.
Proof.
  induction l as [|x l IH]; simpl; [contradiction |].
  intros Hnd Ha Hb Hab. apply NoDup_cons in Hnd as [Hx Hnd].
  rewrite list_elem_of_In in Hx.
  destruct Ha as [-> | Ha], Hb as [-> | Hb].
  - reflexivity.
  - contradiction Hx. rewrite Hab. now apply List.in_map.
  - contradiction Hx. rewrite <- Hab. now apply List.in_map.
  - now apply IH.
Qed.

End ListFacts.

(** X4.  The lookup by code writes to the collection only to expire.  In a
    collection with distinct ids, the collection changes only with the
    answer that the coupon has expired; every document is then as before
    or the same document with the status expired and an end date in the
    past; and the coupon found is stored as expired, so that no later
    lookup of the code, at any instant, returns it. *)
Theorem getCouponByCode_only_expires
        (now : Z) (db : list Coupon.t) (param : string)
        (Hids : NoDup (List.map Coupon._id db)) :
  let r := Coupon.getCouponByCode now db param in
  (fst r <> Failure Coupon.HasExpired -> snd r = db)
  /\ Forall2 (fun a b => b = a
                         \/ (b = Coupon.set_status Coupon.expired a
                             /\ Coupon.endDate a < now))
             db (snd r)
  /\ (fst r = Failure Coupon.HasExpired ->
      exists c, Coupon.findOne (JSString.toUpperCase param) db = Some c
                /\ Coupon.findOne (JSString.toUpperCase param) (snd r)
                   = Some (Coupon.set_status Coupon.expired c)
                /\ forall now',
                     succeeded (fst (Coupon.getCouponByCode now' (snd r) param))
                     = false).
Proof.
  intros r. subst r.
  assert (forall l : list Coupon.t,
             Forall2 (fun a b : Coupon.t =>
                        b = a \/ (b = Coupon.set_status Coupon.expired a
                                  /\ Coupon.endDate a < now)) l l) as Hsame.
  { induction l; constructor; auto. }
  destruct (Coupon.findOne (JSString.toUpperCase param) db) as [c|] eqn:Hf.
  2:{ rewrite (getCouponByCode_missing now db param Hf). simpl.
      split; [reflexivity |]. split; [apply Hsame | discriminate]. }
  destruct (getCouponByCode_found now db param c Hf) as [Hyes Hno].
  destruct (Coupon.isValid now c) eqn:Hv.
  { rewrite (Hyes eq_refl). simpl.
    split; [reflexivity |]. split; [apply Hsame | discriminate]. }
  destruct (Hno eq_refl) as (r & Hr & _ & Hexp & Hkeep & Hupd).
  rewrite Hr. split; [| split].
  - intros Hne. apply Hkeep. congruence.
  - destruct r; try (rewrite Hkeep by discriminate; apply Hsame).
    rewrite (Hupd eq_refl).
    assert (Coupon.endDate c < now) as Hpast by (now apply Hexp).
    assert (List.In c db) as Hin by (apply List.find_some in Hf; tauto).
    assert (forall a, List.In a db -> Coupon._id a = Coupon._id c -> a = c)
      as Honly.
    { intros a Ha He.
      exact (NoDup_map_injective Coupon._id db a c Hids Ha Hin He). }
    clear - Hpast Honly. unfold Coupon.findByIdAndUpdate.
    induction db as [|a db IH]; simpl; constructor.
    + destruct (Nat.eqb_spec (Coupon._id a) (Coupon._id c)) as [He | _];
        [| now left].
      right. rewrite (Honly a (or_introl eq_refl) He). auto.
    + apply IH. intros b Hb. apply Honly. now right.
  - intros [= ->]. exists c. split; [reflexivity |].
    rewrite (Hupd eq_refl).
    assert (Coupon.findOne (JSString.toUpperCase param)
              (Coupon.findByIdAndUpdate (Coupon._id c)
                 (Coupon.set_status Coupon.expired) db)
            = Some (Coupon.set_status Coupon.expired c)) as Hf'.
    { rewrite findOne_after_expire, Hf. simpl. now rewrite Nat.eqb_refl. }
    split; [exact Hf' |].
    intros now'.
    destruct (getCouponByCode_found now' _ param _ Hf') as [_ Hno'].
    assert (Coupon.isValid now' (Coupon.set_status Coupon.expired c) = false)
      as Hinv.
    { unfold Coupon.isValid. simpl.
      destruct ((_ <? _) || (_ <? _))%bool; reflexivity. }
    destruct (Hno' Hinv) as (r' & Hr' & _). now rewrite Hr'.
Qed.

Lemma getCouponByCode_only_expires_witness :
  let c := Coupon.mk 1 "SAVE10" 10 0 1 86400000 Coupon.active None 0 in
  NoDup (List.map Coupon._id [c])
  /\ fst (Coupon.getCouponByCode 90000000 [c] "save10") = Failure Coupon.HasExpired
  /\ exists c', Coupon.findOne (JSString.toUpperCase "save10") [c] = Some c'
                /\ Coupon.findOne (JSString.toUpperCase "save10")
                     (snd (Coupon.getCouponByCode 90000000 [c] "save10"))
                   = Some (Coupon.set_status Coupon.expired c')
                /\ forall now',
                     succeeded
                       (fst (Coupon.getCouponByCode now'
                               (snd (Coupon.getCouponByCode 90000000 [c] "save10"))
                               "save10"))
                     = false.
Proof.
  intros c.
  assert (NoDup (List.map Coupon._id [c])) as Hnd.
  { simpl. constructor; [intros H; inversion H | constructor]. }
  split; [exact Hnd |]. split; [reflexivity |].
  exact (proj2 (proj2 (getCouponByCode_only_expires 90000000 [c] "save10"%string Hnd))
               eq_refl).
Defined.

(** ** Coupons: creation, update and deletion *)

Section CouponStoreFacts.
Import Coupon.

Lemma find_app_none {A} (p : A -> bool) (l1 l2 : list A) :
  List.find p l1 = None -> List.find p (l1 ++ l2) = List.find p l2.
Proof.
  induction l1 as [|a l1 IH]; simpl; [reflexivity |].
  destruct (p a); [discriminate | exact IH].
Qed.

Lemma fresh_id_above (db : list t) (c : t) :
  List.In c db -> (_id c < fresh_id db)%nat.
Proof.
  unfold fresh_id. induction db as [|a db IH]; simpl; [contradiction |].
  intros [-> | Hin]; [lia |]. specialize (IH Hin). lia.
Qed.

Lemma fresh_id_not_in (db : list t) : ~ List.In (fresh_id db) (List.map _id db).
Proof.
  intros Hin. apply List.in_map_iff in Hin as (c & He & Hc).
  apply fresh_id_above in Hc. lia.
Qed.

Lemma code_taken_false_iff (k : string) (db : list t) :
  code_taken k db = false <-> ~ List.In k (List.map code db).
Proof.
  unfold code_taken. induction db as [|a db IH]; simpl; [tauto |].
  destruct (String.eqb_spec (code a) k) as [He | Hne]; simpl.
  - split; [discriminate | intros H; contradiction H; now left].
  - rewrite IH. tauto.
Qed.

Lemma create_spec (tz : JSDate.Zone) (db db' : list t) (doc c : t) :
  create tz db doc = Some (c, db') ->
  db' = db ++ [c] /\ validate c = true /\ _id c = fresh_id db
  /\ ~ List.In (code c) (List.map code db)
  /\ code c = JSString.toUpperCase (JSString.trim (code doc))
  /\ usedCount c = usedCount doc /\ status c = status doc.
Proof.
  unfold create.
  set (d := mk _ _ _ _ _ _ _ _ _).
  destruct (validate d) eqn:Hv; [| discriminate].
  destruct (code_taken (code (preSave tz d)) db) eqn:Hf; [discriminate |].
  intros [= <- <-].
  destruct (coupon_preSave_fields tz d) as (Hi & Hc & _ & _ & _ & Hs & _ & Hu).
  apply code_taken_false_iff in Hf.
  rewrite preSave_validate, Hi, Hc, Hs, Hu. rewrite Hc in Hf.
  repeat split; auto.
Qed.

Lemma createCoupon_spec (tz : JSDate.Zone) (now : Z) (db : list t)
      (b : CreateBody) :
  (exists st c k,
      createCoupon tz now db b = (Success st c, db ++ [c])
      /\ validate c = true /\ _id c = fresh_id db
      /\ ~ List.In (code c) (List.map code db)
      /\ b_code b = Some k
      /\ code c = JSString.toUpperCase (JSString.trim (JSString.toUpperCase k))
      /\ usedCount c = 0)
  \/ (exists r, createCoupon tz now db b = (Failure r, db)).
Proof.
  destruct (createCoupon tz now db b) as [[st c | r] db'] eqn:H.
  - left. pose proof H as Hcreated.
    apply createCoupon_created
      in H as (doc & Hc & _ & Hused & _ & (k & Hk & Hcode) & _).
    apply create_spec in Hc as (-> & Hv & Hid & Hf & Hcd & Hu & _).
    exists st, c, k. rewrite Hcode in Hcd. rewrite Hused in Hu. auto 10.
  - right. exists r. now rewrite (createCoupon_failure tz now db db' b r H).
Qed.

End CouponStoreFacts.

(** X5.  A coupon that [createCoupon] has stored is found again under its
    stored code, which is in upper case and trimmed: a lookup by any
    spelling that the handler and the setters of the code path turn into
    the stored code, in particular any that upper-cases to it, returns
    the coupon exactly when it is valid at the instant of the lookup. *)
Theorem createCoupon_then_lookup
        (tz : JSDate.Zone) (now : Z) (db db' : list Coupon.t)
        (b : Coupon.CreateBody) (st : Z) (c : Coupon.t)
        (Hcreated : Coupon.createCoupon tz now db b = (Success st c, db')) :
  JSString.toUpperCase (Coupon.code c) = Coupon.code c
  /\ JSString.trim (Coupon.code c) = Coupon.code c
  /\ Coupon.findOne (Coupon.code c) db' = Some c
  /\ (forall now' param,
         JSString.toUpperCase (JSString.trim (JSString.toUpperCase param))
         = Coupon.code c ->
         (fst (Coupon.getCouponByCode now' db' param) = Success 200 [c]
          <-> Coupon.isValid now' c = true))
  /\ (forall now' param,
         JSString.toUpperCase param = Coupon.code c ->
         (fst (Coupon.getCouponByCode now' db' param) = Success 200 [c]
          <-> Coupon.isValid now' c = true)).
Proof.
  destruct (createCoupon_spec tz now db b)
    as [(st' & c' & k & Hc & _ & _ & Hf & _ & Hcode & _) | (r & Hr)];
    [| congruence].
  rewrite Hc in Hcreated. injection Hcreated as <- <- <-.
  assert (JSString.toUpperCase (Coupon.code c') = Coupon.code c') as Hup.
  { rewrite Hcode. apply toUpperCase_idem. }
  assert (JSString.trim (Coupon.code c') = Coupon.code c') as Htrim.
  { rewrite Hcode, <- trim_toUpperCase. apply trim_idem. }
  assert (forall key,
             JSString.toUpperCase (JSString.trim key) = Coupon.code c' ->
             Coupon.findOne key (db ++ [c']) = Some c') as Hfound.
  { intros key Hkey. unfold Coupon.findOne. rewrite find_app_none.
    - simpl. now rewrite Hkey, String.eqb_refl.
    - apply (findOne_None_iff key db). now rewrite Hkey. }
  assert (forall now' param,
             JSString.toUpperCase (JSString.trim (JSString.toUpperCase param))
             = Coupon.code c' ->
             (fst (Coupon.getCouponByCode now' (db ++ [c']) param)
              = Success 200 [c']
              <-> Coupon.isValid now' c' = true)) as Hlookup.
  { intros now' param Hp.
    destruct (getCouponByCode_found now' _ param c' (Hfound _ Hp)) as [Hyes Hno].
    destruct (Coupon.isValid now' c') eqn:Hv.
    - rewrite (Hyes eq_refl). simpl. tauto.
    - destruct (Hno eq_refl) as (r & Hr & _). rewrite Hr. split; discriminate. }
  split; [exact Hup |]. split; [exact Htrim |].
  split; [apply Hfound; now rewrite Htrim |].
  split; [exact Hlookup |].
  intros now' param Hp. apply Hlookup. now rewrite Hp, Htrim.
Qed.

Lemma createCoupon_then_lookup_witness :
  let body := {| Coupon.b_code := Some " save10 ";
                 Coupon.b_discount := Some 10;
                 Coupon.b_startDate := Some 1706695200000;
                 Coupon.b_validityDays := Some 1;
                 Coupon.b_status := None;
                 Coupon.b_usageLimit := None |} in
  exists c db',
    Coupon.createCoupon (JSDate.fixed 0) 1700000000000 [] body
    = (Success 201 c, db')
    /\ Coupon.code c = "SAVE10"%string
    /\ fst (Coupon.getCouponByCode 1706695200001 db' "Save10") = Success 200 [c].
Proof.
  intros body. eexists. eexists.
  match goal with
  | |- ?eq /\ _ => assert eq as H by (vm_compute; reflexivity)
  end.
  split; [exact H |]. split; [reflexivity |].
  apply (proj2 (proj2 (proj2 (proj2
           (createCoupon_then_lookup _ _ _ _ _ _ _ H))))).
  - reflexivity.
  - vm_compute. reflexivity.
Defined.

Section WellFormedFacts.
Import Coupon.

Lemma NoDup_snoc {A} (l : list A) (x : A) :
  NoDup l -> ~ List.In x l -> NoDup (l ++ [x]).
Proof.
  intros Hl Hx. apply NoDup_app. split; [exact Hl |]. split.
  - intros y Hy Hyx. apply list_elem_of_In in Hy.
    apply list_elem_of_In in Hyx. destruct Hyx as [<- | []]. contradiction.
  - apply NoDup_singleton.
Qed.

Lemma validate_bounds (c : t) :
  validate c = true ->
  0 <= discount c <= 100 /\ 1 <= validityDays c /\ 0 <= usedCount c
  /\ code c <> ""%string
  /\ (forall l, usageLimit c = Some l -> 0 <= l).
Proof.
  unfold validate. rewrite !andb_true_iff, !Z.leb_le, negb_true_iff.
  intros [[[[[[Hc _] Hd1] Hd2] Hv] Hl] Hu].
  repeat split; try assumption.
  - intros He. rewrite He in Hc. discriminate.
  - intros l Hsome. rewrite Hsome in Hl. now apply Z.leb_le.
Qed.

End WellFormedFacts.

(** X6.  [createCoupon] keeps the collection well formed (distinct ids,
    distinct codes, every document within the schema bounds).  A failure
    leaves the collection as it was; a success appends exactly one
    document, with a new id, a code no document had, a used count of 0, a
    discount within 0..100 and at least one day of validity. *)
Theorem createCoupon_keeps_well_formed
        (tz : JSDate.Zone) (now : Z) (db : list Coupon.t)
        (b : Coupon.CreateBody)
        (Hwf : Coupon.well_formed db) :
  let r := Coupon.createCoupon tz now db b in
  Coupon.well_formed (snd r)
  /\ (succeeded (fst r) = false -> snd r = db)
  /\ (forall st c, fst r = Success st c ->
                   snd r = db ++ [c]
                   /\ ~ List.In (Coupon._id c) (List.map Coupon._id db)
                   /\ ~ List.In (Coupon.code c) (List.map Coupon.code db)
                   /\ Coupon.usedCount c = 0
                   /\ 0 <= Coupon.discount c <= 100
                   /\ 1 <= Coupon.validityDays c).
Proof.
  intros r. subst r. destruct Hwf as (Hids & Hcodes & Hval).
  destruct (createCoupon_spec tz now db b)
    as [(st & c & k & Hc & Hv & Hid & Hf & _ & _ & Hused) | (f & Hf)].
  - rewrite Hc. simpl.
    assert (~ List.In (Coupon._id c) (List.map Coupon._id db)) as Hnew_id
        by (rewrite Hid; apply fresh_id_not_in).
    pose proof Hf as Hnew_code.
    split; [| split].
    + unfold Coupon.well_formed. rewrite !List.map_app. simpl.
      split; [now apply NoDup_snoc |]. split; [now apply NoDup_snoc |].
      apply Forall_app. split; [exact Hval |]. now constructor.
    + discriminate.
    + intros st' c' [= <- <-].
      destruct (validate_bounds c Hv) as (Hd & Hdays & _).
      auto 10.
  - rewrite Hf. simpl. split; [now repeat split |].
    split; [reflexivity | discriminate].
Qed.

Lemma createCoupon_keeps_well_formed_witness :
  let body := {| Coupon.b_code := Some "save10";
                 Coupon.b_discount := Some 10;
                 Coupon.b_startDate := None;
                 Coupon.b_validityDays := Some 3;
                 Coupon.b_status := None;
                 Coupon.b_usageLimit := Some 5 |} in
  Coupon.well_formed []
  /\ Coupon.well_formed (snd (Coupon.createCoupon (JSDate.fixed 0) 1700000000000 [] body))
  /\ List.length (snd (Coupon.createCoupon (JSDate.fixed 0) 1700000000000 [] body)) = 1%nat.
Proof.
  intros body.
  assert (Coupon.well_formed []) as Hwf.
  { repeat split; simpl; constructor. }
  split; [exact Hwf |]. split; [| reflexivity].
  exact (proj1 (createCoupon_keeps_well_formed (JSDate.fixed 0) 1700000000000 [] body Hwf)).
Defined.

Section CouponUpdateFacts.
Import Coupon.

Lemma findById_Some (i : nat) (db : list t) (c : t) :
  findById i db = Some c -> List.In c db /\ _id c = i.
Proof.
  unfold findById. intros H. apply List.find_some in H as [Hin He].
  split; [exact Hin | now apply Nat.eqb_eq].
Qed.












End CouponUpdateFacts.





Section CouponDeleteFacts.
Import Coupon.

Lemma delete_incl (i : nat) (db : list t) (b : t) :
  List.In b (findByIdAndDelete i db) -> List.In b db.
Proof.
  induction db as [|a db IH]; simpl; [tauto |].
  destruct (Nat.eqb (_id a) i); [now right |].
  intros [-> | H]; [now left | right; now apply IH].
Qed.

Lemma delete_NoDup_map {B} (f : t -> B) (i : nat) (db : list t) :
  NoDup (List.map f db) -> NoDup (List.map f (findByIdAndDelete i db)).
Proof.
  induction db as [|a db IH]; simpl; [auto |].
  intros Hnd. apply NoDup_cons in Hnd as [Ha Hnd].
  destruct (Nat.eqb (_id a) i); [exact Hnd |].
  simpl. apply NoDup_cons. split; [| now apply IH].
  rewrite list_elem_of_In in *. intros Hin. apply Ha.
  apply List.in_map_iff in Hin as (b & Hb & Hbin).
  rewrite <- Hb. apply List.in_map. now apply (delete_incl i).
Qed.

Lemma delete_In (i : nat) (db : list t) (c b : t) :
  NoDup (List.map _id db) -> findById i db = Some c ->
  (List.In b (findByIdAndDelete i db) <-> List.In b db /\ b <> c).
Proof.
  unfold findById.
  induction db as [|a db IH]; simpl; [discriminate |].
  intros Hnd. apply NoDup_cons in Hnd as [Ha Hnd].
  rewrite list_elem_of_In in Ha.
  destruct (Nat.eqb_spec (_id a) i) as [He | Hne].
  - intros [= <-]. split.
    + intros Hb. split; [now right |]. intros ->. apply Ha. now apply List.in_map.
    + intros [[-> | Hb] Hn]; [contradiction | exact Hb].
  - intros Hf. simpl. rewrite (IH Hnd Hf).
    assert (a <> c).
    { intros ->. apply List.find_some in Hf as [_ Hc].
      apply Nat.eqb_eq in Hc. contradiction. }
    split.
    + intros [-> | [Hb Hn]]; [split; [now left | assumption] |].
      split; [now right | exact Hn].
    + intros [[-> | Hb] Hn]; [now left | right; now split].
Qed.

End CouponDeleteFacts.

(** X9.  [deleteCoupon] answers 404 and changes nothing when no document
    has the id.  Otherwise, in a well-formed collection, it removes that
    document and no other, the collection stays well formed, the id is no
    longer found, and a later lookup by the deleted coupon's code (by
    any parameter that the handler and the setters of the code path turn
    into that code) answers 404. *)
Theorem deleteCoupon_removes_the_coupon
        (db : list Coupon.t) (id : nat) (Hwf : Coupon.well_formed db) :
  let r := Coupon.deleteCoupon db id in
  Coupon.well_formed (snd r)
  /\ (Coupon.findById id db = None -> r = (Failure Coupon.UNotFound, db))
  /\ (forall c, Coupon.findById id db = Some c ->
                fst r = Success 200 tt
                /\ Coupon.findById id (snd r) = None
                /\ (forall b, List.In b (snd r) <-> List.In b db /\ b <> c)
                /\ (forall now param,
                       JSString.toUpperCase
                         (JSString.trim (JSString.toUpperCase param))
                       = Coupon.code c ->
                       Coupon.getCouponByCode now (snd r) param
                       = (Failure Coupon.NotFound, snd r))
                /\ (forall now param,
                       JSString.toUpperCase param = Coupon.code c ->
                       JSString.trim (Coupon.code c) = Coupon.code c ->
                       Coupon.getCouponByCode now (snd r) param
                       = (Failure Coupon.NotFound, snd r))).
Proof.
  intros r. subst r. destruct Hwf as (Hids & Hcodes & Hval).
  unfold Coupon.deleteCoupon.
  destruct (Coupon.findById id db) as [c|] eqn:Hf; simpl.
  2:{ split; [now repeat split |]. split; [reflexivity | discriminate]. }
  pose proof (delete_In id db c) as HIn.
  destruct (findById_Some id db c Hf) as [Hcin Hcid].
  split; [| split; [discriminate |]].
  - split; [now apply delete_NoDup_map |].
    split; [now apply delete_NoDup_map |].
    rewrite Forall_forall in *. intros b Hb. apply Hval.
    apply list_elem_of_In. apply list_elem_of_In in Hb. now apply (delete_incl id).
  - intros c' [= <-]. split; [reflexivity |].
    assert (forall b, List.In b (Coupon.findByIdAndDelete id db)
                      <-> List.In b db /\ b <> c) as Hiff
        by (intros b; now apply HIn).
    assert (forall now param,
               JSString.toUpperCase
                 (JSString.trim (JSString.toUpperCase param))
               = Coupon.code c ->
               Coupon.getCouponByCode now (Coupon.findByIdAndDelete id db) param
               = (Failure Coupon.NotFound, Coupon.findByIdAndDelete id db))
      as Hgone.
    { intros now param Hp. apply getCouponByCode_missing.
      apply findOne_None_iff. rewrite Hp. intros Hin.
      apply List.in_map_iff in Hin as (b & Hbc & Hbin).
      apply Hiff in Hbin as [Hbin Hne]. apply Hne.
      now apply (NoDup_map_injective Coupon.code db b c Hcodes Hbin Hcin). }
    split; [| split; [exact Hiff | split; [exact Hgone |]]].
    + destruct (Coupon.findById id (Coupon.findByIdAndDelete id db)) as [b|] eqn:Hb;
        [| reflexivity].
      apply findById_Some in Hb as [Hbin Hbid].
      apply Hiff in Hbin as [Hbin Hne]. contradiction Hne.
      apply (NoDup_map_injective Coupon._id db b c Hids Hbin Hcin). congruence.
    + intros now param Hp Htrim. apply Hgone.
      rewrite Hp, Htrim, <- Hp. apply toUpperCase_idem.
Qed.

Lemma deleteCoupon_witness :
  let c1 := Coupon.mk 1 "SAVE10" 10 1000 1 86401000 Coupon.active None 0 in
  Coupon.well_formed [c1]
  /\ Coupon.findById 1 [c1] = Some c1
  /\ Coupon.getCouponByCode 2000 (snd (Coupon.deleteCoupon [c1] 1)) "save10"
     = (Failure Coupon.NotFound, snd (Coupon.deleteCoupon [c1] 1)).
Proof.
  intros c1.
  assert (Coupon.well_formed [c1]) as Hwf.
  { unfold Coupon.well_formed. simpl. split; [| split].
    - apply NoDup_singleton.
    - apply NoDup_singleton.
    - repeat constructor. }
  split; [exact Hwf |]. split; [reflexivity |].
  destruct (proj2 (proj2 (deleteCoupon_removes_the_coupon [c1] 1%nat Hwf)) c1 eq_refl)
    as (_ & _ & _ & Hlookup & _).
  exact (Hlookup 2000 "save10"%string eq_refl).
Defined.

(** ** Banners: the save hook and the handlers *)

(** X10.  Whenever the save hook changes the status of a banner, the new
    status is the one the virtual [currentStatus] reports at that
    instant.  Saving again at the same instant changes nothing more; an
    expired or inactive banner is never changed; and no banner returns to
    pending. *)
Theorem banner_preSave_writes_currentStatus (now : Z) (b : Banner.t) :
  (Banner.status (Banner.preSave now b) <> Banner.status b ->
   Banner.status (Banner.preSave now b) = Banner.currentStatus now b)
  /\ Banner.preSave now (Banner.preSave now b) = Banner.preSave now b
  /\ (Banner.status b = Banner.expired \/ Banner.status b = Banner.inactive ->
      forall now', Banner.preSave now' b = b)
  /\ (Banner.status (Banner.preSave now b) = Banner.pending ->
      Banner.status b = Banner.pending).
Proof.
  assert (Banner.status b = Banner.expired \/ Banner.status b = Banner.inactive ->
          forall now', Banner.preSave now' b = b) as Hfixed.
  { intros Hs now'. unfold Banner.preSave. destruct b as [img d s e l st].
    simpl in *. destruct Hs as [-> | ->]; simpl;
      rewrite !andb_false_r; reflexivity. }
  split; [| split; [| split; [exact Hfixed |]]];
    unfold Banner.preSave, Banner.currentStatus;
    destruct b as [img d s e l st]; simpl;
    destruct (s <=? now) eqn:H1, (now <=? e) eqn:H2; destruct st; simpl;
    destruct (e <? now) eqn:H3; clear Hfixed;
    repeat (progress (simpl; rewrite ?H1, ?H2, ?H3));
    intros; try reflexivity; try congruence;
    rewrite ?Z.leb_le, ?Z.leb_gt, ?Z.ltb_lt, ?Z.ltb_ge in *; lia.
Qed.

Lemma banner_preSave_currentStatus_witness :
  let b := Banner.mk "spring.png" 10 100 200 None Banner.active in
  Banner.status (Banner.preSave 300 b) <> Banner.status b
  /\ Banner.status (Banner.preSave 300 b) = Banner.currentStatus 300 b.
Proof.
  intros b.
  assert (Banner.status (Banner.preSave 300 b) <> Banner.status b) as H
      by discriminate.
  split; [exact H |].
  exact (proj1 (banner_preSave_writes_currentStatus 300 b) H).
Defined.

Section BannerFacts.
Import Banner.

Lemma unlink_gone (p : string) (fs : gset string) : p ∉ unlinkIfExists p fs.
Proof.
  unfold unlinkIfExists. destruct (decide (p ∈ fs)) as [Hin | Hout].
  - rewrite bool_decide_eq_true_2 by exact Hin.
    rewrite elem_of_difference, elem_of_singleton. tauto.
  - rewrite bool_decide_eq_false_2 by exact Hout. exact Hout.
Qed.

Lemma unlink_others (p q : string) (fs : gset string) :
  q <> p -> (q ∈ unlinkIfExists p fs <-> q ∈ fs).
Proof.
  intros Hne. unfold unlinkIfExists. destruct (decide (p ∈ fs)) as [Hin | Hout].
  - rewrite bool_decide_eq_true_2 by exact Hin.
    rewrite elem_of_difference, elem_of_singleton. tauto.
  - rewrite bool_decide_eq_false_2 by exact Hout. reflexivity.
Qed.

Lemma fresh_lookup_None {A} (m : gmap nat A) : m !! fresh (dom m) = None.
Proof. apply not_elem_of_dom. apply is_fresh. Qed.

Lemma create_spec_banner (now : Z) (bs bs' : gmap nat t) (doc banner : t) :
  create now bs doc = Some (banner, bs') ->
  banner = preSave now (mk (image doc) (days doc) (startDate doc) (endDate doc)
                           (option_map JSString.trim (link doc)) (status doc))
  /\ bs' = <[fresh (dom bs) := banner]> bs
  /\ 1 <= days doc /\ image doc <> ""%string.
Proof.
  unfold create.
  match goal with
  | |- (if ?v then _ else _) = _ -> _ => destruct v eqn:Hv; [| discriminate]
  end.
  intros [= <- <-]. unfold validate in Hv. simpl in Hv.
  apply andb_true_iff in Hv as [Hi Hd].
  apply Z.leb_le in Hd. apply negb_true_iff in Hi.
  repeat split; try assumption.
  intros He. rewrite He in Hi. discriminate.
Qed.

Lemma preSave_fields (now : Z) (b : t) :
  image (preSave now b) = image b /\ days (preSave now b) = days b
  /\ startDate (preSave now b) = startDate b
  /\ endDate (preSave now b) = endDate b
  /\ link (preSave now b) = link b.
Proof.
  unfold preSave.
  destruct ((startDate b <=? now) && (now <=? endDate b)
            && status_eqb (status b) pending)%bool; simpl;
    match goal with
    | |- context [if ?c then _ else _] => destruct c
    end; simpl; auto.
Qed.

Lemma truthy_num_Some (o : option Z) :
  truthy_num o = true <-> exists n, o = Some n /\ n <> 0.
Proof.
  destruct o as [n|]; simpl.
  - rewrite negb_true_iff, Z.eqb_neq. split.
    + intros H. exists n. auto.
    + intros (m & [= <-] & H). exact H.
  - split; [discriminate | intros (m & H & _); discriminate].
Qed.

(** The ways [createBanner] ends. *)
Lemma createBanner_cases (tz : JSDate.Zone) (now : Z) (st : Store)
      (b : CreateBody) (file : option string) :
  let r := createBanner tz now st b file in
  r = (Failure MissingFields, st)
  \/ r = (Failure ImageRequired, st)
  \/ (exists f,
         file = Some f /\ f <> ""%string
         /\ r = (Failure CreateFailed,
                 mkStore (banners st) (unlinkIfExists f (files st))))
  \/ (exists f s d n e stt banner bs,
         file = Some f
         /\ b_startDate b = Some s /\ s <> 0 /\ Z.abs s <= JSDate.maxTime
         /\ b_days b = Some d /\ d <> 0 /\ JS.parseInt_int d = Some n
         /\ JSDate.addDays tz s n = Some e
         /\ stt = (if JSString.truthy (b_status b)
                   then parse_status (default "" (b_status b))
                   else Some pending)
         /\ (exists s0, stt = Some s0
                        /\ create now (banners st) (mk f n s e (b_link b) s0)
                           = Some (banner, bs))
         /\ r = (Success 201 banner, mkStore bs (files st))).
Proof.
  intros r. subst r. unfold createBanner.
  destruct (truthy_num (b_startDate b)) eqn:Hs; simpl; [| now left].
  destruct (truthy_num (b_days b)) eqn:Hd; simpl; [| now left].
  destruct file as [[|ch f]|]; simpl; try (right; now left).
  apply truthy_num_Some in Hs as (s & Hs & Hs0).
  apply truthy_num_Some in Hd as (d & Hd & Hd0).
  rewrite Hs, Hd. simpl.
  assert (String ch f <> ""%string) as Hne by discriminate.
  destruct (JSDate.TimeClip s) as [s'|] eqn:Hclip;
    [| right; right; left; eauto].
  pose proof (TimeClip_range s s' Hclip) as Hrange.
  apply TimeClip_Some in Hclip. subst s'.
  destruct (JS.parseInt_int d) as [n|] eqn:Hn; [| right; right; left; eauto].
  destruct (if JSString.truthy (b_status b) then _ else _) as [s0|] eqn:Hst;
    [| right; right; left; eauto].
  destruct (JSDate.addDays tz s n) as [e|] eqn:He;
    [| right; right; left; eauto].
  destruct (create now (banners st) _) as [[banner bs]|] eqn:Hc;
    [| right; right; left; eauto].
  right. right. right.
  exists (String ch f), s, d, n, e, (Some s0), banner, bs.
  repeat split; auto. exists s0. auto.
Qed.

End BannerFacts.

(** X11.  A banner that [createBanner] stores has the uploaded file as its
    image, the start date of the request, [parseInt] of its day count
    (the day count itself when that is below [10^21], and at least one
    day), and an end date that is the start date moved on by that many
    calendar days, which with a fixed offset is the start date plus that
    many times 86400000 ms; it is stored under a new id, beside the
    existing banners, and the uploaded file stays.  When the request
    names no status, the stored status is active if the instant of
    creation lies within the window and pending otherwise, so never
    expired.  A request refused for a missing field or a missing image
    leaves the store as it was; a creation that fails afterwards leaves
    the banners as they were and removes the uploaded file. *)
Theorem createBanner_result
        (tz : JSDate.Zone) (now : Z) (st : Banner.Store) (b : Banner.CreateBody)
        (file : option string) :
  let r := Banner.createBanner tz now st b file in
  (forall code banner,
      fst r = Success code banner ->
      code = 201
      /\ Some (Banner.image banner) = file
      /\ Some (Banner.startDate banner) = Banner.b_startDate b
      /\ (exists d, Banner.b_days b = Some d
                    /\ JS.parseInt_int d = Some (Banner.days banner)
                    /\ (Z.abs d < 10 ^ 21 -> Banner.days banner = d))
      /\ 1 <= Banner.days banner
      /\ Banner.endDate banner
         = JSDate.plusDays tz (Banner.startDate banner) (Banner.days banner)
      /\ (forall tza, tz = JSDate.fixed tza ->
                      Banner.endDate banner
                      = Banner.startDate banner
                        + Banner.days banner * JSDate.msPerDay)
      /\ Banner.files (snd r) = Banner.files st
      /\ Banner.banners st !! fresh (dom (Banner.banners st)) = None
      /\ Banner.banners (snd r)
         = <[fresh (dom (Banner.banners st)) := banner]> (Banner.banners st)
      /\ (JSString.truthy (Banner.b_status b) = false ->
          Banner.status banner
          = if ((Banner.startDate banner <=? now)
                && (now <=? Banner.endDate banner))%bool
            then Banner.active else Banner.pending))
  /\ (fst r = Failure Banner.MissingFields \/ fst r = Failure Banner.ImageRequired ->
      snd r = st)
  /\ (fst r = Failure Banner.CreateFailed ->
      Banner.banners (snd r) = Banner.banners st
      /\ forall f, file = Some f -> f ∉ Banner.files (snd r)).
Proof.
  intros r.
  destruct (createBanner_cases tz now st b file)
    as [Hr | [Hr | [(f & Hfile & Hne & Hr)
                   | (f & s & d & n & e & stt & banner & bs & Hfile & Hs & Hs0
                      & Hrange & Hd & Hd0 & Hn & He & Hstt & (s0 & Hs0' & Hc)
                      & Hr)]]];
    fold r in Hr; rewrite Hr; simpl.
  - split; [discriminate |]. split; [reflexivity | discriminate].
  - split; [discriminate |]. split; [reflexivity | discriminate].
  - split; [discriminate |]. split; [intros [H | H]; discriminate H |].
    intros _. split; [reflexivity |]. intros f' Hf'.
    assert (f' = f) as -> by congruence. apply unlink_gone.
  - split; [| split; [intros [H | H]; discriminate H | discriminate]].
    intros code banner' [= <- <-].
    apply create_spec_banner in Hc as (Hb & -> & Hdays & _). simpl in *.
    match type of Hb with
    | _ = Banner.preSave now ?doc =>
        pose proof (preSave_fields now doc) as (Hi & Hdy & Hstart & Hend & _)
    end.
    rewrite <- Hb in Hi, Hdy, Hstart, Hend. simpl in *.
    apply addDays_Some_plusDays in He as [He _].
    rewrite Hi, Hdy, Hstart, Hend.
    split; [reflexivity |]. split; [now rewrite Hfile |].
    split; [now rewrite Hs |]. split.
    { exists d. split; [exact Hd |]. split; [exact Hn |].
      intros Hsmall. rewrite (parseInt_int_id d Hsmall) in Hn. congruence. }
    split; [exact Hdays |]. split; [exact He |]. split.
    { intros tza ->. rewrite He. apply plusDays_fixed. }
    split; [reflexivity |]. split; [apply fresh_lookup_None |].
    split; [reflexivity |].
    intros Hno. rewrite Hno in Hstt. subst stt. injection Hs0' as <-.
    rewrite Hb. unfold Banner.preSave. simpl.
    destruct (s <=? now) eqn:H1, (now <=? e) eqn:H2; simpl;
      rewrite ?andb_false_r; try reflexivity.
    destruct (e <? now) eqn:H3; [| reflexivity].
    rewrite Z.leb_le in H2. rewrite Z.ltb_lt in H3. lia.
Qed.

Lemma createBanner_result_witness :
  let st := Banner.mkStore ∅ {[ "spring.png"%string ]} in
  let b := {| Banner.b_days := Some 10; Banner.b_startDate := Some 1000;
              Banner.b_link := None; Banner.b_status := None |} in
  exists banner st',
    Banner.createBanner (JSDate.fixed 0) 2000 st b (Some "spring.png"%string)
    = (Success 201 banner, st')
    /\ Banner.status banner = Banner.active
    /\ Banner.endDate banner = 1000 + 10 * JSDate.msPerDay.
Proof.
  intros st b. eexists. eexists.
  match goal with
  | |- ?eq /\ _ => assert eq as H by (vm_compute; reflexivity)
  end.
  split; [exact H |]. split; [reflexivity |].
  pose proof (proj1 (createBanner_result (JSDate.fixed 0) 2000 st b
                       (Some "spring.png"%string))) as Hr.
  rewrite H in Hr.
  destruct (Hr _ _ eq_refl) as (_ & _ & _ & _ & _ & _ & He & _).
  exact (He 0 eq_refl).
Defined.

Section BannerUpdateFacts.
Import Banner.


Lemma createBanner_success (tz : JSDate.Zone) (now : Z) (st st' : Store)
      (b : CreateBody) (file : option string) (code : Z) (banner : t) :
  createBanner tz now st b file = (Success code banner, st') ->
  banners st !! fresh (dom (banners st)) = None
  /\ banners st' = <[fresh (dom (banners st)) := banner]> (banners st)
  /\ files st' = files st.
Proof.
  intros H.
  destruct (createBanner_cases tz now st b file)
    as [Hr | [Hr | [(f & _ & _ & Hr)
                   | (f & s & d & n & e & stt & banner' & bs & _ & _ & _ & _
                      & _ & _ & _ & _ & _ & (s0 & _ & Hc) & Hr)]]];
    rewrite H in Hr; try discriminate.
  injection Hr as -> -> ->.
  apply create_spec_banner in Hc as (_ & -> & _).
  simpl. split; [apply fresh_lookup_None | split; reflexivity].
Qed.

End BannerUpdateFacts.



(** X13.  [updateBanner] touches the upload directory only when a file is
    uploaded: without one the files stay as they are; with one, the file
    of the banner's old image is gone afterwards and every other file is
    as before, whether the update then succeeds or fails.  An unknown id
    is a 404 that changes nothing. *)
Theorem updateBanner_files
        (tz : JSDate.Zone) (st : Banner.Store) (id : nat)
        (u : Banner.UpdateBody) (file : option string) :
  let r := Banner.updateBanner tz st id u file in
  (Banner.banners st !! id = None -> r = (Failure Banner.NotFound, st))
  /\ (file = None -> Banner.files (snd r) = Banner.files st)
  /\ (forall old f,
         Banner.banners st !! id = Some old -> file = Some f ->
         Banner.image old <> ""%string ->
         (Banner.image old ∉ Banner.files (snd r))
         /\ forall q, q <> Banner.image old ->
                      (q ∈ Banner.files (snd r) <-> q ∈ Banner.files st)).
Proof.
  intros r. subst r. unfold Banner.updateBanner.
  destruct (Banner.banners st !! id) as [old|] eqn:Hf.
  2:{ split; [reflexivity |]. split; [reflexivity |]. discriminate. }
  split; [discriminate |].
  match goal with
  | |- context [Banner.apply_update u ?e ?i old] =>
      destruct (Banner.apply_update u e i old) as [b|]
  end; simpl.
  - split; [intros ->; reflexivity |].
    intros old' f [= <-] -> Hne.
    destruct (Banner.image old) as [|ch img] eqn:Hi; [contradiction |]. simpl.
    split; [apply unlink_gone | intros q Hq; now apply unlink_others].
  - split; [intros ->; reflexivity |].
    intros old' f [= <-] -> Hne.
    destruct (Banner.image old) as [|ch img] eqn:Hi; [contradiction |]. simpl.
    split; [apply unlink_gone | intros q Hq; now apply unlink_others].
Qed.

Lemma updateBanner_files_witness :
  let old := Banner.mk "spring.png" 10 1000 864001000 None Banner.pending in
  let st := Banner.mkStore {[ 4%nat := old ]}
                           {[ "spring.png"%string; "summer.png"%string ]} in
  let u := {| Banner.u_days := Some 0; Banner.u_startDate := None;
              Banner.u_endDate := None; Banner.u_link := None;
              Banner.u_status := None; Banner.u_image := None |} in
  let r := Banner.updateBanner (JSDate.fixed 0) st 4 u (Some "summer.png"%string) in
  fst r = Failure Banner.UpdateFailed
  /\ Banner.image old ∉ Banner.files (snd r).
Proof.
  intros old st u r. split; [reflexivity |].
  assert (Banner.image old <> ""%string) as Hne by discriminate.
  exact (proj1 (proj2 (proj2 (updateBanner_files (JSDate.fixed 0) st 4%nat u
                                (Some "summer.png"%string)))
                      old "summer.png"%string eq_refl eq_refl Hne)).
Defined.

(** X14.  [deleteBanner] answers 404 and changes nothing for an unknown
    id; otherwise it removes the banner and the file of its image and
    nothing else.  Deleting the banner that [createBanner] has just stored
    gives back the banners as they were before the creation. *)
Theorem deleteBanner_undoes_createBanner (st : Banner.Store) (id : nat) :
  (Banner.banners st !! id = None ->
   Banner.deleteBanner st id = (Failure Banner.NotFound, st))
  /\ (forall banner,
         Banner.banners st !! id = Some banner ->
         Banner.image banner <> ""%string ->
         fst (Banner.deleteBanner st id) = Success 200 tt
         /\ Banner.banners (snd (Banner.deleteBanner st id))
            = delete id (Banner.banners st)
         /\ (Banner.image banner ∉ Banner.files (snd (Banner.deleteBanner st id)))
         /\ forall q, q <> Banner.image banner ->
                      (q ∈ Banner.files (snd (Banner.deleteBanner st id))
                       <-> q ∈ Banner.files st))
  /\ (forall tz now st0 b file code banner,
         Banner.createBanner tz now st0 b file = (Success code banner, st) ->
         id = fresh (dom (Banner.banners st0)) ->
         Banner.banners (snd (Banner.deleteBanner st id)) = Banner.banners st0).
Proof.
  assert (forall banner,
             Banner.banners st !! id = Some banner ->
             Banner.banners (snd (Banner.deleteBanner st id))
             = delete id (Banner.banners st)) as Hdel.
  { intros banner Hf. unfold Banner.deleteBanner. rewrite Hf. reflexivity. }
  split; [| split].
  - intros Hf. unfold Banner.deleteBanner. now rewrite Hf.
  - intros banner Hf Hne. split; [| split; [now apply (Hdel banner) |]].
    + unfold Banner.deleteBanner. now rewrite Hf.
    + unfold Banner.deleteBanner. rewrite Hf.
      destruct (Banner.image banner) as [|ch img] eqn:Hi; [contradiction |].
      simpl. split; [apply unlink_gone | intros q Hq; now apply unlink_others].
  - intros tz now st0 b file code banner Hc ->.
    apply createBanner_success in Hc as (Hnone & Hbs & _).
    rewrite (Hdel banner).
    + rewrite Hbs. rewrite delete_insert_eq. now apply delete_id.
    + rewrite Hbs. apply lookup_insert_eq.
Qed.

Lemma deleteBanner_undoes_createBanner_witness :
  let st0 := Banner.mkStore ∅ {[ "spring.png"%string ]} in
  let b := {| Banner.b_days := Some 10; Banner.b_startDate := Some 1000;
              Banner.b_link := None; Banner.b_status := None |} in
  let r := Banner.createBanner (JSDate.fixed 0) 2000 st0 b
                                (Some "spring.png"%string) in
  succeeded (fst r) = true
  /\ Banner.banners (snd (Banner.deleteBanner (snd r) 0)) = Banner.banners st0.
Proof.
  intros st0 b r. split; [reflexivity |].
  assert (exists banner, r = (Success 201 banner, snd r)) as [banner Hr]
      by (eexists; vm_compute; reflexivity).
  exact (proj2 (proj2 (deleteBanner_undoes_createBanner (snd r) 0%nat))
               (JSDate.fixed 0) 2000 st0 b (Some "spring.png"%string) 201 banner
               Hr eq_refl).
Defined.

(** ** Orders: what the handlers keep *)

Section OrderFacts.
Import Order.

(** A quantity that fails the conversion to a number fails [parseInt]
    too. *)
Lemma ToNumber_parseInt (q : JS.Value) :
  JS.ToNumber q = None -> JS.parseInt q = None.
Proof.
  unfold JS.parseInt. intros H.
  destruct q as [| | flag | n | s | items | fields]; try discriminate H.
  - change (option_map JS.StringToNumber (JS.ToString (JS.VArr items)) = None)
      in H.
    destruct (JS.ToString (JS.VArr items)); [discriminate H | reflexivity].
  - change (option_map JS.StringToNumber (JS.ToString (JS.VObj fields)) = None)
      in H.
    destruct (JS.ToString (JS.VObj fields)); [discriminate H | reflexivity].
Qed.

(** What a successful reservation has done. *)
Lemma reserve_found (ps ps' : gmap nat Product.t) (pid : nat) (q : JS.Value)
      (p : Product.t) :
  ps !! pid = Some p -> reserve ps pid q = inr ps' ->
  exists m n,
    JS.ToNumber q = Some m
    /\ JS.lt (JS.Fin (Product.stock p) 0) m = false
    /\ JS.parseInt q = Some (Some n)
    /\ ps' = <[pid := Product.mk (Product.stock p - n)
                                 (if Product.stock p - n =? 0 then false
                                  else Product.inStock p)
                                 (Product.category p)]> ps.
Proof.
  intros Hp. unfold reserve. rewrite Hp.
  destruct (JS.ToNumber q) as [m|]; [| discriminate].
  destruct (JS.lt _ m) eqn:Hlt; [discriminate |].
  destruct (JS.parseInt q) as [[n|]|]; try discriminate.
  intros [= <-]. exists m, n. auto.
Qed.



Lemma create_order_spec (today : Z) (os os' : gmap nat t) (doc o : t) :
  create today os doc = Some (o, os') ->
  os' = <[fresh (dom os) := o]> os
  /\ product o = product doc /\ quantity o = quantity doc
  /\ status o = status doc /\ 1 <= quantity o
  /\ orderNumber o = JSString.toUpperCase (JSString.trim (orderNumber doc))
  /\ number_taken (orderNumber o) os = false.
Proof.
  unfold create.
  match goal with
  | |- (if ?c then _ else _) = _ -> _ => destruct c eqn:Hc; [| discriminate]
  end.
  intros [= <- <-]. simpl in *.
  rewrite !andb_true_iff in Hc.
  destruct Hc as [[[[[[Hq _] _] _] _] _] Hn].
  apply Z.leb_le in Hq. apply negb_true_iff in Hn. auto 10.
Qed.

(** What a successful [createOrder] has stored. *)
Lemma createOrder_success (now today : Z) (st st1 : Store) (b : CreateBody)
      (code : Z) (o : t) :
  createOrder now today st b = (Success code o, st1) ->
  rejected now today b = None
  /\ match b_product b with
     | Some pid => reserve (products st) pid (b_quantity b)
     | None => inr (products st)
     end = inr (products st1)
  /\ orders st1 = <[fresh (dom (orders st)) := o]> (orders st)
  /\ product o = b_product b
  /\ JS.parseInt (b_quantity b) = Some (Some (quantity o))
  /\ 1 <= quantity o
  /\ orderNumber o = JSString.toUpperCase (orderNumber o)
  /\ number_taken (orderNumber o) (orders st) = false
  /\ (JSString.truthy (b_status b) = false -> status o = pending)
  /\ code = 201.
Proof.
  unfold createOrder.
  destruct (rejected now today b); [discriminate |].
  destruct (match b_product b with Some _ => _ | None => _ end) as [r | ps];
    [discriminate |].
  destruct (if JSString.truthy (b_status b) then _ else _) as [s|] eqn:Hs;
    [| discriminate].
  destruct (JS.parseInt (b_quantity b)) as [[quantity|]|]; try discriminate.
  match goal with
  | |- context [create today ?os ?d] =>
      destruct (create today os d) as [[o' os']|] eqn:Hc; [| discriminate]
  end.
  intros [= <- <- <-].
  apply create_order_spec in Hc as (-> & Hp & Hq & Hst & Hq1 & Hn & Ht).
  simpl in *. split; [reflexivity |]. split; [reflexivity |].
  split; [reflexivity |]. split; [exact Hp |]. split; [now rewrite Hq |].
  split; [exact Hq1 |]. split; [| split; [exact Ht | split; [| reflexivity]]].
  - rewrite Hn. symmetry. apply toUpperCase_idem.
  - intros Hno. rewrite Hno in Hs. rewrite Hst. congruence.
Qed.

(** The store after [createOrder], whatever the answer. *)
Lemma createOrder_store (now today : Z) (st : Store) (b : CreateBody) :
  snd (createOrder now today st b) = st
  \/ exists ps,
       match b_product b with
       | Some pid => reserve (products st) pid (b_quantity b)
       | None => inr (products st)
       end = inr ps
       /\ products (snd (createOrder now today st b)) = ps
       /\ (orders (snd (createOrder now today st b)) = orders st
           \/ exists o, fst (createOrder now today st b) = Success 201 o
                        /\ 1 <= quantity o
                        /\ orders st !! fresh (dom (orders st)) = None
                        /\ orders (snd (createOrder now today st b))
                           = <[fresh (dom (orders st)) := o]> (orders st)).
Proof.
  unfold createOrder.
  destruct (rejected now today b); [now left |].
  destruct (match b_product b with Some _ => _ | None => _ end) as [r | ps];
    [now left |].
  right. exists ps. split; [reflexivity |].
  destruct (if JSString.truthy (b_status b) then _ else _) as [s|];
    [| simpl; auto].
  destruct (JS.parseInt (b_quantity b)) as [[quantity|]|]; try (simpl; now auto).
  match goal with
  | |- context [create today ?os ?d] =>
      destruct (create today os d) as [[o' os']|] eqn:Hc; [| simpl; auto]
  end.
  apply create_order_spec in Hc as (-> & _ & _ & _ & Hq1 & _).
  simpl. split; [reflexivity |]. right. exists o'.
  split; [reflexivity |]. split; [exact Hq1 |].
  split; [apply fresh_lookup_None | reflexivity].
Qed.

End OrderFacts.



Section OrderRoundTripFacts.
Import Order.


Lemma number_taken_false (n : string) (os : gmap nat t) :
  number_taken n os = false ->
  forall k o, os !! k = Some o -> orderNumber o <> n.
Proof.
  unfold number_taken. intros Hf k o Hk He.
  assert (List.existsb (fun o0 => String.eqb (orderNumber o0) n)
                       (snd <$> map_to_list os) = true) as Ht.
  { apply List.existsb_exists. exists o. split.
    - apply list_elem_of_In, list_elem_of_fmap. exists (k, o).
      split; [reflexivity |]. now apply elem_of_map_to_list.
    - rewrite He. apply String.eqb_refl. }
  congruence.
Qed.

Lemma number_taken_true (n : string) (os : gmap nat t) (k : nat) (o : t) :
  os !! k = Some o -> orderNumber o = n -> number_taken n os = true.
Proof.
  intros Hk He. destruct (number_taken n os) eqn:Hn; [reflexivity |].
  exfalso. exact (number_taken_false n os Hn k o Hk He).
Qed.

End OrderRoundTripFacts.



(** X17.  A cancellation that has succeeded is not applied twice: after an
    [updateOrder] to cancelled that answered with success, the order is
    stored as cancelled, and neither a further update to cancelled nor
    the deletion of the order changes any product. *)
Theorem successful_cancel_is_not_repeated
        (today : Z) (st st' : Order.Store) (id : nat) (u : Order.UpdateBody)
        (code : Z) (o' : Order.t)
        (Hok : Order.updateOrder today st id u = (Success code o', st'))
        (Hs : Order.u_status u = Some "cancelled"%string) :
  Order.orders st' !! id = Some o'
  /\ Order.status o' = Order.cancelled
  /\ (forall today' u',
         Order.u_status u' = Some "cancelled"%string ->
         Order.products (snd (Order.updateOrder today' st' id u'))
         = Order.products st')
  /\ Order.products (snd (Order.deleteOrder st' id)) = Order.products st'.
Proof.
  unfold Order.updateOrder in Hok.
  destruct (match Order.u_deliveryDate u with Some _ => _ | None => _ end);
    [discriminate |].
  destruct (Order.orders st !! id) as [old|]; [| discriminate].
  destruct (Order.apply_update today u old) as [o|] eqn:Ha; [| discriminate].
  injection Hok as <- <- <-.
  assert (Order.status o = Order.cancelled) as Hc.
  { unfold Order.apply_update in Ha. rewrite Hs in Ha. simpl in Ha.
    destruct (_ && _)%bool; [| discriminate]. now injection Ha as <-. }
  match goal with
  | |- Order.orders ?s !! id = _ /\ _ =>
      assert (Order.orders s !! id = Some o) as Ho
          by (simpl; apply lookup_insert_eq)
  end.
  split; [exact Ho |]. split; [exact Hc |]. split.
  - intros today' u' Hs'.
    match goal with
    | |- Order.products (snd (Order.updateOrder today' ?s id u')) = _ =>
        set (s1 := s) in *
    end.
    unfold Order.updateOrder.
    destruct (match Order.u_deliveryDate u' with Some _ => _ | None => _ end);
      [reflexivity |].
    rewrite Ho, Hs', Hc.
    destruct (Order.product o); simpl;
      destruct (Order.apply_update today' u' o); reflexivity.
  - match goal with
    | |- Order.products (snd (Order.deleteOrder ?s id)) = _ =>
        rewrite (deleteOrder_products s id o Ho)
    end.
    rewrite Hc. destruct (Order.product o); reflexivity.
Qed.

Lemma successful_cancel_witness :
  let st := Order.mkStore
              {[ 7%nat := Product.mk 1 false 1%nat ]}
              {[ 3%nat := Order.mk "ORD-1" (Some 7%nat) "Lamp" 4 "Dara"
                                   "Phnom Penh" 5000 Order.pending ]} in
  let u := {| Order.u_deliveryDate := None;
              Order.u_status := Some "cancelled"%string;
              Order.u_quantity := None;
              Order.u_product := None |} in
  let r := Order.updateOrder 9000 st 3 u in
  succeeded (fst r) = true
  /\ Order.products (snd r) !! 7%nat = Some (Product.mk 5 true 1%nat)
  /\ Order.products (snd (Order.updateOrder 9000 (snd r) 3 u))
     = Order.products (snd r).
Proof.
  intros st u r. split; [reflexivity |]. split; [reflexivity |].
  assert (exists o, r = (Success 200 o, snd r)) as (o & Hr)
      by (eexists; vm_compute; reflexivity).
  exact (proj1 (proj2 (proj2
           (successful_cancel_is_not_repeated 9000 st (snd r) 3%nat u 200 o
              Hr eq_refl))) 9000 u eq_refl).
Defined.

(** X18.  [createOrder] does not undo the stock update when the creation
    of the order document fails afterwards.  Every failure other than
    the handler's error response leaves the store as it was; that one
    stores no order and, for a quantity that [parseInt] reads as a
    number, leaves the stock of the referenced product lower by that
    number.  An order number that an existing order already has, in a
    request that passes the stock test, is such a failure. *)
Theorem createOrder_failure_keeps_the_decrement
        (now today : Z) (st : Order.Store) (b : Order.CreateBody) :
  let r := Order.createOrder now today st b in
  (forall f, fst r = Failure f -> f <> Order.CreateFailed -> snd r = st)
  /\ (fst r = Failure Order.CreateFailed ->
      Order.orders (snd r) = Order.orders st
      /\ forall pid p q,
           Order.b_product b = Some pid ->
           Order.products st !! pid = Some p ->
           JS.parseInt (Order.b_quantity b) = Some (Some q) ->
           Order.products (snd r)
           = <[pid := Product.mk (Product.stock p - q)
                                 (if Product.stock p - q =? 0 then false
                                  else Product.inStock p)
                                 (Product.category p)]> (Order.products st))
  /\ (forall n pid p k o,
         Order.rejected now today b = None ->
         Order.b_orderNumber b = Some n ->
         Order.b_product b = Some pid ->
         Order.products st !! pid = Some p ->
         (forall m, JS.ToNumber (Order.b_quantity b) = Some m ->
                    JS.lt (JS.Fin (Product.stock p) 0) m = false) ->
         Order.orders st !! k = Some o ->
         Order.orderNumber o
         = JSString.toUpperCase (JSString.trim (JSString.toUpperCase n)) ->
         fst r = Failure Order.CreateFailed).
Proof.
  intros r. subst r. unfold Order.createOrder.
  destruct (Order.rejected now today b) as [f0|] eqn:Hrej.
  { simpl. split; [reflexivity |].
    split; [intros [= ->]; unfold Order.rejected in Hrej;
            repeat match type of Hrej with
                   | (if ?c then _ else _) = _ => destruct c
                   end; discriminate |].
    intros; discriminate. }
  destruct (match Order.b_product b with Some _ => _ | None => _ end)
    as [f1 | ps] eqn:Hres.
  { simpl. split; [reflexivity |]. split.
    - intros [= ->]. split; [reflexivity |].
      intros pid p q Hp Hpd Hq. exfalso. rewrite Hp in Hres.
      unfold Order.reserve in Hres. rewrite Hpd in Hres.
      destruct (JS.ToNumber (Order.b_quantity b)) as [m|] eqn:Hm.
      + destruct (JS.lt _ m); [discriminate |].
        rewrite Hq in Hres. discriminate.
      + apply ToNumber_parseInt in Hm. congruence.
    - intros n pid p k o _ _ Hp Hpd Hle _ _. rewrite Hp in Hres.
      unfold Order.reserve in Hres. rewrite Hpd in Hres.
      destruct (JS.ToNumber (Order.b_quantity b)) as [m|] eqn:Hm.
      + pose proof (Hle m eq_refl) as Hlt.
        change (JS.lt (JS.Fin (Product.stock p) 0) m = false) in Hlt.
        rewrite Hlt in Hres.
        destruct (JS.parseInt (Order.b_quantity b)) as [[q|]|];
          try discriminate Hres; now injection Hres as <-.
      + now injection Hres as <-. }
  assert (forall pid p q,
             Order.b_product b = Some pid ->
             Order.products st !! pid = Some p ->
             JS.parseInt (Order.b_quantity b) = Some (Some q) ->
             ps = <[pid := Product.mk
                             (Product.stock p - q)
                             (if Product.stock p - q =? 0
                              then false else Product.inStock p)
                             (Product.category p)]> (Order.products st)) as Hps.
  { intros pid p q Hp Hpd Hq. rewrite Hp in Hres.
    destruct (reserve_found _ _ _ _ p Hpd Hres) as (m & n & _ & _ & Hn & ->).
    rewrite Hq in Hn. now injection Hn as <-. }
  destruct (if JSString.truthy (Order.b_status b) then _ else _) as [s|] eqn:Hs.
  2:{ simpl. split; [intros f [= <-] Hf; contradiction |].
      split; [intros _; split; [reflexivity | exact Hps] | reflexivity]. }
  destruct (JS.parseInt (Order.b_quantity b)) as [[quantity|]|] eqn:Hparse.
  2,3: (simpl; split; [intros f [= <-] Hf; contradiction |];
        split; [intros _; split; [reflexivity | exact Hps] | reflexivity]).
  match goal with
  | |- context [Order.create today ?os ?d] =>
      destruct (Order.create today os d) as [[o' os']|] eqn:Hc
  end.
  2:{ simpl. split; [intros f [= <-] Hf; contradiction |].
      split; [intros _; split; [reflexivity | exact Hps] | reflexivity]. }
  simpl. split; [discriminate |]. split; [discriminate |].
  intros n pid p k o _ Hn _ _ _ Hk Hnum. exfalso.
  apply create_order_spec in Hc as (_ & _ & _ & _ & _ & Hno & Htaken).
  simpl in Hno, Htaken. rewrite Hn in Hno. simpl in Hno.
  apply (number_taken_false _ _ Htaken k o Hk). congruence.
Qed.

Lemma createOrder_failure_witness :
  let st := Order.mkStore
              {[ 7%nat := Product.mk 5 true 1%nat ]}
              {[ 3%nat := Order.mk "ORD-1" (Some 7%nat) "Lamp" 1 "Dara"
                                   "Phnom Penh" 5000 Order.pending ]} in
  let b := {| Order.b_orderNumber := Some "ord-1"%string;
              Order.b_product := Some 7%nat;
              Order.b_productName := Some "Lamp"%string;
              Order.b_quantity := JS.VNum (JS.Fin 2 0);
              Order.b_customerName := Some "Dara"%string;
              Order.b_customerLocation := Some "Phnom Penh"%string;
              Order.b_deliveryDate := None;
              Order.b_status := None |} in
  let r := Order.createOrder 1000 0 st b in
  fst r = Failure Order.CreateFailed
  /\ Order.orders (snd r) = Order.orders st
  /\ Order.products (snd r) !! 7%nat = Some (Product.mk 3 true 1%nat).
Proof.
  intros st b r.
  assert (fst r = Failure Order.CreateFailed) as Hf by reflexivity.
  destruct (proj1 (proj2 (createOrder_failure_keeps_the_decrement 1000 0 st b)) Hf)
    as [Hos Hps].
  split; [exact Hf |]. split; [exact Hos |].
  unfold r.
  rewrite (Hps 7%nat (Product.mk 5 true 1%nat) 2 eq_refl eq_refl eq_refl).
  apply lookup_insert_eq.
Defined.

(** X19.  [createOrder] never alters or replaces an existing order,
    whatever it answers.  A success (201) stores exactly one order more,
    under an id no order had, for at least one item, with an order number
    in upper case that no existing order has; so order numbers that were
    distinct stay distinct. *)
Theorem createOrder_adds_one_order
        (now today : Z) (st : Order.Store) (b : Order.CreateBody) :
  let r := Order.createOrder now today st b in
  let distinct (os : gmap nat Order.t) :=
    forall k1 k2 o1 o2, os !! k1 = Some o1 -> os !! k2 = Some o2 ->
                        Order.orderNumber o1 = Order.orderNumber o2 -> k1 = k2 in
  (forall k x, Order.orders st !! k = Some x ->
               Order.orders (snd r) !! k = Some x)
  /\ (forall code o,
         fst r = Success code o ->
         code = 201
         /\ Order.orders st !! fresh (dom (Order.orders st)) = None
         /\ Order.orders (snd r)
            = <[fresh (dom (Order.orders st)) := o]> (Order.orders st)
         /\ 1 <= Order.quantity o
         /\ JSString.toUpperCase (Order.orderNumber o) = Order.orderNumber o
         /\ forall k x, Order.orders st !! k = Some x ->
                        Order.orderNumber x <> Order.orderNumber o)
  /\ (distinct (Order.orders st) -> distinct (Order.orders (snd r))).
Proof.
  intros r distinct. subst r.
  destruct (Order.createOrder now today st b) as [[code o | f] st1] eqn:Hr; simpl.
  - pose proof (createOrder_success now today st st1 b code o Hr)
      as (_ & _ & Hos & _ & _ & Hq & Hup & Htaken & _ & ->).
    pose proof (fresh_lookup_None (Order.orders st)) as Hfresh.
    pose proof (number_taken_false _ _ Htaken) as Hnew.
    split; [| split].
    + intros k x Hk. rewrite Hos. rewrite lookup_insert_ne; [exact Hk |].
      intros <-. congruence.
    + intros code' o' [= <- <-]. auto 10.
    + intros Hd k1 k2 o1 o2. rewrite Hos.
      destruct (decide (fresh (dom (Order.orders st)) = k1)) as [<- | Hn1];
        destruct (decide (fresh (dom (Order.orders st)) = k2)) as [<- | Hn2];
        rewrite ?lookup_insert_eq, ?lookup_insert_ne by assumption.
      * reflexivity.
      * intros [= <-] H2 He. exfalso. now apply (Hnew k2 o2 H2).
      * intros H1 [= <-] He. exfalso. now apply (Hnew k1 o1 H1).
      * apply Hd.
  - assert (Order.orders st1 = Order.orders st) as Hsame.
    { destruct (createOrder_store now today st b) as [Hs | (ps & _ & _ & Ho)];
        rewrite Hr in *; simpl in *; [now subst |].
      destruct Ho as [Ho | (o1 & Habs & _)]; [exact Ho | discriminate]. }
    rewrite Hsame. split; [auto |]. split; [discriminate | auto].
Qed.

Lemma createOrder_adds_one_order_witness :
  let st := Order.mkStore
              {[ 7%nat := Product.mk 5 true 1%nat ]}
              {[ 0%nat := Order.mk "ORD-1" (Some 7%nat) "Lamp" 1 "Dara"
                                   "Phnom Penh" 5000 Order.pending ]} in
  let b := {| Order.b_orderNumber := Some "ord-2"%string;
              Order.b_product := None;
              Order.b_productName := Some "Lamp"%string;
              Order.b_quantity := JS.VNum (JS.Fin 2 0);
              Order.b_customerName := Some "Dara"%string;
              Order.b_customerLocation := Some "Phnom Penh"%string;
              Order.b_deliveryDate := None;
              Order.b_status := None |} in
  exists o,
    fst (Order.createOrder 1000 0 st b) = Success 201 o
    /\ Order.orderNumber o = "ORD-2"%string
    /\ Order.orders (snd (Order.createOrder 1000 0 st b))
       = <[1%nat := o]> (Order.orders st).
Proof.
  intros st b. eexists.
  match goal with
  | |- ?eq /\ _ => assert eq as H by (vm_compute; reflexivity)
  end.
  split; [exact H |]. split; [reflexivity |].
  destruct (proj1 (proj2 (createOrder_adds_one_order 1000 0 st b)) _ _ H)
    as (_ & _ & Hos & _).
  exact Hos.
Defined.

(** ** Categories: deletion and the tree builder *)

(** X20.  [deleteCategory] keeps the references of the store resolved: if
    the parent of every category and the category of every product exist
    before, they exist after, whatever the answer.  A successful deletion
    removes the category and the file of its image, and leaves every
    other category, every product and every other file as it was. *)
Theorem deleteCategory_keeps_references
        (st : Category.Store) (id : nat) (Hst : Category.references_resolve st) :
  let r := Category.deleteCategory st id in
  Category.references_resolve (snd r)
  /\ (succeeded (fst r) = false -> snd r = st)
  /\ (succeeded (fst r) = true ->
      Category.categories (snd r) = delete id (Category.categories st)
      /\ Category.products (snd r) = Category.products st
      /\ (forall c f, Category.categories st !! id = Some c ->
                      Category.image c = Some f -> f <> ""%string ->
                      f ∉ Category.files (snd r))
      /\ (forall c, Category.categories st !! id = Some c ->
                    forall q, Some q <> Category.image c ->
                              (q ∈ Category.files (snd r)
                               <-> q ∈ Category.files st))).
Proof.
  intros r. subst r. destruct Hst as [Hcat Hprod].
  pose proof (has_child_iff st id) as Hch.
  pose proof (has_product_iff st id) as Hpr.
  unfold Category.deleteCategory.
  destruct (Category.categories st !! id) as [c|] eqn:Hc;
    [| split; [now split | split; [reflexivity | discriminate]]].
  destruct (Nat.ltb_spec 0
              (Category.countDocuments
                 (fun c0 => Category.option_nat_eqb (Category.parent c0) id)
                 (Category.categories st))) as [Hkids | Hkids];
    [split; [now split | split; [reflexivity | discriminate]] |].
  destruct (Nat.ltb_spec 0
              (Category.countDocuments
                 (fun p => Nat.eqb (Product.category p) id)
                 (Category.products st))) as [Hprods | Hprods];
    [split; [now split | split; [reflexivity | discriminate]] |].
  simpl. split; [| split; [discriminate |]].
  - split; simpl.
    + intros k c' p Hk Hp.
      apply lookup_delete_Some in Hk as [Hne Hk].
      destruct (decide (p = id)) as [-> | Hpid].
      * exfalso. assert (0 < 0)%nat; [| lia].
        eapply Nat.lt_le_trans; [| exact Hkids]. apply Hch. eauto.
      * rewrite lookup_delete_ne by congruence. now apply (Hcat k c').
    + intros k p Hk.
      destruct (decide (Product.category p = id)) as [He | Hne].
      * exfalso. assert (0 < 0)%nat; [| lia].
        eapply Nat.lt_le_trans; [| exact Hprods]. apply Hpr. eauto.
      * rewrite lookup_delete_ne by congruence. now apply (Hprod k).
  - intros _. split; [reflexivity |]. split; [reflexivity |]. split.
    { intros c' f [= <-] Hi Hne. rewrite Hi.
      destruct f as [|ch img]; [contradiction |]. simpl.
      unfold Category.unlinkIfExists.
      destruct (decide (String ch img ∈ Category.files st)) as [Hin | Hout].
      - rewrite bool_decide_eq_true_2 by exact Hin.
        rewrite elem_of_difference, elem_of_singleton. tauto.
      - rewrite bool_decide_eq_false_2 by exact Hout. exact Hout. }
    intros c' [= <-] q Hq.
    destruct (Category.image c) as [[|ch img]|]; simpl; try reflexivity.
    unfold Category.unlinkIfExists.
    destruct (decide (String ch img ∈ Category.files st)) as [Hin | Hout].
    + rewrite bool_decide_eq_true_2 by exact Hin.
      rewrite elem_of_difference, elem_of_singleton.
      split; [tauto |]. intros Hqin. split; [exact Hqin | congruence].
    + rewrite bool_decide_eq_false_2 by exact Hout. reflexivity.
Qed.

Lemma deleteCategory_keeps_references_witness :
  let home := Category.mk 1 "Home" None (Some "/uploads/categories/home.png"%string) in
  let st := Category.mkStore {[ 1%nat := home ]} ∅
                             {[ "/uploads/categories/home.png"%string ]} in
  Category.references_resolve st
  /\ succeeded (fst (Category.deleteCategory st 1)) = true
  /\ Category.categories (snd (Category.deleteCategory st 1))
     = delete 1%nat (Category.categories st)
  /\ "/uploads/categories/home.png"%string
     ∉ Category.files (snd (Category.deleteCategory st 1)).
Proof.
  intros home st.
  assert (Category.references_resolve st) as Hst.
  { split.
    - intros k c p. simpl. destruct (decide (1%nat = k)) as [<- | Hne].
      + rewrite lookup_singleton_eq. intros [= <-]. discriminate.
      + rewrite lookup_singleton_ne by exact Hne. discriminate.
    - intros k p. simpl. rewrite lookup_empty. discriminate. }
  assert (succeeded (fst (Category.deleteCategory st 1)) = true) as Hok
      by (vm_compute; reflexivity).
  split; [exact Hst |]. split; [exact Hok |].
  destruct (proj2 (proj2 (deleteCategory_keeps_references st 1%nat Hst)) Hok)
    as (Hcats & _ & Hfile & _).
  split; [exact Hcats |].
  apply (Hfile home); [reflexivity | reflexivity | discriminate].
Defined.

Section PlacementFacts.
Import Category.

Lemma filter_disjoint_perm {A} (f g : A -> bool) (l : list A) :
  (forall x, List.In x l -> f x = true -> g x = false) ->
  Permutation (List.filter f l ++ List.filter g l)
              (List.filter (fun x => (f x || g x)%bool) l).
Proof.
  induction l as [|a l IH]; intros Hd; simpl; [constructor |].
  assert (Permutation (List.filter f l ++ List.filter g l)
                      (List.filter (fun x => (f x || g x)%bool) l)) as IH'.
  { apply IH. intros x Hx. apply Hd. now right. }
  destruct (f a) eqn:Hf; simpl.
  - rewrite (Hd a (or_introl eq_refl) Hf). simpl. now constructor.
  - destruct (g a); simpl; [| exact IH'].
    etransitivity; [symmetry; apply Permutation_middle |]. now constructor.
Qed.

Lemma flat_map_ext_in {A B} (f g : A -> list B) (l : list A) :
  (forall x, List.In x l -> f x = g x) -> List.flat_map f l = List.flat_map g l.
Proof.
  induction l as [|a l IH]; intros H; simpl; [reflexivity |].
  rewrite (H a (or_introl eq_refl)), IH; [reflexivity |].
  intros x Hx. apply H. now right.
Qed.

Lemma flat_map_map {A B C} (h : B -> C) (f : A -> list B) (l : list A) :
  List.flat_map (fun x => List.map h (f x)) l = List.map h (List.flat_map f l).
Proof.
  induction l as [|a l IH]; simpl; [reflexivity |].
  now rewrite List.map_app, IH.
Qed.

Lemma children_by_parent_perm (ks : list nat) (l : list Doc) :
  NoDup ks ->
  Permutation (List.flat_map (fun k => List.filter (is_child_of k) l) ks)
              (List.filter (has_parent_in ks) l).
Proof.
  induction ks as [|k ks IH]; intros Hnd; simpl.
  - unfold has_parent_in. simpl. now rewrite filter_false.
  - apply NoDup_cons in Hnd as [Hk Hnd]. rewrite list_elem_of_In in Hk.
    etransitivity; [apply Permutation_app_head, IH, Hnd |].
    apply filter_disjoint_perm.
    intros c _ Hc. unfold has_parent_in.
    destruct (List.existsb (fun k0 => is_child_of k0 c) ks) eqn:He; [| reflexivity].
    exfalso. apply List.existsb_exists in He as (k' & Hk' & Hc').
    unfold is_child_of, option_nat_eqb in Hc, Hc'.
    destruct (parentKey c) as [p|]; [| discriminate].
    apply Nat.eqb_eq in Hc, Hc'. subst. contradiction.
Qed.

Lemma is_root_in_negb (l : list Doc) (c : Doc) :
  is_root_in l c = negb (has_parent_in (List.map doc_id l) c).
Proof.
  unfold is_root_in, has_parent_in, is_child_of, option_nat_eqb.
  destruct (parentKey c) as [p|]; [reflexivity |].
  induction (List.map doc_id l); simpl; auto.
Qed.

End PlacementFacts.

(** X21.  The tree builder places every category exactly once.  For a list
    of documents with distinct ids, whether their parents are references
    or populated, the roots followed by the children of every id of the
    list are a rearrangement of the ids of the list: no category is
    lost, none appears twice, and none that is a root is also a child. *)
Theorem buildCategoryTree_places_each_once (categories : list Category.Doc)
        (Hids : NoDup (List.map Category.doc_id categories)) :
  let r := Category.buildCategoryTree categories in
  Permutation (Category.placed categories r)
              (List.map Category.doc_id categories)
  /\ NoDup (Category.placed categories r)
  /\ List.length (Category.placed categories r) = List.length categories.
Proof.
  intros r.
  assert (Permutation (Category.placed categories r)
                      (List.map Category.doc_id categories)) as Hperm.
  { subst r. unfold Category.placed. rewrite buildCategoryTree_roots.
    rewrite (flat_map_ext_in _
               (fun k => List.map Category.doc_id
                           (List.filter (Category.is_child_of k) categories))).
    - rewrite flat_map_map, <- List.map_app. apply Permutation_map.
      etransitivity;
        [apply Permutation_app_head, children_by_parent_perm, Hids |].
      etransitivity; [apply filter_disjoint_perm |].
      + intros c _. rewrite is_root_in_negb. now intros ->%negb_true_iff.
      + rewrite filter_true; [reflexivity |].
        intros c. rewrite is_root_in_negb. now destruct (Category.has_parent_in _ c).
    - intros k Hk.
      destruct (buildCategoryTree_children categories k) as (n & -> & Hn);
        [| exact Hn].
      apply List.existsb_exists. exists k. split; [exact Hk | apply Nat.eqb_refl]. }
  split; [exact Hperm |]. split.
  - now rewrite Hperm.
  - rewrite (Permutation_length Hperm). apply List.length_map.
Qed.

Lemma buildCategoryTree_places_witness :
  let c1 := Category.unpopulated (Category.mk 1 "Home" None None) in
  let c2 := Category.unpopulated (Category.mk 2 "Lamps" (Some 1%nat) None) in
  let c3 := Category.unpopulated (Category.mk 3 "Stray" (Some 99%nat) None) in
  NoDup (List.map Category.doc_id [c1; c2; c3])
  /\ Category.placed [c1; c2; c3] (Category.buildCategoryTree [c1; c2; c3])
     = [1%nat; 3%nat; 2%nat]
  /\ NoDup (Category.placed [c1; c2; c3]
              (Category.buildCategoryTree [c1; c2; c3])).
Proof.
  intros c1 c2 c3.
  assert (NoDup (List.map Category.doc_id [c1; c2; c3])) as Hnd.
  { apply NoDup_ListNoDup. simpl.
    repeat constructor; simpl; intuition discriminate. }
  split; [exact Hnd |]. split; [vm_compute; reflexivity |].
  exact (proj1 (proj2 (buildCategoryTree_places_each_once [c1; c2; c3] Hnd))).
Defined.

(** ** Signup: what a registration keeps and refuses *)

Section SignupStoreFacts.
Import Auth.

Lemma fresh_user_id_not_in (users : list User) :
  ~ List.In (fresh_id users) (List.map _id users).
Proof.
  assert (forall u, List.In u users -> (_id u < fresh_id users)%nat) as Hlt.
  { unfold fresh_id. induction users as [|a l IH]; simpl; [contradiction |].
    intros u [-> | Hin]; [lia |]. specialize (IH u Hin). lia. }
  intros Hin. apply List.in_map_iff in Hin as (u & He & Hu).
  apply Hlt in Hu. lia.
Qed.

Lemma create_user_spec (users users' : list User) (n e pw : string)
      (ph : option string) (r : JS.Value) (u : User) :
  create users n e pw ph r = Some (u, users') ->
  users' = users ++ [u]
  /\ _id u = fresh_id users
  /\ ~ List.In (email u) (List.map email users)
  /\ emailMatch (email u) = true
  /\ (6 <= String.length pw)%nat
  /\ (String.length (name u) <= 100)%nat.
Proof.
  unfold create. destruct (role_path r) as [ro|]; [| discriminate].
  match goal with
  | |- (if ?c then _ else _) = _ -> _ => destruct c eqn:Hc; [| discriminate]
  end.
  intros [= <- <-]. simpl.
  rewrite !andb_true_iff in Hc.
  destruct Hc as [[[[[_ Hlen] _] Hm] Hpw] Hnew].
  split; [reflexivity |]. split; [reflexivity |].
  split; [| split; [exact Hm | split; [now apply Nat.leb_le | now apply Nat.leb_le]]].
  intros Hin. apply negb_true_iff in Hnew.
  assert (List.existsb
            (fun u0 => String.eqb (email u0)
                                  (JSString.trim (JSString.toLowerCase e)))
            users = true) as Ht; [| congruence].
  apply List.in_map_iff in Hin as (u0 & He & Hu0).
  apply List.existsb_exists. exists u0. split; [exact Hu0 |].
  rewrite He. apply String.eqb_refl.
Qed.

(** What the early returns of [signup] have checked when none is taken. *)
Lemma precheck_None (users : list User) (b : Body) :
  precheck users b = None ->
  JSString.truthy (b_name b) = true
  /\ JSString.truthy (b_password b) = true
  /\ (JSString.truthy (b_email b) = true \/ JSString.truthy (b_phone b) = true)
  /\ (JSString.truthy (b_email b) = true ->
      isValidEmail (default "" (b_email b)) = true)
  /\ (JSString.truthy (b_phone b) = true ->
      isValidPhone (default "" (b_phone b)) = true)
  /\ (2 <= String.length (JSString.trim (default "" (b_name b))) <= 100)%nat
  /\ (6 <= String.length (default "" (b_password b)))%nat
  /\ findOne (query_email b) (query_phone b) users = None.
Proof.
  unfold precheck, isValidPassword.
  destruct (JSString.truthy (b_name b)); cbn [negb andb orb]; [| discriminate].
  destruct (JSString.truthy (b_password b)); cbn [negb andb orb]; [| discriminate].
  destruct (JSString.truthy (b_email b)) eqn:He; cbn [negb andb orb].
  - destruct (isValidEmail (default "" (b_email b))); cbn [negb andb orb]; [| discriminate].
    destruct (JSString.truthy (b_phone b)) eqn:Hp; cbn [negb andb orb].
    + destruct (isValidPhone (default "" (b_phone b))); cbn [negb andb orb]; [| discriminate].
      destruct (Nat.ltb_spec (String.length (JSString.trim (default "" (b_name b)))) 2);
        [discriminate |].
      destruct (Nat.ltb_spec 100 (String.length (JSString.trim (default "" (b_name b)))));
        [discriminate |].
      destruct (Nat.leb_spec 6 (String.length (default "" (b_password b))));
        cbn [negb andb orb]; [| discriminate].
      destruct (findOne _ _ users); [discriminate |]. intros _.
      repeat split; auto; lia.
    + destruct (Nat.ltb_spec (String.length (JSString.trim (default "" (b_name b)))) 2);
        [discriminate |].
      destruct (Nat.ltb_spec 100 (String.length (JSString.trim (default "" (b_name b)))));
        [discriminate |].
      destruct (Nat.leb_spec 6 (String.length (default "" (b_password b))));
        cbn [negb andb orb]; [| discriminate].
      destruct (findOne _ _ users); [discriminate |]. intros _.
      repeat split; auto; try lia; discriminate.
  - destruct (JSString.truthy (b_phone b)) eqn:Hp; cbn [negb andb orb]; [| discriminate].
    destruct (isValidPhone (default "" (b_phone b))); cbn [negb andb orb]; [| discriminate].
    destruct (Nat.ltb_spec (String.length (JSString.trim (default "" (b_name b)))) 2);
      [discriminate |].
    destruct (Nat.ltb_spec 100 (String.length (JSString.trim (default "" (b_name b)))));
      [discriminate |].
    destruct (Nat.leb_spec 6 (String.length (default "" (b_password b))));
      cbn [negb andb orb]; [| discriminate].
    destruct (findOne _ _ users); [discriminate |]. intros _.
    repeat split; auto; try lia; discriminate.
Qed.

(** The field validation of [precheck] does not look at the users. *)
Lemma precheck_validation (users users' : list User) (b : Body) (r : Reason) :
  precheck users b = Some r -> r <> AlreadyExists -> precheck users' b = Some r.
Proof.
  unfold precheck.
  repeat match goal with
         | |- (if ?c then _ else _) = _ -> _ => destruct c; [now intros |]
         end.
  destruct (findOne _ _ users); [| discriminate].
  intros [= <-] Hne. contradiction.
Qed.

End SignupStoreFacts.

(** X22.  [signup] keeps ids and emails distinct.  A failure leaves the
    users as they were.  A success (201) follows a request with a name of
    2 to 100 characters once trimmed, a password of at least 6
    characters, an email that passes the handler's format check and, if
    a phone number is given, one that passes the phone check; it appends
    exactly one user, with a new id and an email no user had, and the
    session carries the id, the email and the name of that user. *)
Theorem signup_keeps_users_distinct (users : list Auth.User) (b : Auth.Body)
        (Hids : NoDup (List.map Auth._id users))
        (Hemails : NoDup (List.map Auth.email users)) :
  let r := Auth.signup users b in
  NoDup (List.map Auth._id (snd r))
  /\ NoDup (List.map Auth.email (snd r))
  /\ (succeeded (fst r) = false -> snd r = users)
  /\ (forall code u s,
         fst r = Success code (u, s) ->
         code = 201
         /\ snd r = users ++ [u]
         /\ ~ List.In (Auth._id u) (List.map Auth._id users)
         /\ ~ List.In (Auth.email u) (List.map Auth.email users)
         /\ s = Auth.mkSession (Auth._id u) (Auth.role u) (Auth.email u)
                               (Auth.name u)
         /\ (2 <= String.length (JSString.trim (default "" (Auth.b_name b)))
             <= 100)%nat
         /\ (6 <= String.length (default "" (Auth.b_password b)))%nat
         /\ (exists e, Auth.b_email b = Some e /\ Auth.isValidEmail e = true)
         /\ (JSString.truthy (Auth.b_phone b) = true ->
             Auth.isValidPhone (default "" (Auth.b_phone b)) = true)).
Proof.
  intros r. subst r. unfold Auth.signup.
  destruct (Auth.precheck users b) as [f|] eqn:Hp; simpl.
  { split; [exact Hids |]. split; [exact Hemails |].
    split; [reflexivity | discriminate]. }
  destruct (Auth.b_email b) as [e|] eqn:He; simpl.
  2:{ split; [exact Hids |]. split; [exact Hemails |].
      split; [reflexivity | discriminate]. }
  destruct (Auth.create _ _ _ _ _ _) as [[u users']|] eqn:Hc; simpl.
  2:{ split; [exact Hids |]. split; [exact Hemails |].
      split; [reflexivity | discriminate]. }
  pose proof (create_result _ _ _ _ _ _ _ _ Hc) as (_ & _ & Heq & Hne).
  apply create_user_spec in Hc as (-> & Hid & Hnew & _).
  assert (~ List.In (Auth._id u) (List.map Auth._id users)) as Hnid
      by (rewrite Hid; apply fresh_user_id_not_in).
  apply precheck_None in Hp as (_ & _ & _ & Hve & Hvp & Hn & Hpw & _).
  rewrite !List.map_app. simpl.
  split; [now apply NoDup_snoc |]. split; [now apply NoDup_snoc |].
  split; [discriminate |].
  intros code u' s [= <- <- <-].
  repeat split; try assumption; try lia.
  exists e. split; [reflexivity |].
  rewrite He in Hve. simpl in Hve. apply Hve.
  destruct e; [| reflexivity].
  contradiction Hne.
Qed.

Lemma signup_keeps_users_distinct_witness :
  let b := {| Auth.b_name := Some "Dara"%string;
              Auth.b_email := Some "dara@shop.com"%string;
              Auth.b_password := Some "secret1"%string;
              Auth.b_phone := Some "012 345 6789"%string;
              Auth.b_role := JS.VUndefined |} in
  let users := [Auth.mkUser 1 "Sok" "sok@shop.com" (Some "0987654321"%string)
                            Auth.customer] in
  (NoDup (List.map Auth._id users) /\ NoDup (List.map Auth.email users))
  /\ succeeded (fst (Auth.signup users b)) = true
  /\ NoDup (List.map Auth.email (snd (Auth.signup users b))).
Proof.
  intros b users.
  assert (NoDup (List.map Auth._id users)) as H1 by apply NoDup_singleton.
  assert (NoDup (List.map Auth.email users)) as H2 by apply NoDup_singleton.
  split; [split; assumption |]. split; [vm_compute; reflexivity |].
  exact (proj1 (proj2 (signup_keeps_users_distinct users b H1 H2))).
Defined.

(** X23.  The duplicate check of [signup] compares an absent phone number
    with [null], which every user without a phone number matches: once
    such a user exists, no request without a phone number succeeds, and
    one that would pass every check on an empty collection is answered
    that the user already exists. *)
Theorem signup_without_phone_is_blocked (users : list Auth.User) (b : Auth.Body)
        (u0 : Auth.User)
        (Hin : List.In u0 users) (Hnophone : Auth.phone u0 = None)
        (Hreq : JSString.truthy (Auth.b_phone b) = false) :
  succeeded (fst (Auth.signup users b)) = false
  /\ snd (Auth.signup users b) = users
  /\ (Auth.precheck [] b = None ->
      Auth.signup users b = (Failure Auth.AlreadyExists, users)).
Proof.
  assert (exists u, Auth.findOne (Auth.query_email b) (Auth.query_phone b) users
                    = Some u) as [u Hfound].
  { unfold Auth.query_phone. rewrite Hreq.
    destruct (Auth.findOne (Auth.query_email b) None users) as [u|] eqn:Hf;
      [eauto |].
    exfalso. unfold Auth.findOne in Hf.
    pose proof (List.find_none _ _ Hf u0 Hin) as Hno. simpl in Hno.
    rewrite Hnophone in Hno. simpl in Hno.
    now rewrite orb_true_r in Hno. }
  assert (exists r, Auth.precheck users b = Some r
                    /\ (Auth.precheck [] b = None -> r = Auth.AlreadyExists))
    as (r & Hr & Hwhy).
  { destruct (Auth.precheck users b) as [r|] eqn:Hp.
    - exists r. split; [reflexivity |]. intros Hempty.
      destruct r; try reflexivity;
        (rewrite (precheck_validation users [] b _ Hp) in Hempty;
         [discriminate Hempty | discriminate]).
    - apply precheck_None in Hp as (_ & _ & _ & _ & _ & _ & _ & Hnone).
      congruence. }
  unfold Auth.signup. rewrite Hr. simpl.
  split; [reflexivity |]. split; [reflexivity |].
  intros Hempty. now rewrite (Hwhy Hempty).
Qed.

Lemma signup_without_phone_witness :
  let u0 := Auth.mkUser 1 "Sok" "sok@shop.com" None Auth.customer in
  let b := {| Auth.b_name := Some "Dara"%string;
              Auth.b_email := Some "dara@shop.com"%string;
              Auth.b_password := Some "secret1"%string;
              Auth.b_phone := None;
              Auth.b_role := JS.VUndefined |} in
  (List.In u0 [u0] /\ Auth.phone u0 = None
   /\ JSString.truthy (Auth.b_phone b) = false
   /\ succeeded (fst (Auth.signup [] b)) = true)
  /\ Auth.signup [u0] b = (Failure Auth.AlreadyExists, [u0]).
Proof.
  intros u0 b.
  assert (List.In u0 [u0]) as Hin by (now left).
  assert (Auth.precheck [] b = None) as Hp by (vm_compute; reflexivity).
  split; [repeat split; try reflexivity; exact Hin |].
  exact (proj2 (proj2 (signup_without_phone_is_blocked [u0] b u0 Hin eq_refl eq_refl))
               Hp).
Defined.

(** ** The format checks of signup *)

Section RegExpFacts.
Import JSRegExp.

Lemma matches_Empty (s : string) : ~ matches Empty s.
Proof. intros H. inversion H. Qed.

Lemma matches_Eps (s : string) : matches Eps s <-> s = EmptyString.
Proof. split; [intros H; now inversion H | intros ->; constructor]. Qed.

Lemma matches_Chr (p : ascii -> bool) (s : string) :
  matches (Chr p) s <-> exists c, s = String c EmptyString /\ p c = true.
Proof.
  split.
  - intros H. inversion H; subst. eauto.
  - intros (c & -> & Hc). now constructor.
Qed.

Lemma matches_Cat (a b : re) (s : string) :
  matches (Cat a b) s
  <-> exists s1 s2, s = s1 +:+ s2 /\ matches a s1 /\ matches b s2.
Proof.
  split.
  - intros H. inversion H; subst. eauto.
  - intros (s1 & s2 & -> & H1 & H2). now constructor.
Qed.

Lemma matches_Alt (a b : re) (s : string) :
  matches (Alt a b) s <-> matches a s \/ matches b s.
Proof.
  split.
  - intros H. inversion H; subst; auto.
  - intros [H | H]; [now apply MAltL | now apply MAltR].
Qed.

Lemma matches_Star_cons (a : re) (c : ascii) (s : string) :
  matches (Star a) (String c s)
  <-> exists s1 s2, s = s1 +:+ s2 /\ matches a (String c s1)
                    /\ matches (Star a) s2.
Proof.
  split.
  - intros H. remember (Star a) as r eqn:Hr. remember (String c s) as w eqn:Hw.
    revert s Hw. induction H as [| | | | | |a' s1 s2 H1 _ H2 IH2];
      try discriminate; intros s Hw.
    injection Hr as ->.
    destruct s1 as [|c1 s1];
      rewrite ?append_nil_l, ?append_cons in Hw.
    + now apply IH2.
    + injection Hw as -> <-. eauto.
  - intros (s1 & s2 & -> & H1 & H2).
    rewrite <- append_cons. now constructor.
Qed.

Lemma nullable_spec (r : re) : nullable r = true <-> matches r EmptyString.
Proof.
  induction r as [| |p|a IHa b IHb|a IHa b IHb|a IHa]; simpl.
  - split; [discriminate | intros H; inversion H].
  - split; [constructor | reflexivity].
  - split; [discriminate | intros H; inversion H].
  - rewrite andb_true_iff, IHa, IHb, matches_Cat. split.
    + intros [H1 H2]. exists EmptyString, EmptyString. auto.
    + intros (s1 & s2 & He & H1 & H2). symmetry in He.
      apply append_eq_nil in He as [-> ->]. auto.
  - rewrite orb_true_iff, IHa, IHb, matches_Alt. reflexivity.
  - split; [constructor | reflexivity].
Qed.

Lemma cat_spec (a b : re) (s : string) : matches (cat a b) s <-> matches (Cat a b) s.
Proof.
  destruct a; simpl; try reflexivity.
  - rewrite matches_Cat. split; [intros H; inversion H |].
    intros (s1 & s2 & _ & H & _). inversion H.
  - rewrite matches_Cat. split.
    + intros H. exists EmptyString, s. repeat split; [constructor | exact H].
    + intros (s1 & s2 & -> & H1 & H2). apply matches_Eps in H1 as ->. exact H2.
Qed.

Lemma alt_spec (a b : re) (s : string) : matches (alt a b) s <-> matches (Alt a b) s.
Proof.
  rewrite matches_Alt.
  destruct a, b; simpl; rewrite ?matches_Alt;
    split; intros H; auto;
    repeat match goal with
           | H : _ \/ _ |- _ => destruct H
           | H : matches Empty _ |- _ => inversion H
           end; auto.
Qed.

Lemma deriv_spec (c : ascii) (r : re) (s : string) :
  matches (deriv c r) s <-> matches r (String c s).
Proof.
  revert s. induction r as [| |p|a IHa b IHb|a IHa b IHb|a IHa]; intros s; simpl.
  - split; intros H; inversion H.
  - split; intros H; inversion H.
  - rewrite matches_Chr. destruct (p c) eqn:Hp.
    + rewrite matches_Eps. split.
      * intros ->. eauto.
      * intros (c' & [= <- ->] & _). reflexivity.
    + split; [intros H; inversion H |].
      intros (c' & [= <- ->] & Hc). congruence.
  - assert (matches (Cat a b) (String c s)
            <-> (exists s1 s2, s = s1 +:+ s2 /\ matches a (String c s1)
                               /\ matches b s2)
                \/ (matches a EmptyString /\ matches b (String c s))) as Hcat.
    { rewrite matches_Cat. split.
      - intros (s1 & s2 & He & H1 & H2).
        destruct s1 as [|c1 s1]; rewrite ?append_nil_l, ?append_cons in He.
        + right. subst. auto.
        + injection He as -> ->. left. eauto.
      - intros [(s1 & s2 & -> & H1 & H2) | [H1 H2]].
        + exists (String c s1), s2. auto.
        + exists EmptyString, (String c s). auto. }
    rewrite Hcat.
    assert (matches (cat (deriv c a) b) s
            <-> exists s1 s2, s = s1 +:+ s2 /\ matches a (String c s1)
                              /\ matches b s2) as Hleft.
    { rewrite cat_spec, matches_Cat. split;
        intros (s1 & s2 & He & H1 & H2); exists s1, s2;
        (split; [exact He |]); (split; [now apply IHa | exact H2]). }
    destruct (nullable a) eqn:Hn.
    + rewrite alt_spec, matches_Alt, Hleft, IHb.
      apply nullable_spec in Hn. tauto.
    + rewrite Hleft. split; [auto |]. intros [H | [H _]]; [exact H |].
      apply nullable_spec in H. congruence.
  - rewrite alt_spec, !matches_Alt, IHa, IHb. reflexivity.
  - rewrite cat_spec, matches_Cat, matches_Star_cons. split;
      intros (s1 & s2 & He & H1 & H2); exists s1, s2;
      (split; [exact He |]); (split; [now apply IHa | exact H2]).
Qed.

(** The matcher decides membership. *)
Lemma test_spec (r : re) (s : string) : test r s = true <-> matches r s.
Proof.
  revert r. induction s as [|c s IH]; intros r; simpl.
  - apply nullable_spec.
  - rewrite IH. apply deriv_spec.
Qed.

End RegExpFacts.

Section CharClassFacts.
Import JSString JSRegExp.

Lemma all_chars_append (p : ascii -> bool) (a b : string) :
  all_chars p (a +:+ b) = (all_chars p a && all_chars p b)%bool.
Proof.
  induction a as [|c a IH]; [reflexivity |].
  rewrite append_cons. simpl. rewrite IH. apply andb_assoc.
Qed.

Lemma length_append (a b : string) :
  String.length (a +:+ b) = (String.length a + String.length b)%nat.
Proof.
  induction a as [|c a IH]; [reflexivity |].
  rewrite append_cons. simpl. now rewrite IH.
Qed.




Lemma split_at (n : nat) (s : string) :
  (n <= String.length s)%nat ->
  exists a b, s = a +:+ b /\ String.length a = n.
Proof.
  revert s. induction n as [|n IH]; intros s Hn.
  - exists EmptyString, s. auto.
  - destruct s as [|c s]; simpl in Hn; [lia |].
    destruct (IH s) as (a & b & -> & Hl); [lia |].
    exists (String c a), b. simpl. auto.
Qed.

Lemma matches_Lit (c : ascii) (s : string) :
  matches (Lit c) s <-> s = String c EmptyString.
Proof.
  unfold Lit. rewrite matches_Chr. split.
  - intros (c' & -> & Hc). apply Ascii.eqb_eq in Hc. now subst.
  - intros ->. exists c. split; [reflexivity | apply Ascii.eqb_refl].
Qed.

Lemma matches_Star_Chr (p : ascii -> bool) (s : string) :
  matches (Star (Chr p)) s <-> all_chars p s = true.
Proof.
  induction s as [|c s IH]; simpl.
  - split; [reflexivity | constructor].
  - rewrite matches_Star_cons, andb_true_iff, <- IH. split.
    + intros (s1 & s2 & -> & H1 & H2).
      apply matches_Chr in H1 as (c' & [= <- ->] & Hc).
      rewrite append_nil_l. auto.
    + intros [Hc Hs]. exists EmptyString, s.
      repeat split; [now constructor | exact Hs].
Qed.

Lemma matches_Plus_Chr (p : ascii -> bool) (s : string) :
  matches (Plus (Chr p)) s <-> s <> EmptyString /\ all_chars p s = true.
Proof.
  unfold Plus. rewrite matches_Cat. split.
  - intros (s1 & s2 & -> & H1 & H2). apply matches_Chr in H1 as (c & -> & Hc).
    apply matches_Star_Chr in H2. rewrite append_cons, append_nil_l. simpl.
    rewrite Hc, H2. split; [discriminate | reflexivity].
  - intros [Hne Hall]. destruct s as [|c s]; [congruence |]. simpl in Hall.
    apply andb_true_iff in Hall as [Hc Hs].
    exists (String c EmptyString), s.
    repeat split; [now constructor | now apply matches_Star_Chr].
Qed.

Lemma matches_times_Chr (p : ascii -> bool) (n : nat) (s : string) :
  matches (times n (Chr p)) s
  <-> String.length s = n /\ all_chars p s = true.
Proof.
  revert s. induction n as [|n IH]; intros s; simpl.
  - rewrite matches_Eps. split.
    + intros ->. auto.
    + intros [Hl _]. destruct s; [reflexivity | discriminate].
  - rewrite matches_Cat. split.
    + intros (s1 & s2 & -> & H1 & H2).
      apply matches_Chr in H1 as (c & -> & Hc).
      apply IH in H2 as [Hl Ha]. rewrite append_cons, append_nil_l. simpl.
      rewrite Hc, Ha, Hl. auto.
    + intros [Hl Ha]. destruct s as [|c s]; [discriminate |].
      simpl in Hl, Ha. apply andb_true_iff in Ha as [Hc Hs].
      injection Hl as Hl. exists (String c EmptyString), s.
      repeat split; [now constructor | apply IH; auto].
Qed.

Lemma matches_upto_Chr (p : ascii -> bool) (n : nat) (s : string) :
  matches (upto n (Chr p)) s
  <-> (String.length s <= n)%nat /\ all_chars p s = true.
Proof.
  revert s. induction n as [|n IH]; intros s; simpl.
  - rewrite matches_Eps. split.
    + intros ->. simpl. auto.
    + intros [Hl _]. destruct s; [reflexivity | simpl in Hl; lia].
  - rewrite matches_Alt, matches_Eps, matches_Cat. split.
    + intros [-> | (s1 & s2 & -> & H1 & H2)].
      * simpl. split; [lia | reflexivity].
      * apply matches_Chr in H1 as (c & -> & Hc). apply IH in H2 as [Hl Ha].
        rewrite append_cons, append_nil_l. simpl. rewrite Hc, Ha.
        split; [lia | reflexivity].
    + intros [Hl Ha]. destruct s as [|c s]; [left; reflexivity | right].
      simpl in Hl, Ha. apply andb_true_iff in Ha as [Hc Hs].
      exists (String c EmptyString), s.
      repeat split; [now constructor | apply IH; split; [lia | exact Hs]].
Qed.

End CharClassFacts.

Section FormatFacts.
Import JSString JSRegExp Auth.

Lemma email_shape (p : ascii -> bool) (s : string) :
  test (Cat (Plus (Chr p))
         (Cat (Lit "@")
           (Cat (Plus (Chr p)) (Cat (Lit ".") (Plus (Chr p)))))) s = true
  <-> exists l d t,
        s = l +:+ ("@" +:+ (d +:+ ("." +:+ t)))
        /\ l <> EmptyString /\ d <> EmptyString /\ t <> EmptyString
        /\ all_chars p l = true /\ all_chars p d = true
        /\ all_chars p t = true.
Proof.
  rewrite test_spec. split.
  - intros H.
    apply matches_Cat in H as (l & r1 & -> & Hl & H).
    apply matches_Cat in H as (a & r2 & -> & Ha & H).
    apply matches_Cat in H as (d & r3 & -> & Hd & H).
    apply matches_Cat in H as (o & t & -> & Ho & Ht).
    apply matches_Lit in Ha as ->. apply matches_Lit in Ho as ->.
    apply matches_Plus_Chr in Hl as [? ?].
    apply matches_Plus_Chr in Hd as [? ?].
    apply matches_Plus_Chr in Ht as [? ?].
    exists l, d, t. repeat split; assumption.
  - intros (l & d & t & -> & Hl & Hd & Ht & Al & Ad & At).
    apply MCat; [now apply matches_Plus_Chr |].
    apply MCat; [now apply matches_Lit |].
    apply MCat; [now apply matches_Plus_Chr |].
    apply MCat; [now apply matches_Lit | now apply matches_Plus_Chr].
Qed.

End FormatFacts.

(** X24.  [isValidPhone] accepts a phone number exactly when, once white
    space, hyphens and parentheses are removed, it consists of 10 to 15
    decimal digits; [isValidEmail] accepts exactly the strings
    [local@domain.tail] whose three parts are non-empty and free of white
    space and of [@]. *)
Theorem signup_formats (s : string) :
  (Auth.isValidPhone s = true
   <-> let d := JSString.filter_chars
                  (fun c => negb (Auth.phone_separator c)) s in
       JSRegExp.all_chars JSString.is_digit d = true
       /\ (10 <= String.length d <= 15)%nat)
  /\ (Auth.isValidEmail s = true
      <-> exists l d t,
            s = l +:+ ("@" +:+ (d +:+ ("." +:+ t)))
            /\ l <> EmptyString /\ d <> EmptyString /\ t <> EmptyString
            /\ JSRegExp.all_chars Auth.not_space_at l = true
            /\ JSRegExp.all_chars Auth.not_space_at d = true
            /\ JSRegExp.all_chars Auth.not_space_at t = true).
Proof.
  split; [| apply email_shape].
  unfold Auth.isValidPhone.
  set (d := JSString.filter_chars _ s). cbv zeta.
  rewrite test_spec, matches_Cat. split.
  - intros (a & b & -> & Ha & Hb).
    apply matches_times_Chr in Ha as [La Aa].
    apply matches_upto_Chr in Hb as [Lb Ab].
    rewrite all_chars_append, length_append, Aa, Ab. split; [reflexivity | lia].
  - intros [Hall [Hlo Hhi]].
    destruct (split_at 10 d Hlo) as (a & b & Hd & La).
    rewrite Hd in Hall, Hhi. rewrite all_chars_append in Hall.
    apply andb_true_iff in Hall as [Aa Ab]. rewrite length_append in Hhi.
    exists a, b. split; [exact Hd |]. split.
    + apply matches_times_Chr. auto.
    + apply matches_upto_Chr. split; [lia | exact Ab].
Qed.

Section SignupSuccess.
Import JSString JSRegExp Auth.




End SignupSuccess.


(** ** Customer and profile handlers *)

Section AccountFacts.
Import Account.

Lemma account_findById_Some (i : nat) (db : list t) (a : t) :
  findById i db = Some a -> In a db /\ id a = i.
Proof.
  unfold findById. intros H. apply List.find_some in H as [Hin Hid].
  split; [exact Hin | now apply Nat.eqb_eq].
Qed.

Lemma account_findById_In (db : list t) (a : t) :
  NoDup (List.map id db) -> In a db -> findById (id a) db = Some a.
Proof.
  unfold findById. induction db as [|x db IH]; intros Hnd Hin; [destruct Hin |].
  simpl in Hnd. apply NoDup_cons in Hnd as [Hx Hnd]. simpl.
  destruct (Nat.eqb_spec (id x) (id a)) as [He | Hne].
  - destruct Hin as [-> | Hin]; [reflexivity |]. exfalso. apply Hx.
    rewrite He. apply list_elem_of_In. now apply List.in_map.
  - destruct Hin as [-> | Hin]; [congruence | now apply IH].
Qed.

Lemma account_delete_In (i : nat) (db : list t) (x : t) :
  NoDup (List.map id db) ->
  In x (findByIdAndDelete i db) <-> In x db /\ id x <> i.
Proof.
  induction db as [|a db IH]; intros Hnd; simpl; [tauto |].
  simpl in Hnd. apply NoDup_cons in Hnd as [Ha Hnd].
  destruct (Nat.eqb_spec (id a) i) as [He | Hne].
  - split.
    + intros Hin. split; [auto |]. intros Hx. apply Ha. rewrite He, <- Hx.
      apply list_elem_of_In. now apply List.in_map.
    + intros [[-> | Hin] Hx]; [congruence | exact Hin].
  - simpl. rewrite (IH Hnd). split.
    + intros [-> | [Hin Hx]]; auto.
    + intros [[-> | Hin] Hx]; auto.
Qed.

Lemma account_delete_gone (i : nat) (db : list t) :
  NoDup (List.map id db) -> findById i (findByIdAndDelete i db) = None.
Proof.
  intros Hnd. destruct (findById i (findByIdAndDelete i db)) as [a|] eqn:H;
    [| reflexivity].
  apply account_findById_Some in H as [Hin Hid].
  apply account_delete_In in Hin as [_ Hne]; [contradiction | exact Hnd].
Qed.

Lemma replace_ids (i : nat) (new : t) (db : list t) :
  id new = i -> List.map id (replace i new db) = List.map id db.
Proof.
  intros Hn. induction db as [|a db IH]; simpl; [reflexivity |].
  destruct (Nat.eqb_spec (id a) i) as [He | Hne]; simpl; congruence.
Qed.

Lemma replace_roles (i : nat) (new old : t) (db : list t) :
  findById i db = Some old -> Auth.role (user new) = Auth.role (user old) ->
  List.map (fun a => Auth.role (user a)) (replace i new db)
  = List.map (fun a => Auth.role (user a)) db.
Proof.
  unfold findById. intros Hf Hr. induction db as [|a db IH]; simpl in *;
    [reflexivity |].
  destruct (Nat.eqb (id a) i); simpl.
  - injection Hf as ->. now rewrite Hr.
  - now rewrite IH.
Qed.

Lemma replace_found (i : nat) (new old : t) (db : list t) :
  findById i db = Some old -> id new = i ->
  findById i (replace i new db) = Some new.
Proof.
  unfold findById. intros Hf Hn. induction db as [|a db IH]; simpl in *;
    [discriminate |].
  destruct (Nat.eqb (id a) i) eqn:He; simpl.
  - now rewrite Hn, Nat.eqb_refl.
  - rewrite He. now apply IH.
Qed.

Lemma replace_others (i : nat) (new : t) (db : list t) (x : t) :
  In x db -> id x <> i -> In x (replace i new db).
Proof.
  induction db as [|a db IH]; simpl; [tauto |].
  intros Hin Hx. destruct (Nat.eqb_spec (id a) i) as [He | Hne]; simpl.
  - destruct Hin as [-> | Hin]; [contradiction | auto].
  - destruct Hin as [-> | Hin]; auto.
Qed.

Lemma replace_In_strict (i : nat) (new : t) (db : list t) (x : t) :
  NoDup (List.map id db) ->
  In x (replace i new db) -> x = new \/ (In x db /\ id x <> i).
Proof.
  induction db as [|a db IH]; intros Hnd; simpl; [tauto |].
  simpl in Hnd. apply NoDup_cons in Hnd as [Ha Hnd].
  destruct (Nat.eqb_spec (id a) i) as [He | Hne]; simpl.
  - intros [<- | Hin]; [auto |]. right. split; [auto |].
    intros Hx. apply Ha. rewrite He, <- Hx.
    apply list_elem_of_In. now apply List.in_map.
  - intros [<- | Hin]; [auto |].
    destruct (IH Hnd Hin) as [-> | [Hx Hxi]]; auto.
Qed.

Lemma replace_emails_NoDup (i : nat) (new : t) (db : list t) :
  NoDup (List.map id db) ->
  NoDup (List.map (fun a => Auth.email (user a)) db) ->
  (forall x, In x db -> id x <> i ->
             Auth.email (user x) <> Auth.email (user new)) ->
  NoDup (List.map (fun a => Auth.email (user a)) (replace i new db)).
Proof.
  induction db as [|a db IH]; intros Hid Hem Hfresh; simpl; [constructor |].
  simpl in Hid, Hem.
  apply NoDup_cons in Hid as [Ha Hid]. apply NoDup_cons in Hem as [Hea Hem].
  destruct (Nat.eqb_spec (id a) i) as [He | Hne]; simpl.
  - apply NoDup_cons. split; [| exact Hem].
    rewrite list_elem_of_In. intros Hin.
    apply List.in_map_iff in Hin as (x & Hx & Hxin).
    apply (Hfresh x); [now right | | exact Hx].
    intros Hxi. apply Ha. rewrite He, <- Hxi.
    apply list_elem_of_In. now apply List.in_map.
  - apply NoDup_cons. split.
    + rewrite list_elem_of_In. intros Hin.
      apply List.in_map_iff in Hin as (x & Hx & Hxin).
      apply replace_In_strict in Hxin as [-> | [Hxin Hxi]]; [| | exact Hid].
      * apply (Hfresh a); [now left | exact Hne | now symmetry].
      * apply Hea. rewrite <- Hx. apply list_elem_of_In.
        now apply (List.in_map (fun a => Auth.email (user a))).
    + apply IH; [exact Hid | exact Hem |].
      intros x Hx. apply Hfresh. now right.
Qed.

Lemma apply_update_none (a : t) :
  apply_update {| set_name := None; set_email := None; set_phone := None;
                  set_avatar := None; set_purchasedItems := None;
                  set_rewardPoints := None; set_isActive := None |} a = a.
Proof. destruct a as [[] ? ? ? ?]. reflexivity. Qed.

End AccountFacts.

(** X26.  [deleteCustomer] does not look at the role: it removes any
    stored user, an administrator included, and nothing else, although
    [getCustomerById] and [updateCustomer] answer 404 for the same id
    when the user is not a customer. *)
Theorem deleteCustomer_ignores_role (db : list Account.t) (a : Account.t)
  (Hids : NoDup (List.map Account.id db)) (Hin : In a db) :
  fst (Account.deleteCustomer db (Account.id a)) = Success 200 tt
  /\ (forall x, In x (snd (Account.deleteCustomer db (Account.id a)))
                <-> In x db /\ x <> a)
  /\ (Account.is_customer a = false ->
      Account.getCustomerById db (Account.id a)
      = Failure Account.CustomerNotFound
      /\ forall b, Account.updateCustomer db (Account.id a) b
                   = (Failure Account.CustomerNotFound, db)).
Proof.
  pose proof (account_findById_In db a Hids Hin) as Hf.
  unfold Account.deleteCustomer, Account.getCustomerById, Account.updateCustomer.
  rewrite Hf. simpl. split; [reflexivity |]. split.
  - intros x. rewrite (account_delete_In _ _ _ Hids). split.
    + intros [Hx Hne]. split; [exact Hx | congruence].
    + intros [Hx Hne]. split; [exact Hx |]. intros Hid. apply Hne.
      apply (NoDup_map_injective Account.id db); auto.
  - intros ->. auto.
Qed.

Lemma deleteCustomer_ignores_role_witness :
  let adm := Account.mk (Auth.mkUser 1 "Root" "root@shop.io" None Auth.admin)
                        None 0 0 true in
  let cus := Account.mk (Auth.mkUser 2 "Dara" "dara@shop.io" None Auth.customer)
                        None 3 40 true in
  fst (Account.deleteCustomer [adm; cus] 1) = Success 200 tt
  /\ snd (Account.deleteCustomer [adm; cus] 1) = [cus]
  /\ Account.getCustomerById [adm; cus] 1 = Failure Account.CustomerNotFound.
Proof.
  intros adm cus.
  assert (NoDup (List.map Account.id [adm; cus])) as Hids.
  { apply NoDup_ListNoDup. repeat constructor; simpl; intuition discriminate. }
  pose proof (deleteCustomer_ignores_role [adm; cus] adm Hids
                (or_introl eq_refl)) as (H1 & _ & H3).
  split; [exact H1 |]. split; [reflexivity |].
  exact (proj1 (H3 eq_refl)).
Defined.

(** A handler that fails returns the collection it was given. *)
Ltac unchanged_on_failure Hwf :=
  simpl; split; [exact Hwf |]; split; [reflexivity |]; split; [reflexivity |];
  split; [auto |]; split; [auto | discriminate].

(** X27.  [updateCustomer] keeps the collection well formed (distinct
    ids, distinct addresses, counters not negative, names of at most 100
    characters), never changes an id or a role, leaves every other
    document in place, changes nothing when it fails, and succeeds only on
    a customer, answering with the document it stored. *)
Theorem updateCustomer_keeps_well_formed (db : list Account.t) (i : nat)
    (b : Account.CustomerBody) (Hwf : Account.well_formed db) :
  let r := Account.updateCustomer db i b in
  Account.well_formed (snd r)
  /\ List.map Account.id (snd r) = List.map Account.id db
  /\ List.map (fun a => Auth.role (Account.user a)) (snd r)
     = List.map (fun a => Auth.role (Account.user a)) db
  /\ (forall x, In x db -> Account.id x <> i -> In x (snd r))
  /\ (succeeded (fst r) = false -> snd r = db)
  /\ (succeeded (fst r) = true ->
      exists old new,
        Account.findById i db = Some old
        /\ Account.is_customer old = true
        /\ fst r = Success 200 (Some new)
        /\ Account.findById i (snd r) = Some new
        /\ Account.is_customer new = true).
Proof.
  cbv zeta. unfold Account.updateCustomer.
  destruct (Account.findById i db) as [old|] eqn:Hf;
    [| unchanged_on_failure Hwf].
  destruct (Account.is_customer old) eqn:Hc;
    [| unchanged_on_failure Hwf].
  unfold Account.findByIdAndUpdate.
  set (u := Account.Build_Update _ _ _ _ _ _ _). clearbody u.
  destruct (Account.validators_pass u) eqn:Hv;
    [| unchanged_on_failure Hwf].
  rewrite Hf.
  destruct (Account.email_taken i u db) eqn:Ht;
    [unchanged_on_failure Hwf |].
  set (new := Account.apply_update u old). simpl.
  destruct (account_findById_Some _ _ _ Hf) as [Hold Hid].
  assert (Account.id new = i) as Hnew by exact Hid.
  destruct Hwf as (Hids & Hems & Hb).
  unfold Account.validators_pass in Hv. rewrite !andb_true_iff in Hv.
  destruct Hv as [[[Hvn Hve] Hvp] Hvr].
  split; [| split; [now apply replace_ids | split;
    [now apply (replace_roles i new old) | split;
      [intros x; apply replace_others | split; [discriminate |]]]]].
  - split; [now rewrite replace_ids | split].
    + apply replace_emails_NoDup; [exact Hids | exact Hems |].
      intros x Hx Hxi. unfold new, Account.apply_update. simpl.
      unfold Account.email_taken in Ht.
      destruct (Account.set_email u) as [e|].
      * intros Heq.
        assert (List.existsb
                  (fun a => (negb (Nat.eqb (Account.id a) i)
                             && String.eqb (Auth.email (Account.user a))
                                  (JSString.trim (JSString.toLowerCase e)))%bool)
                  db = true) as Hex; [| congruence].
        apply List.existsb_exists. exists x. split; [exact Hx |].
        apply andb_true_iff. split; [| apply String.eqb_eq; exact Heq].
        destruct (Nat.eqb_spec (Account.id x) i); [contradiction | reflexivity].
      * intros Heq. apply Hxi. rewrite <- Hid. f_equal.
        apply (NoDup_map_injective
                 (fun a => Auth.email (Account.user a)) db); auto.
    + apply List.Forall_forall. intros x Hx.
      rewrite List.Forall_forall in Hb.
      apply (replace_In_strict _ _ _ _ Hids) in Hx as [-> | [Hx _]];
        [| now apply Hb].
      destruct (Hb old Hold) as (Hp & Hr & Hn).
      unfold new, Account.apply_update. simpl.
      destruct (Account.set_purchasedItems u), (Account.set_rewardPoints u),
        (Account.set_name u);
        rewrite ?andb_true_iff, ?Z.leb_le, ?Nat.leb_le in *;
        repeat split; try tauto.
  - intros _. exists old, new.
    repeat split; auto. now apply (replace_found i new old).
Qed.

Lemma updateCustomer_keeps_well_formed_witness :
  let adm := Account.mk (Auth.mkUser 1 "Root" "root@shop.io" None Auth.admin)
                        None 0 0 true in
  let cus := Account.mk (Auth.mkUser 2 "Dara" "dara@shop.io" None Auth.customer)
                        None 3 40 true in
  let b := {| Account.c_name := Some " Dara S "%string;
              Account.c_email := None; Account.c_phone := None;
              Account.c_avatar := None;
              Account.c_purchasedItems := Some 4;
              Account.c_rewardPoints := None;
              Account.c_isActive := None |} in
  Account.well_formed (snd (Account.updateCustomer [adm; cus] 2 b))
  /\ snd (Account.updateCustomer [adm; cus] 2 b)
     = [adm; Account.mk (Auth.mkUser 2 "Dara S" "dara@shop.io" None
                                     Auth.customer) None 4 40 true].
Proof.
  intros adm cus b.
  assert (Account.well_formed [adm; cus]) as Hwf.
  { split; [| split].
    - apply NoDup_ListNoDup. repeat constructor; simpl; intuition discriminate.
    - apply NoDup_ListNoDup. repeat constructor; simpl; intuition discriminate.
    - repeat constructor; simpl; lia. }
  split; [| reflexivity].
  exact (proj1 (updateCustomer_keeps_well_formed [adm; cus] 2 b Hwf)).
Defined.

(** X28.  [updateProfile] keeps the session in step with the stored
    user: when the session repeated the user's role, address and name
    before the call it does so afterwards, for the same user id; a [getMe]
    that follows a successful update answers with the updated document
    and that session; a failed update changes neither the collection nor
    the session. *)
Theorem updateProfile_keeps_session_in_sync (ses : Auth.Session)
    (db : list Account.t) (b : Account.ProfileBody)
    (Hsync : Account.in_sync ses db) :
  let out := Account.updateProfile (Some ses) db b in
  exists ses',
    snd out = Some ses'
    /\ Auth.session_userId ses' = Auth.session_userId ses
    /\ Account.in_sync ses' (snd (fst out))
    /\ (forall a, fst (fst out) = Success 200 a ->
                  Account.getMe (snd out) (snd (fst out))
                  = (Success 200 (a, ses'), Some ses'))
    /\ (succeeded (fst (fst out)) = false -> snd (fst out) = db /\ ses' = ses).
Proof.
  cbv zeta. destruct Hsync as (a0 & Hf & Hr & He & Hn).
  unfold Account.updateProfile, Account.findByIdAndUpdate.
  set (u := Account.Build_Update _ _ _ _ _ _ _).
  destruct (Account.validators_pass u) eqn:Hv.
  - rewrite Hf. unfold Account.email_taken. cbn [Account.set_email u].
    set (new := Account.apply_update u a0).
    destruct (account_findById_Some _ _ _ Hf) as [_ Hid].
    assert (Account.findById (Auth.session_userId ses)
              (Account.replace (Auth.session_userId ses) new db) = Some new)
      as Hnew by (apply (replace_found _ new a0); [exact Hf | exact Hid]).
    cbn [fst snd].
    assert (Auth.name (Account.user new)
            = if JSString.truthy (Account.p_name b)
              then Auth.name (Account.user new)
              else Auth.session_userName ses) as Hname.
    { destruct (JSString.truthy (Account.p_name b)) eqn:Ht; [reflexivity |].
      rewrite Hn. unfold new, Account.apply_update, u, Account.if_truthy.
      cbn [Account.set_name Account.user Auth.name]. now rewrite Ht. }
    eexists. split; [reflexivity |]. split.
    { destruct (JSString.truthy (Account.p_name b)); reflexivity. }
    split; [| split; [| discriminate]].
    + exists new. split.
      { destruct (JSString.truthy (Account.p_name b)); exact Hnew. }
      split; [| split].
      * destruct (JSString.truthy (Account.p_name b)); exact Hr.
      * destruct (JSString.truthy (Account.p_name b)); exact He.
      * destruct (JSString.truthy (Account.p_name b)); [reflexivity |].
        symmetry. exact Hname.
    + intros a [= <-]. unfold Account.getMe.
      destruct (JSString.truthy (Account.p_name b)); cbn [Auth.session_userId];
        now rewrite Hnew.
  - cbn [fst snd]. exists ses. split; [reflexivity |]. split; [reflexivity |].
    split; [exists a0; auto |]. split; [discriminate | auto].
Qed.

Lemma updateProfile_keeps_session_in_sync_witness :
  let cus := Account.mk (Auth.mkUser 2 "Dara" "dara@shop.io" None Auth.customer)
                        None 3 40 true in
  let ses := Auth.mkSession 2 Auth.customer "dara@shop.io" "Dara" in
  let b := {| Account.p_name := Some "  Dara Sok "%string;
              Account.p_phone := Some (Some "012 345 678"%string);
              Account.p_avatar := None |} in
  Account.in_sync ses [cus]
  /\ snd (Account.updateProfile (Some ses) [cus] b)
     = Some (Auth.mkSession 2 Auth.customer "dara@shop.io" "Dara Sok")
  /\ exists ses',
       snd (Account.updateProfile (Some ses) [cus] b) = Some ses'
       /\ Account.in_sync ses' (snd (fst (Account.updateProfile (Some ses) [cus] b))).
Proof.
  intros cus ses b.
  assert (Account.in_sync ses [cus]) as Hsync.
  { exists cus. repeat split; reflexivity. }
  split; [exact Hsync |]. split; [reflexivity |].
  destruct (updateProfile_keeps_session_in_sync ses [cus] b Hsync)
    as (ses' & H1 & _ & H3 & _).
  exists ses'. split; [exact H1 | exact H3].
Defined.

(** X29.  Deleting the account behind a live session: [deleteCustomer]
    removes the document and leaves the session alone, so that the next
    [getMe] answers 401 and destroys the session; [deleteSelfAccount]
    removes the same document and destroys the session at once. *)
Theorem getMe_after_account_deletion (ses : Auth.Session)
    (db : list Account.t)
    (Hids : NoDup (List.map Account.id db))
    (Hsync : Account.in_sync ses db) :
  let i := Auth.session_userId ses in
  succeeded (fst (Account.getMe (Some ses) db)) = true
  /\ fst (Account.deleteCustomer db i) = Success 200 tt
  /\ Account.getMe (Some ses) (snd (Account.deleteCustomer db i))
     = (Failure Account.SessionUserMissing, None)
  /\ Account.deleteSelfAccount ses db
     = (Success 200 tt, snd (Account.deleteCustomer db i), None)
  /\ (forall x, In x (snd (Account.deleteCustomer db i))
                <-> In x db /\ Account.id x <> i).
Proof.
  cbv zeta. destruct Hsync as (a0 & Hf & _).
  unfold Account.getMe, Account.deleteCustomer, Account.deleteSelfAccount.
  rewrite Hf. cbn [fst snd succeeded].
  rewrite (account_delete_gone _ _ Hids).
  do 4 (split; [reflexivity |]).
  intros x. now apply account_delete_In.
Qed.

Lemma getMe_after_account_deletion_witness :
  let adm := Account.mk (Auth.mkUser 1 "Root" "root@shop.io" None Auth.admin)
                        None 0 0 true in
  let cus := Account.mk (Auth.mkUser 2 "Dara" "dara@shop.io" None Auth.customer)
                        None 3 40 true in
  let ses := Auth.mkSession 2 Auth.customer "dara@shop.io" "Dara" in
  Account.getMe (Some ses) (snd (Account.deleteCustomer [adm; cus] 2))
  = (Failure Account.SessionUserMissing, None).
Proof.
  intros adm cus ses.
  assert (NoDup (List.map Account.id [adm; cus])) as Hids.
  { apply NoDup_ListNoDup. repeat constructor; simpl; intuition discriminate. }
  assert (Account.in_sync ses [adm; cus]) as Hsync.
  { exists cus. repeat split; reflexivity. }
  exact (proj1 (proj2 (proj2
           (getMe_after_account_deletion ses [adm; cus] Hids Hsync)))).
Defined.
